(** * AstroGenAI front end: the request-orchestration layer of [static/js/app.js]

    A shallow embedding of the asynchronous core of the script:
    [makeApiRequest], [showError], [formatFileSize], [loadAvailableModels],
    the three batch workflows ([generateComfyUIBatchVideos],
    [generateFullMontage], [uploadBatchToYouTube]) and the two batch
    renderers.

    - JSON payloads are JavaScript values ([jsval]); the coercions the
      script relies on (truthiness, property access, [===], string and
      number conversion) are written out.
    - The page (elements by id), [localStorage], [appState], a clock in
      milliseconds and a journal of effects form the [world]; the script's
      code runs in a state-and-exception monad over it.
    - A promise is the instant at which it settles together with its
      outcome; [await] moves the clock to that instant.  One handler runs
      at a time: what other tasks would do between a suspension and the
      resumption is not part of a run, the page they would find is. *)

From Stdlib Require Import ZArith Lia.
From stdpp Require Import base strings list gmap pretty.

Local Open Scope Z_scope.
#[local] Set Warnings "-register-all".

(** ** JavaScript values *)

Module JS.

(** Numbers are the integers (status codes, counts and sizes in bytes are
    integral, and below 2^53 in magnitude); a value that is the result of
    [JSON.parse] is never [VUndefined], which arises from reading a property
    that is absent. *)
Inductive jsval : Type :=
| VUndefined
| VNull
| VBool (b : bool)
| VNum (n : Z)
| VStr (s : string)
| VArr (elems : list jsval)
| VObj (props : list (string * jsval)).

(** A thrown value: every value the script throws or catches is an [Error]
    object, of which the script reads [message] only. *)
Record exn : Type := Exn { exn_name : string; exn_message : string }.

Inductive completion (A : Type) : Type :=
| Normal (a : A)
| Throw (e : exn).
Arguments Normal {A} a.
Arguments Throw {A} e.

Definition cbind {A B} (c : completion A) (k : A -> completion B) : completion B :=
  match c with
  | Normal a => k a
  | Throw e => Throw e
  end.

Definition dq : string := String (Ascii.ascii_of_nat 34) EmptyString.
Definition nl : string := String (Ascii.ascii_of_nat 10) EmptyString.

Definition Error (msg : string) : exn := Exn "Error" msg.
Definition TypeError (msg : string) : exn := Exn "TypeError" msg.
Definition SyntaxError (msg : string) : exn := Exn "SyntaxError" msg.

(** [ToBoolean]. *)
Definition truthy (v : jsval) : bool :=
  match v with
  | VUndefined | VNull => false
  | VBool b => b
  | VNum n => negb (n =? 0)
  | VStr s => negb (String.eqb s EmptyString)
  | VArr _ | VObj _ => true
  end.

Fixpoint own_property (props : list (string * jsval)) (key : string) : jsval :=
  match props with
  | [] => VUndefined
  | (k, v) :: rest => if String.eqb k key then v else own_property rest key
  end.

Definition has_own_property (props : list (string * jsval)) (key : string) : bool :=
  existsb (fun kv => String.eqb (fst kv) key) props.

(** [v.key], for the keys the script reads ([success], [error], [models],
    [name], [results], [message], [sign], [result], [file_size], [summary],
    [details], [length]): none of them is inherited from a built-in
    prototype, so the read yields the own property or [undefined]; reading
    from [null] or [undefined] throws.  The length of a string is counted
    in bytes here (in UTF-16 units in the engine); the script only tests it
    against zero. *)
Definition get (v : jsval) (key : string) : completion jsval :=
  match v with
  | VUndefined =>
      Throw (TypeError ("Cannot read properties of undefined (reading '" +:+ key +:+ "')"))
  | VNull =>
      Throw (TypeError ("Cannot read properties of null (reading '" +:+ key +:+ "')"))
  | VBool _ | VNum _ => Normal VUndefined
  | VStr s =>
      Normal (if String.eqb key "length" then VNum (Z.of_nat (String.length s)) else VUndefined)
  | VArr l =>
      Normal (if String.eqb key "length" then VNum (Z.of_nat (length l)) else VUndefined)
  | VObj props => Normal (own_property props key)
  end.

(** [a === b] where one side was parsed from a response that has just
    arrived: primitives compare by value, and an object or array of a fresh
    parse is identical to no value held from before. *)
Definition strict_eq (a b : jsval) : bool :=
  match a, b with
  | VUndefined, VUndefined => true
  | VNull, VNull => true
  | VBool x, VBool y => Bool.eqb x y
  | VNum x, VNum y => x =? y
  | VStr x, VStr y => String.eqb x y
  | _, _ => false
  end.

Definition join_with (sep : string) (parts : list string) : string :=
  match parts with
  | [] => EmptyString
  | p :: rest => fold_left (fun acc q => acc +:+ sep +:+ q) rest p
  end.

(** [ToString], as applied by template literals, by [+] with a string and
    by [new Error(message)].  An object of a JSON payload prints as
    [[object Object]], unless it has an own [toString] property: that
    property is not callable and the conversion throws.  An array joins its
    elements with commas, [null] elements printing as nothing. *)
Fixpoint ToString (v : jsval) : completion string :=
  match v with
  | VUndefined => Normal "undefined"
  | VNull => Normal "null"
  | VBool true => Normal "true"
  | VBool false => Normal "false"
  | VNum n => Normal (pretty n)
  | VStr s => Normal s
  | VArr l =>
      let fix elements (l : list jsval) : completion (list string) :=
        match l with
        | [] => Normal []
        | x :: rest =>
            cbind (match x with
                   | VUndefined | VNull => Normal EmptyString
                   | _ => ToString x
                   end)
              (fun s => cbind (elements rest) (fun ss => Normal (s :: ss)))
        end in
      cbind (elements l) (fun ss => Normal (join_with "," ss))
  | VObj props =>
      if has_own_property props "toString"
      then Throw (TypeError "Cannot convert object to primitive value")
      else Normal "[object Object]"
  end.

Section Coercions.

(** [StringToNumber] of the language, [None] standing for [NaN]; the model
    has no use for its details and holds for any such function. *)
Variable StringToNumber : string -> option Z.

(** [ToNumber]; objects and arrays go through [ToPrimitive], which for the
    values of a JSON payload ends in their string conversion. *)
Definition ToNumber (v : jsval) : completion (option Z) :=
  match v with
  | VUndefined => Normal None
  | VNull => Normal (Some 0)
  | VBool b => Normal (Some (if b then 1 else 0))
  | VNum n => Normal (Some n)
  | VStr s => Normal (StringToNumber s)
  | VArr _ | VObj _ => cbind (ToString v) (fun s => Normal (StringToNumber s))
  end.

(** [v < bound] and [v > bound] against a number literal: false on [NaN]. *)
Definition less_than (v : jsval) (bound : Z) : completion bool :=
  cbind (ToNumber v) (fun n =>
    Normal (match n with Some z => z <? bound | None => false end)).

Definition greater_than (v : jsval) (bound : Z) : completion bool :=
  cbind (ToNumber v) (fun n =>
    Normal (match n with Some z => bound <? z | None => false end)).

End Coercions.

End JS.

Import JS.

(** ** The page, the stores and the clock *)

(** What an element holds: markup assigned through [innerHTML], text
    assigned through [textContent], and [<option>] children (their [value]
    and their text) appended one by one. *)
Inductive node : Type :=
| Markup (html : string)
| TextNode (text : string)
| OptionNode (option_value option_text : string).

Record element : Type := Element {
  classList : list string;
  content : list node;
  value : string
}.

(** The fields of [appState] that the modelled functions read or write. *)
Record app_state : Type := AppState {
  selectedModel : jsval;
  availableModels : jsval
}.

(** The second argument of [fetch]; [body] is the value handed to
    [JSON.stringify]. *)
Record request : Type := Request {
  method : string;
  headers : list (string * string);
  body : option jsval
}.

Inductive event : Type :=
| SetTimeout (delay : nat)
| Fetch (endpoint : string) (options : option request)
| Write (id : string) (now_holds : element)
| Suspended (page : gmap string element)
| ConsoleError (label : string) (error : exn)
| Confirm (text : string) (answer : bool)
| Alert (text : string).

(** [clock] is in milliseconds; [journal] lists the effects in program
    order, each with the instant at which it happened.  [Suspended] marks an
    [await]: it holds the page as any other task finds it while the function
    is parked. *)
Record world : Type := World {
  document : gmap string element;
  localStorage : gmap string string;
  appState : app_state;
  clock : nat;
  journal : list (nat * event)
}.

(** The collaborators: the backend behind [fetch] and the user behind
    [confirm].  A reply takes [latency] milliseconds to settle the promise of
    [fetch]; reading the body with [json()] takes [json_latency] more. *)
Record response : Type := Response {
  status : Z;
  json_latency : nat;
  json_result : completion jsval
}.

Record reply : Type := Reply {
  latency : nat;
  outcome : completion response
}.

Record environment : Type := Environment {
  network : string -> option request -> reply;
  confirm_answer : string -> bool
}.

(** [response.ok]: the status is in the range 200-299. *)
Definition ok (r : response) : bool := (200 <=? status r) && (status r <=? 299).

(** A promise: when it settles and how. *)
Record promise (A : Type) : Type := Promise {
  settles_at : nat;
  settled : completion A
}.
Arguments Promise {A} _ _.
Arguments settles_at {A} _.
Arguments settled {A} _.

(** ** The monad of the script *)

Definition M (A : Type) : Type := world -> completion A * world.

Definition ret {A} (a : A) : M A := fun w => (Normal a, w).

Definition bind {A B} (m : M A) (k : A -> M B) : M B :=
  fun w => match m w with
           | (Normal a, w') => k a w'
           | (Throw e, w') => (Throw e, w')
           end.

Definition throw {A} (e : exn) : M A := fun w => (Throw e, w).

Definition lift {A} (c : completion A) : M A := fun w => (c, w).

Notation "'let!' x ':=' m 'in' k" := (bind m (fun x => k))
  (at level 10, x name, m at level 100, k at level 200).
Notation "m ';;;' k" := (bind m (fun _ => k))
  (at level 100, k at level 200, right associativity).

(** [try { body } catch (error) { handler error }]. *)
Definition try_catch {A} (body : M A) (handler : exn -> M A) : M A :=
  fun w => match body w with
           | (Normal a, w') => (Normal a, w')
           | (Throw e, w') => handler e w'
           end.

(** [try { body } finally { cleanup }]: the cleanup runs on every exit,
    and an exception of its own replaces the completion of the body. *)
Definition try_finally {A} (body : M A) (cleanup : M unit) : M A :=
  fun w => match body w with
           | (c, w') =>
               match cleanup w' with
               | (Normal _, w'') => (c, w'')
               | (Throw e, w'') => (Throw e, w'')
               end
           end.

Definition record (ev : event) : M unit :=
  fun w => (Normal tt,
            World (document w) (localStorage w) (appState w) (clock w)
                  (journal w ++ [(clock w, ev)])).

Definition now : M nat := fun w => (Normal (clock w), w).

(** [await p]: the function is parked until [p] settles, and resumes with
    its outcome. *)
Definition await {A} (p : promise A) : M A :=
  fun w =>
    (settled p,
     World (document w) (localStorage w) (appState w)
           (Nat.max (clock w) (settles_at p))
           (journal w ++ [(clock w, Suspended (document w))])).

(** [new Promise(resolve => setTimeout(resolve, delay))]. *)
Definition timer (delay : nat) : M (promise unit) :=
  record (SetTimeout delay) ;;;
  let! t := now in
  ret (Promise (t + delay)%nat (Normal tt)).

(** [Promise.all([p, q])]: fulfilled when both are, rejected as soon as one
    is (the one of lower index if both settle rejected at one instant). *)
Definition Promise_all {A B} (p : promise A) (q : promise B) : promise (A * B) :=
  match settled p, settled q with
  | Normal a, Normal b => Promise (Nat.max (settles_at p) (settles_at q)) (Normal (a, b))
  | Throw e, Normal _ => Promise (settles_at p) (Throw e)
  | Normal _, Throw e => Promise (settles_at q) (Throw e)
  | Throw e1, Throw e2 =>
      if (settles_at p <=? settles_at q)%nat
      then Promise (settles_at p) (Throw e1)
      else Promise (settles_at q) (Throw e2)
  end.

Section Script.

Variable StringToNumber : string -> option Z.
Variable env : environment.

(** [fetch(endpoint, options)]. *)
Definition fetch (endpoint : string) (options : option request) : M (promise response) :=
  record (Fetch endpoint options) ;;;
  let! t := now in
  let r := network env endpoint options in
  ret (Promise (t + latency r)%nat (outcome r)).

(** [response.json()]. *)
Definition json (r : response) : M (promise jsval) :=
  let! t := now in
  ret (Promise (t + json_latency r)%nat (json_result r)).

(** [document.getElementById(id)]: the element, known by its id, or [null]. *)
Definition handle (page : gmap string element) (id : string) : option string :=
  match page !! id with
  | Some _ => Some id
  | None => None
  end.

Definition getElementById (id : string) : M (option string) :=
  fun w => (Normal (handle (document w) id), w).

Definition update (id : string) (f : element -> element) : M unit :=
  fun w => match document w !! id with
           | Some e =>
               (Normal tt,
                World (<[id := f e]> (document w)) (localStorage w) (appState w) (clock w)
                      (journal w ++ [(clock w, Write id (f e))]))
           | None => (Normal tt, w)
           end.

(** [if (target) target.property = ...]: a write guarded by the test that
    the element was found. *)
Definition when_present (target : option string) (f : element -> element) : M unit :=
  match target with
  | Some id => update id f
  | None => ret tt
  end.

(** Writing a property of what [getElementById] returned. *)
Definition assign (target : option string) (property : string) (f : element -> element) : M unit :=
  match target with
  | Some id => update id f
  | None => throw (TypeError ("Cannot set properties of null (setting '" +:+ property +:+ "')"))
  end.

(** Calling a method of what [getElementById] returned. *)
Definition invoke (target : option string) (method : string) (f : element -> element) : M unit :=
  match target with
  | Some id => update id f
  | None => throw (TypeError ("Cannot read properties of null (reading '" +:+ method +:+ "')"))
  end.

Definition classList_add (token : string) (e : element) : element :=
  Element (if bool_decide (token ∈ classList e) then classList e else classList e ++ [token])
          (content e) (value e).

Definition classList_remove (token : string) (e : element) : element :=
  Element (filter (fun c => c ≠ token) (classList e)) (content e) (value e).

Definition set_className (tokens : list string) (e : element) : element :=
  Element tokens (content e) (value e).

Definition set_innerHTML (html : string) (e : element) : element :=
  Element (classList e) (if String.eqb html EmptyString then [] else [Markup html]) (value e).

Definition set_textContent (text : string) (e : element) : element :=
  Element (classList e) (if String.eqb text EmptyString then [] else [TextNode text]) (value e).

Definition appendChild (child : node) (e : element) : element :=
  Element (classList e) (content e ++ [child]) (value e).

Definition option_values (e : element) : list string :=
  omap (fun n => match n with OptionNode v _ => Some v | _ => None end) (content e).

(** [select.value = v]: the option of that value becomes the selected one;
    when there is none the select is left without a selection and reads
    back as the empty string. *)
Definition set_value (v : string) (e : element) : element :=
  Element (classList e) (content e)
          (if bool_decide (v ∈ option_values e) then v else EmptyString).

(** ** II. General utilities *)

Definition indent (n : nat) : string := nl +:+ String.concat EmptyString (replicate n " ").

(** The template literal of [showError]. *)
Definition error_markup (message : string) : string :=
  indent 8 +:+ "<div class=" +:+ dq +:+ "horoscope-result" +:+ dq
    +:+ " style=" +:+ dq +:+ "border-color: #ff4444;" +:+ dq +:+ ">"
  +:+ indent 12 +:+ "<div class=" +:+ dq +:+ "horoscope-text" +:+ dq
    +:+ " style=" +:+ dq +:+ "color: #ff4444;" +:+ dq +:+ ">"
  +:+ indent 16 +:+ "<strong>❌ Erreur:</strong> " +:+ message
  +:+ indent 12 +:+ "</div>"
  +:+ indent 8 +:+ "</div>"
  +:+ indent 4.

(** [showError(container, message)]. *)
Definition showError (container : string) (message : string) : M unit :=
  update container (set_innerHTML (error_markup message)).

(** The floor on the visible duration of the loading animation, in
    milliseconds. *)
Definition floor : nat := 500.

(** The test [!apiResponse.ok || !data.success] of [makeApiRequest]; [||]
    does not read [data.success] when the status is not ok. *)
Definition rejected_by_envelope (apiResponse : response) (data : jsval) : completion bool :=
  if negb (ok apiResponse) then Normal true
  else cbind (get data "success") (fun s => Normal (negb (truthy s))).

(** [new Error(data.error || `Erreur HTTP ${apiResponse.status}`)]. *)
Definition envelope_error (apiResponse : response) (data : jsval) : completion exn :=
  cbind (get data "error") (fun e =>
    if truthy e
    then cbind (ToString e) (fun msg => Normal (Error msg))
    else Normal (Error ("Erreur HTTP " +:+ pretty (status apiResponse)))).

(** [makeApiRequest(endpoint, options, loadingId, resultId)]. *)
Definition makeApiRequest (endpoint : string) (options : option request)
    (loadingId resultId : string) : M jsval :=
  let! loadingElement := getElementById loadingId in
  let! resultElement := getElementById resultId in
  let! minimumLoadingTime := timer floor in
  let! apiCallPromise := fetch endpoint options in
  when_present loadingElement (classList_add "active") ;;;
  when_present resultElement (set_innerHTML EmptyString) ;;;
  try_finally
    (try_catch
       (let! both := await (Promise_all apiCallPromise minimumLoadingTime) in
        let apiResponse := fst both in
        let! parsing := json apiResponse in
        let! data := await parsing in
        let! failed := lift (rejected_by_envelope apiResponse data) in
        if (failed : bool)
        then let! error := lift (envelope_error apiResponse data) in throw error
        else ret data)
       (fun error =>
          record (ConsoleError ("Erreur API pour " +:+ endpoint +:+ ":") error) ;;;
          (match resultElement with
           | Some el => showError el (exn_message error)
           | None => ret tt
           end) ;;;
          ret VNull))
    (when_present loadingElement (classList_remove "active")).

(** [(x / unit).toFixed(1)] for an integer [0 <= x < 2^53]: the quotient
    is exact in binary floating point for the two units used (1024 and
    1048576), and [toFixed] rounds it to the nearest tenth, the larger one
    on a tie. *)
Definition toFixed1 (x unit : Z) : string :=
  let tenths := (20 * x + unit) / (2 * unit) in
  pretty (tenths / 10) +:+ "." +:+ pretty (tenths mod 10).

(** [formatFileSize(bytes)].  A number stands for itself as long as it is
    an integer below 2^53 in magnitude, as the sizes of files are (see
    [jsval]); beyond, the engine rounds, and from 1e21 on it prints in
    exponent form: what the function prints there is outside the model, and
    the statements about its digits are bounded accordingly. *)
Definition formatFileSize (bytes : jsval) : completion string :=
  cbind (less_than StringToNumber bytes 1024) (fun small =>
  if (small : bool) then cbind (ToString bytes) (fun s => Normal (s +:+ " B")) else
  cbind (less_than StringToNumber bytes 1048576) (fun medium =>
  cbind (ToNumber StringToNumber bytes) (fun n =>
  match n with
  | Some x => Normal (toFixed1 x (if (medium : bool) then 1024 else 1048576)
                        +:+ (if medium then " KB" else " MB"))
  | None => Normal "NaN MB"
  end))).

(** ** IV. The Ollama models *)

Definition initialAppState : app_state :=
  AppState (VStr "llama3.1:8b-instruct-q8_0") (VArr []).

Definition set_availableModels (v : jsval) : M unit :=
  fun w => (Normal tt,
            World (document w) (localStorage w) (AppState (selectedModel (appState w)) v)
                  (clock w) (journal w)).

Definition set_selectedModel (v : jsval) : M unit :=
  fun w => (Normal tt,
            World (document w) (localStorage w) (AppState v (availableModels (appState w)))
                  (clock w) (journal w)).

Definition get_selectedModel : M jsval := fun w => (Normal (selectedModel (appState w)), w).

(** [localStorage.getItem(key) || fallback]: an absent entry reads as
    [null], and the empty string is falsy as well. *)
Definition getItem_or (key : string) (fallback : jsval) : M jsval :=
  fun w => (Normal (match localStorage w !! key with
                    | Some s => if truthy (VStr s) then VStr s else fallback
                    | None => fallback
                    end), w).

(** The test [data.success && data.models && data.models.length > 0]. *)
Definition models_received (data : jsval) : completion bool :=
  cbind (get data "success") (fun success =>
  if negb (truthy success) then Normal false else
  cbind (get data "models") (fun models =>
  if negb (truthy models) then Normal false else
  cbind (get models "length") (fun len => greater_than StringToNumber len 0))).

(** Assigning to a nullable string attribute ([textContent]): [null] and
    [undefined] stand for the empty string. *)
Definition to_nullable_DOMString (v : jsval) : completion string :=
  match v with
  | VUndefined | VNull => Normal EmptyString
  | _ => ToString v
  end.

(** The body of [data.models.forEach(model => { ... })]. *)
Definition add_model_option (modelSelect : option string) (model : jsval) : M unit :=
  let! name := lift (get model "name") in
  let! option_value := lift (ToString name) in
  let! name' := lift (get model "name") in
  let! option_text := lift (to_nullable_DOMString name') in
  invoke modelSelect "appendChild" (appendChild (OptionNode option_value option_text)).

Fixpoint for_each {A} (f : A -> M unit) (l : list A) : M unit :=
  match l with
  | [] => ret tt
  | x :: rest => f x ;;; for_each f rest
  end.

(** [array.forEach(f)], for what a payload may hold in place of the array. *)
Definition forEach (what : string) (array : jsval) (f : jsval -> M unit) : M unit :=
  match array with
  | VArr l => for_each f l
  | VUndefined | VNull =>
      throw (TypeError ("Cannot read properties of "
                          +:+ (match array with VNull => "null" | _ => "undefined" end)
                          +:+ " (reading 'forEach')"))
  | _ => throw (TypeError (what +:+ ".forEach is not a function"))
  end.

(** [models.some(m => m.name === savedModel)]. *)
Fixpoint some_named (savedModel : jsval) (models : list jsval) : completion bool :=
  match models with
  | [] => Normal false
  | m :: rest =>
      cbind (get m "name") (fun name =>
        if strict_eq name savedModel then Normal true else some_named savedModel rest)
  end.

(** [array[0]]. *)
Definition first (array : list jsval) : jsval :=
  match array with
  | [] => VUndefined
  | x :: _ => x
  end.

(** The [try] block of [loadAvailableModels]. *)
Definition refresh_models (statusDot statusText modelSelect : option string) : M unit :=
  let! fetching := fetch "/api/ollama/models" None in
  let! response := await fetching in
  let! parsing := json response in
  let! data := await parsing in
  let! received := lift (models_received data) in
  if (received : bool) then
    let! models := lift (get data "models") in
    set_availableModels models ;;;
    assign modelSelect "innerHTML" (set_innerHTML EmptyString) ;;;
    forEach "data.models" models (add_model_option modelSelect) ;;;
    let! previous := get_selectedModel in
    let! savedModel := getItem_or "selectedModel" previous in
    let! found := lift (match models with
                        | VArr l => some_named savedModel l
                        | _ => Throw (TypeError "data.models.some is not a function")
                        end) in
    (if (found : bool) then
       let! v := lift (ToString savedModel) in
       assign modelSelect "value" (set_value v) ;;;
       set_selectedModel savedModel
     else
       let! name := lift (get (match models with VArr l => first l | _ => VUndefined end) "name") in
       set_selectedModel name ;;;
       let! v := lift (ToString name) in
       assign modelSelect "value" (set_value v)) ;;;
    assign statusDot "className" (set_className ["status-dot"; "connected"]) ;;;
    let! len := lift (get models "length") in
    let! count := lift (ToString len) in
    assign statusText "textContent" (set_textContent (count +:+ " modèles"))
  else
    let! error := lift (get data "error") in
    let! message := lift (if truthy error then ToString error else Normal "Aucun modèle trouvé") in
    throw (Error message).

(** [loadAvailableModels()]. *)
Definition loadAvailableModels : M jsval :=
  let! statusDot := getElementById "model-status-dot" in
  let! statusText := getElementById "model-status-text" in
  let! modelSelect := getElementById "global-model-select" in
  try_catch
    (refresh_models statusDot statusText modelSelect)
    (fun error =>
       record (ConsoleError "Erreur chargement modèles:" error) ;;;
       assign statusDot "className" (set_className ["status-dot"; "error"]) ;;;
       assign statusText "textContent" (set_textContent "Ollama offline")) ;;;
  ret VUndefined.

(** ** VII. The video workflows *)

Definition signNames : list (string * string) :=
  [("aries", "Bélier"); ("taurus", "Taureau"); ("gemini", "Gémeaux");
   ("cancer", "Cancer"); ("leo", "Lion"); ("virgo", "Vierge");
   ("libra", "Balance"); ("scorpio", "Scorpion"); ("sagittarius", "Sagittaire");
   ("capricorn", "Capricorne"); ("aquarius", "Verseau"); ("pisces", "Poissons")].

Fixpoint table_lookup (table : list (string * string)) (key : string) : option string :=
  match table with
  | [] => None
  | (k, v) :: rest => if String.eqb k key then Some v else table_lookup rest key
  end.

(** [`${signNames[sign]}`]: the name of the sign, or [undefined] for a key
    that the table does not have (the keys that every object inherits, such
    as [constructor], are not modelled). *)
Definition signName (sign : jsval) : completion string :=
  cbind (ToString sign) (fun key =>
    Normal (match table_lookup signNames key with
            | Some name => name
            | None => "undefined"
            end)).

Fixpoint map_completion {A B} (f : A -> completion B) (l : list A) : completion (list B) :=
  match l with
  | [] => Normal []
  | x :: rest =>
      cbind (f x) (fun y => cbind (map_completion f rest) (fun ys => Normal (y :: ys)))
  end.

(** What [array.map] and [array.forEach] do when the callee is not an
    array: the method is missing. *)
Definition elements_of (what method : string) (array : jsval) : completion (list jsval) :=
  match array with
  | VArr l => Normal l
  | VUndefined =>
      Throw (TypeError ("Cannot read properties of undefined (reading '" +:+ method +:+ "')"))
  | VNull =>
      Throw (TypeError ("Cannot read properties of null (reading '" +:+ method +:+ "')"))
  | _ => Throw (TypeError (what +:+ "." +:+ method +:+ " is not a function"))
  end.

(** The template literals of [createComfyUIBatchResultHTML]: the [<li>]
    of one item, and the block around the list. *)
Definition batch_result_li (class name verdict : string) : string :=
  "<li class=" +:+ dq +:+ class +:+ dq +:+ ">"
  +:+ indent 12 +:+ "<strong>" +:+ name +:+ ":</strong> "
  +:+ indent 12 +:+ verdict
  +:+ indent 8 +:+ "</li>".

Definition batch_result_markup (message resultsList : string) : string :=
  indent 8 +:+ "<div class=" +:+ dq +:+ "horoscope-result" +:+ dq +:+ ">"
  +:+ indent 12 +:+ "<h3 style=" +:+ dq +:+ "color: #00ff41;" +:+ dq
    +:+ ">Batch ComfyUI Terminé !</h3>"
  +:+ indent 12 +:+ "<p>" +:+ message +:+ "</p>"
  +:+ indent 12 +:+ "<ul class=" +:+ dq +:+ "batch-results-list" +:+ dq +:+ ">"
    +:+ resultsList +:+ "</ul>"
  +:+ indent 8 +:+ "</div>".

(** The callback of [data.results.map]: the [<li>] of one item. *)
Definition batch_result_item (res : jsval) : completion string :=
  cbind (get res "success") (fun success =>
  cbind (get res "sign") (fun sign =>
  cbind (signName sign) (fun name =>
  cbind (get res "success") (fun success' =>
  cbind (if truthy success'
         then cbind (get res "result") (fun result =>
              cbind (get result "file_size") (fun file_size =>
              cbind (formatFileSize file_size) (fun size =>
              Normal ("Réussi (" +:+ size +:+ ")"))))
         else cbind (get res "error") (fun error =>
              cbind (ToString error) (fun reason =>
              Normal ("Échoué - " +:+ reason)))) (fun verdict =>
  Normal (batch_result_li (if truthy success then "success" else "error") name verdict)))))).

(** [createComfyUIBatchResultHTML(data)]. *)
Definition createComfyUIBatchResultHTML (data : jsval) : completion string :=
  cbind (get data "results") (fun results =>
  cbind (elements_of "data.results" "map" results) (fun items =>
  cbind (map_completion batch_result_item items) (fun entries =>
  let resultsList := String.concat EmptyString entries in
  cbind (get data "message") (fun message =>
  cbind (ToString message) (fun text =>
  Normal (batch_result_markup text resultsList)))))).

(** The template literal of [uploadBatchToYouTube]: the [<p>] of one item. *)
Definition upload_result_p (mark name verdict : string) : string :=
  "<p>" +:+ mark +:+ " " +:+ name +:+ ": " +:+ verdict +:+ "</p>".

(** The callback of [response.details.forEach]: the [<p>] appended for one
    item. *)
Definition upload_result_item (res : jsval) : completion string :=
  cbind (get res "success") (fun success =>
  cbind (get res "sign") (fun sign =>
  cbind (signName sign) (fun name =>
  cbind (get res "success") (fun success' =>
  cbind (if truthy success'
         then Normal "OK"
         else cbind (get res "error") ToString) (fun verdict =>
  Normal (upload_result_p (if truthy success then "✅" else "❌") name verdict)))))).

Definition upload_results_header : string :=
  "<div class=" +:+ dq +:+ "horoscope-result" +:+ dq
    +:+ "><h3>Résultats de l'Upload Batch</h3>".

(** The markup that [uploadBatchToYouTube] builds in [resultsHtml], one
    [+=] per item. *)
Definition upload_results_html (response : jsval) : completion string :=
  cbind (get response "details") (fun details =>
  cbind (elements_of "response.details" "forEach" details) (fun items =>
  cbind (map_completion upload_result_item items) (fun entries =>
  Normal (fold_left String.append entries upload_results_header +:+ "</div>")))).

(** [confirm(text)] and [alert(text)]. *)
Definition confirm (text : string) : M bool :=
  let answer := confirm_answer env text in
  record (Confirm text answer) ;;; ret answer.

Definition alert (text : string) : M unit := record (Alert text).

(** Reading [.value] of what [getElementById] returned. *)
Definition read_value (target : option string) : M string :=
  fun w => match target with
           | Some id =>
               (match document w !! id with
                | Some e => Normal (value e)
                | None => Normal EmptyString
                end, w)
           | None => (Throw (TypeError "Cannot read properties of null (reading 'value')"), w)
           end.

Definition post_json (payload : jsval) : option request :=
  Some (Request "POST" [("Content-Type", "application/json")] (Some payload)).

(** [generateComfyUIBatchVideos()]. *)
Definition generateComfyUIBatchVideos : M jsval :=
  let! confirmed := confirm ("Lancer la génération en lot pour les 12 signes ?" +:+ nl
                               +:+ "Le processus peut prendre plus de 20 minutes.") in
  if negb confirmed then ret VUndefined else
  let! formatSelect := getElementById "video-format" in
  let! format := read_value formatSelect in
  let! resultDiv := getElementById "video-result" in
  let! response := makeApiRequest "/api/comfyui/generate_batch"
                     (post_json (VObj [("format", VStr format)]))
                     "video-loading" "video-result" in
  (if truthy response then
     let! html := lift (createComfyUIBatchResultHTML response) in
     assign resultDiv "innerHTML" (set_innerHTML html)
   else ret tt) ;;;
  ret VUndefined.

(** [generateFullMontage()]. *)
Definition generateFullMontage : M jsval :=
  let! confirmed := confirm ("Lancer le workflow complet pour les 12 signes ?" +:+ nl
                               +:+ "Le processus peut prendre plus de 30 minutes.") in
  if negb confirmed then ret VUndefined else
  let! resultDiv := getElementById "video-result" in
  let! formatSelect := getElementById "video-format" in
  let! format := read_value formatSelect in
  let! response := makeApiRequest "/api/workflow/batch_complete_generation"
                     (post_json (VObj [("format", VStr (if String.eqb format EmptyString
                                                         then "youtube_short" else format));
                                       ("add_music", VBool true)]))
                     "video-loading" "video-result" in
  (if truthy response then
     let! summary := lift (get response "summary") in
     let! message := lift (get summary "message") in
     let! text := lift (ToString message) in
     assign resultDiv "innerHTML"
       (set_innerHTML ("<div class=" +:+ dq +:+ "horoscope-result" +:+ dq
                         +:+ "><h3 style=" +:+ dq +:+ "color: #00ff41;" +:+ dq
                         +:+ ">✅ Workflow de Lot Terminé !</h3><p>" +:+ text +:+ "</p></div>"))
   else ret tt) ;;;
  ret VUndefined.

(** [uploadBatchToYouTube()]. *)
Definition uploadBatchToYouTube : M jsval :=
  let! confirmed := confirm "Uploader TOUTES les vidéos disponibles sur YouTube en mode PRIVÉ ?" in
  if negb confirmed then ret VUndefined else
  let! resultDiv := getElementById "video-result" in
  let! response := makeApiRequest "/api/youtube/upload_batch"
                     (post_json (VObj [("privacy", VStr "private")]))
                     "video-loading" "video-result" in
  (if truthy response then
     let! summary := lift (get response "summary") in
     let! text := lift (ToString summary) in
     alert ("Batch Upload terminé: " +:+ text) ;;;
     let! resultsHtml := lift (upload_results_html response) in
     assign resultDiv "innerHTML" (set_innerHTML resultsHtml)
   else ret tt) ;;;
  ret VUndefined.

(** ** The rest of the script

    [checkSystemHealth], [changeModel] and its timer, the flows that work on
    one sign ([generateIndividualHoroscope], [generateComfyUIVideo],
    [generateSingleSignMontage], the two uploads of the current sign) with
    their renderers, [getAstralContext] and the two status probes.

    The functions below read further keys of the payloads ([status],
    [connected], [server], [available_formats], [workflow_ready],
    [youtube_connected], [channel_info], [title], [subscribers],
    [available_videos], [total_available], [date], [horoscope],
    [sign_name], [video_path], [video_url], [workflow_results],
    [synchronized_video], [transcription], [duration],
    [influential_planets], [state], [influence], [lunar_phase], [season],
    [seasonal_energy]); none of them is inherited from a built-in prototype
    either. *)

(** [parseInt] of the language, [None] standing for [NaN]. *)
Variable parseInt : string -> option Z.

Definition signSymbols : list (string * string) :=
  [("aries", "♈"); ("taurus", "♉"); ("gemini", "♊"); ("cancer", "♋");
   ("leo", "♌"); ("virgo", "♍"); ("libra", "♎"); ("scorpio", "♏");
   ("sagittarius", "♐"); ("capricorn", "♑"); ("aquarius", "♒"); ("pisces", "♓")].

(** [`${table[key]}`] for a key that is a string: the entry, or
    [undefined]. *)
Definition table_text (table : list (string * string)) (key : string) : string :=
  match table_lookup table key with
  | Some entry => entry
  | None => "undefined"
  end.

(** [checkSystemHealth()]. *)
Definition checkSystemHealth : M jsval :=
  try_catch
    (let! fetching := fetch "/health" None in
     let! response := await fetching in
     let! parsing := json response in
     let! data := await parsing in
     let! health := lift (get data "status") in
     ret (VBool (strict_eq health (VStr "healthy"))))
    (fun error =>
       record (ConsoleError "Erreur lors de la vérification système:" error) ;;;
       ret (VBool false)).

(** *** IV. The Ollama models, continued *)

(** [localStorage.setItem(key, value)]. *)
Definition setItem (key value : string) : M unit :=
  fun w => (Normal tt,
            World (document w) (<[key := value]> (localStorage w)) (appState w)
                  (clock w) (journal w)).

(** [s.split(':')[0]]: what comes before the first colon. *)
Fixpoint before_colon (s : string) : string :=
  match s with
  | EmptyString => EmptyString
  | String c rest => if Ascii.eqb c (Ascii.ascii_of_nat 58) then EmptyString else String c (before_colon rest)
  end.

(** [`${appState.availableModels.length} modèles`]. *)
Definition models_count : M string :=
  fun w => (cbind (get (availableModels (appState w)) "length") (fun len =>
            cbind (ToString len) (fun count => Normal (count +:+ " modèles"))), w).

(** The callback that [changeModel] hands to [setTimeout]. *)
Definition changeModel_timeout (statusDot statusText : option string) : M unit :=
  invoke statusDot "classList" (classList_remove "confirming") ;;;
  let! text := models_count in
  assign statusText "textContent" (set_textContent text).

(** [changeModel()]; the callback runs 1500 ms later, on its own. *)
Definition changeModel : M jsval :=
  let! modelSelect := getElementById "global-model-select" in
  let! chosen := read_value modelSelect in
  set_selectedModel (VStr chosen) ;;;
  setItem "selectedModel" chosen ;;;
  let! statusDot := getElementById "model-status-dot" in
  let! statusText := getElementById "model-status-text" in
  assign statusDot "className" (set_className ["status-dot"; "connected"; "confirming"]) ;;;
  assign statusText "textContent" (set_textContent ("Activé : " +:+ before_colon chosen)) ;;;
  record (SetTimeout 1500) ;;;
  ret VUndefined.

(** The timer of [changeModel] expires: [ms] milliseconds pass. *)
Definition elapse (ms : nat) : M unit :=
  fun w => (Normal tt,
            World (document w) (localStorage w) (appState w) (clock w + ms)%nat (journal w)).

(** *** V. Horoscopes *)

(** [Object.keys(signNames).find(key => signNames[key] === sign)]. *)
Fixpoint find_sign_key (table : list (string * string)) (sign : jsval) : option string :=
  match table with
  | [] => None
  | (key, name) :: rest =>
      if strict_eq (VStr name) sign then Some key else find_sign_key rest sign
  end.

(** [signSymbols[signKey] || '✨'], where [signKey] may be [undefined]. *)
Definition sign_icon (signKey : option string) : string :=
  match signKey with
  | Some key =>
      match table_lookup signSymbols key with
      | Some symbol => if truthy (VStr symbol) then symbol else "✨"
      | None => "✨"
      end
  | None => "✨"
  end.

(** [createHoroscopeResultHTML(horoscope)]. *)
Definition createHoroscopeResultHTML (horoscope : jsval) : completion string :=
  cbind (get horoscope "sign") (fun sign =>
  let signKey := find_sign_key signNames sign in
  cbind (ToString sign) (fun sign_text =>
  cbind (get horoscope "date") (fun date =>
  cbind (ToString date) (fun date_text =>
  cbind (get horoscope "horoscope") (fun body_value =>
  cbind (ToString body_value) (fun body_text =>
  Normal (indent 8 +:+ "<div class=" +:+ dq +:+ "horoscope-result" +:+ dq +:+ ">"
          +:+ indent 12 +:+ "<div class=" +:+ dq +:+ "horoscope-header" +:+ dq +:+ ">"
          +:+ indent 16 +:+ "<div class=" +:+ dq +:+ "sign-icon" +:+ dq +:+ ">"
            +:+ sign_icon signKey +:+ "</div>"
          +:+ indent 16 +:+ "<div class=" +:+ dq +:+ "horoscope-meta" +:+ dq +:+ ">"
          +:+ indent 20 +:+ "<h3>" +:+ sign_text +:+ "</h3>"
          +:+ indent 20 +:+ "<p>📅 " +:+ date_text +:+ "</p>"
          +:+ indent 16 +:+ "</div>"
          +:+ indent 12 +:+ "</div>"
          +:+ indent 12 +:+ "<div class=" +:+ dq +:+ "horoscope-text" +:+ dq +:+ ">"
            +:+ body_text +:+ "</div>"
          +:+ indent 8 +:+ "</div>"
          +:+ indent 4))))))).

(** [generateIndividualHoroscope()]. *)
Definition generateIndividualHoroscope : M jsval :=
  let! signSelect := getElementById "sign-select" in
  let! sign := read_value signSelect in
  let! dateInput := getElementById "date-input" in
  let! date := read_value dateInput in
  if negb (truthy (VStr sign)) then
    alert "Veuillez sélectionner un signe astrologique." ;;; ret VUndefined
  else
  let! response := makeApiRequest "/api/generate_single_horoscope"
                     (post_json (VObj [("sign", VStr sign); ("date", VStr date)]))
                     "individual-loading" "individual-result" in
  (if truthy response then
     let! target := getElementById "individual-result" in
     let! result := lift (get response "result") in
     let! html := lift (createHoroscopeResultHTML result) in
     assign target "innerHTML" (set_innerHTML html)
   else ret tt) ;;;
  ret VUndefined.

(** The callback of [context.influential_planets.map]: the [<li>] of one
    planet. *)
Definition planet_li (p : jsval) : completion string :=
  cbind (get p "name") (fun name =>
  cbind (ToString name) (fun name_text =>
  cbind (get p "state") (fun state =>
  cbind (ToString state) (fun state_text =>
  cbind (get p "influence") (fun influence =>
  cbind (ToString influence) (fun influence_text =>
  Normal ("<li><strong>" +:+ name_text +:+ "</strong> (" +:+ state_text +:+ "): "
          +:+ influence_text +:+ "</li>"))))))).

(** The template literal of [getAstralContext]. *)
Definition astral_context_markup (date lunar_phase season seasonal_energy planetsHtml : string)
    : string :=
  indent 12 +:+ "<div class=" +:+ dq +:+ "horoscope-result" +:+ dq +:+ ">"
  +:+ indent 16 +:+ "<div class=" +:+ dq +:+ "horoscope-header" +:+ dq +:+ ">"
  +:+ indent 20 +:+ "<div class=" +:+ dq +:+ "sign-icon" +:+ dq +:+ ">🌌</div>"
  +:+ indent 20 +:+ "<div class=" +:+ dq +:+ "horoscope-meta" +:+ dq
    +:+ "><h3>Contexte Astral du " +:+ date +:+ "</h3></div>"
  +:+ indent 16 +:+ "</div>"
  +:+ indent 16 +:+ "<div class=" +:+ dq +:+ "horoscope-text" +:+ dq +:+ ">"
  +:+ indent 20 +:+ "<h4>🌙 Phase Lunaire</h4><p>" +:+ lunar_phase +:+ "</p>"
  +:+ indent 20 +:+ "<h4>🍂 Saison</h4><p>" +:+ season +:+ " - " +:+ seasonal_energy +:+ "</p>"
  +:+ indent 20 +:+ "<h4>🪐 Planètes Influentes</h4><ul>" +:+ planetsHtml +:+ "</ul>"
  +:+ indent 16 +:+ "</div>"
  +:+ indent 12 +:+ "</div>".

(** The markup that [getAstralContext] builds from the payload. *)
Definition astral_context_result (response : jsval) : completion string :=
  cbind (get response "result") (fun context =>
  cbind (get context "influential_planets") (fun planets =>
  cbind (elements_of "context.influential_planets" "map" planets) (fun items =>
  cbind (map_completion planet_li items) (fun entries =>
  let planetsHtml := String.concat EmptyString entries in
  cbind (get context "date") (fun date =>
  cbind (ToString date) (fun date_text =>
  cbind (get context "lunar_phase") (fun lunar_phase =>
  cbind (ToString lunar_phase) (fun lunar_phase_text =>
  cbind (get context "season") (fun season =>
  cbind (ToString season) (fun season_text =>
  cbind (get context "seasonal_energy") (fun seasonal_energy =>
  cbind (ToString seasonal_energy) (fun seasonal_energy_text =>
  Normal (astral_context_markup date_text lunar_phase_text season_text seasonal_energy_text
            planetsHtml))))))))))))).

(** [getAstralContext()]. *)
Definition getAstralContext : M jsval :=
  let! dateInput := getElementById "context-date-input" in
  let! date := read_value dateInput in
  let! resultDiv := getElementById "context-result" in
  let! response := makeApiRequest "/api/get_astral_context"
                     (post_json (VObj [("date", VStr date)]))
                     "context-loading" "context-result" in
  (if truthy response then
     let! html := lift (astral_context_result response) in
     assign resultDiv "innerHTML" (set_innerHTML html)
   else ret tt) ;;;
  ret VUndefined.

(** *** VII. The video workflows, continued *)

(** [s.split('/').pop()] on a string: what comes after the last slash. *)
Fixpoint last_segment (s current : string) : string :=
  match s with
  | EmptyString => current
  | String c rest =>
      if Ascii.eqb c (Ascii.ascii_of_nat 47) then last_segment rest EmptyString
      else last_segment rest (current +:+ String c EmptyString)
  end.

(** [path.split('/').pop()], for what a payload may hold in place of the
    string. *)
Definition file_name (path : jsval) : completion string :=
  match path with
  | VStr s => Normal (last_segment s EmptyString)
  | VUndefined =>
      Throw (TypeError "Cannot read properties of undefined (reading 'split')")
  | VNull => Throw (TypeError "Cannot read properties of null (reading 'split')")
  | _ => Throw (TypeError "result.video_path.split is not a function")
  end.

(** [createComfyUIVideoResultHTML(result)]. *)
Definition createComfyUIVideoResultHTML (result : jsval) : completion string :=
  cbind (get result "sign_name") (fun sign_name =>
  cbind (ToString sign_name) (fun sign_name_text =>
  cbind (get result "sign") (fun sign =>
  cbind (ToString sign) (fun key =>
  cbind (get result "video_path") (fun video_path =>
  cbind (ToString video_path) (fun path_text =>
  cbind (get result "file_size") (fun file_size =>
  cbind (formatFileSize file_size) (fun size =>
  cbind (get result "video_path") (fun video_path' =>
  cbind (file_name video_path') (fun name =>
  Normal (indent 8 +:+ "<div class=" +:+ dq +:+ "video-preview" +:+ dq +:+ ">"
          +:+ indent 12 +:+ "<h3 style=" +:+ dq +:+ "color: #FFD700;" +:+ dq
            +:+ ">🎬 Vidéo générée avec ComfyUI !</h3>"
          +:+ indent 12 +:+ "<p><strong>Signe:</strong> " +:+ sign_name_text +:+ " "
            +:+ table_text signSymbols key +:+ "</p>"
          +:+ indent 12 +:+ "<p><strong>Chemin:</strong> " +:+ path_text +:+ "</p>"
          +:+ indent 12 +:+ "<p><strong>Taille:</strong> " +:+ size +:+ "</p>"
          +:+ indent 12 +:+ "<div class=" +:+ dq +:+ "video-actions" +:+ dq +:+ ">"
          +:+ indent 16 +:+ "<a href=" +:+ dq +:+ "/api/comfyui/download_video/" +:+ name
            +:+ dq +:+ " download class=" +:+ dq +:+ "astro-button" +:+ dq
            +:+ ">📥 Télécharger</a>"
          +:+ indent 12 +:+ "</div>"
          +:+ indent 8 +:+ "</div>"))))))))))).

(** [generateComfyUIVideo()]; a seed that [parseInt] does not read is
    [NaN], which [JSON.stringify] writes as [null]. *)
Definition generateComfyUIVideo : M jsval :=
  let! signSelect := getElementById "video-sign" in
  let! sign := read_value signSelect in
  let! formatSelect := getElementById "video-format" in
  let! format := read_value formatSelect in
  let! promptInput := getElementById "custom-prompt" in
  let! customPrompt := read_value promptInput in
  let! seedInput := getElementById "seed-input" in
  let! seed := read_value seedInput in
  if negb (truthy (VStr sign)) then
    alert "Veuillez sélectionner un signe astrologique." ;;; ret VUndefined
  else
  let! resultDiv := getElementById "video-result" in
  let! response := makeApiRequest "/api/comfyui/generate_video"
                     (post_json
                        (VObj [("sign", VStr sign);
                               ("format", VStr format);
                               ("custom_prompt",
                                if truthy (VStr customPrompt) then VStr customPrompt else VNull);
                               ("seed",
                                if truthy (VStr seed)
                                then match parseInt seed with
                                     | Some n => VNum n
                                     | None => VNull
                                     end
                                else VNull)]))
                     "video-loading" "video-result" in
  (if truthy response then
     let! result := lift (get response "result") in
     let! html := lift (createComfyUIVideoResultHTML result) in
     assign resultDiv "innerHTML" (set_innerHTML html)
   else ret tt) ;;;
  ret VUndefined.

(** [x.toFixed(1)] on what a payload may hold: an integer prints with one
    zero decimal. *)
Definition toFixed_1 (x : jsval) : completion string :=
  match x with
  | VNum n => Normal (pretty n +:+ ".0")
  | VUndefined =>
      Throw (TypeError "Cannot read properties of undefined (reading 'toFixed')")
  | VNull => Throw (TypeError "Cannot read properties of null (reading 'toFixed')")
  | _ => Throw (TypeError "finalResult.transcription.duration.toFixed is not a function")
  end.

(** [response.workflow_results?.synchronized_video]. *)
Definition synchronized_video (response : jsval) : completion jsval :=
  cbind (get response "workflow_results") (fun workflow_results =>
    match workflow_results with
    | VUndefined | VNull => Normal VUndefined
    | _ => get workflow_results "synchronized_video"
    end).

(** The markup that [generateSingleSignMontage] builds from the payload,
    for the sign that was selected. *)
Definition montage_result (sign : string) (response : jsval) : completion string :=
  cbind (synchronized_video response) (fun finalResult =>
  cbind (get finalResult "video_path") (fun video_path =>
  cbind (ToString video_path) (fun path_text =>
  cbind (get finalResult "transcription") (fun transcription =>
  cbind (get transcription "duration") (fun duration =>
  cbind (toFixed_1 duration) (fun duration_text =>
  cbind (get finalResult "file_size") (fun file_size =>
  cbind (formatFileSize file_size) (fun size =>
  Normal (indent 12 +:+ "<div class=" +:+ dq +:+ "horoscope-result" +:+ dq +:+ ">"
          +:+ indent 16 +:+ "<h3 style=" +:+ dq +:+ "color: #00ff41;" +:+ dq
            +:+ ">✅ Workflow pour " +:+ table_text signNames sign +:+ " terminé !</h3>"
          +:+ indent 16 +:+ "<p><strong>Chemin :</strong> " +:+ path_text +:+ "</p>"
          +:+ indent 16 +:+ "<p><strong>Durée :</strong> " +:+ duration_text +:+ "s</p>"
          +:+ indent 16 +:+ "<p><strong>Taille :</strong> " +:+ size +:+ "</p>"
          +:+ indent 12 +:+ "</div>"))))))))).

(** [generateSingleSignMontage()]. *)
Definition generateSingleSignMontage : M jsval :=
  let! signSelect := getElementById "video-sign" in
  let! sign := read_value signSelect in
  if negb (truthy (VStr sign)) then
    alert "Veuillez d'abord sélectionner un signe astrologique." ;;; ret VUndefined
  else
  let! confirmed := confirm ("Lancer le workflow complet pour " +:+ table_text signNames sign
                               +:+ " ?" +:+ nl +:+ "Cela peut prendre quelques minutes.") in
  if negb confirmed then ret VUndefined else
  let! resultDiv := getElementById "video-result" in
  let! formatSelect := getElementById "video-format" in
  let! format := read_value formatSelect in
  let! response := makeApiRequest "/api/workflow/complete_sign_generation"
                     (post_json (VObj [("sign", VStr sign);
                                       ("format", VStr (if String.eqb format EmptyString
                                                         then "test" else format));
                                       ("add_music", VBool true)]))
                     "video-loading" "video-result" in
  (if truthy response then
     let! html := lift (montage_result sign response) in
     assign resultDiv "innerHTML" (set_innerHTML html)
   else ret tt) ;;;
  ret VUndefined.

(** [`${a ? yes : no}`]. *)
Definition either (a : jsval) (yes no : string) : string := if truthy a then yes else no.

(** The message that [checkComfyUIStatus] builds. *)
Definition comfyui_status_message (data : jsval) : completion string :=
  cbind (get data "connected") (fun connected =>
  cbind (get data "server") (fun server =>
  cbind (ToString server) (fun server_text =>
  cbind (get data "available_formats") (fun available_formats =>
  cbind (get available_formats "length") (fun len =>
  cbind (ToString len) (fun count =>
  cbind (get data "workflow_ready") (fun workflow_ready =>
  Normal ("🎬 STATUT COMFYUI" +:+ nl +:+ nl
          +:+ "Statut: " +:+ either connected "✅ Connecté" "❌ Déconnecté" +:+ nl
          +:+ "Serveur: " +:+ server_text +:+ nl
          +:+ "Formats: " +:+ count +:+ " disponibles" +:+ nl
          +:+ "Workflow: " +:+ either workflow_ready "Prêt" "Non prêt")))))))).

(** [new Error(data.error)]: without an argument the message is empty. *)
Definition reported_error (data : jsval) : completion exn :=
  cbind (get data "error") (fun error =>
    match error with
    | VUndefined => Normal (Error EmptyString)
    | _ => cbind (ToString error) (fun message => Normal (Error message))
    end).

(** [checkComfyUIStatus()]. *)
Definition checkComfyUIStatus : M jsval :=
  try_catch
    (let! fetching := fetch "/api/comfyui/status" None in
     let! response := await fetching in
     let! parsing := json response in
     let! data := await parsing in
     let! success := lift (get data "success") in
     if negb (truthy success)
     then let! error := lift (reported_error data) in throw error
     else
       let! message := lift (comfyui_status_message data) in
       alert message)
    (fun error => alert ("❌ Erreur: " +:+ exn_message error)) ;;;
  ret VUndefined.

(** The message that [checkYouTubeStatus] builds. *)
Definition youtube_status_message (data : jsval) : completion string :=
  cbind (get data "channel_info") (fun channel =>
  cbind (get data "youtube_connected") (fun connected =>
  cbind (get channel "title") (fun title =>
  cbind (ToString title) (fun title_text =>
  cbind (get channel "subscribers") (fun subscribers =>
  cbind (ToString subscribers) (fun subscribers_text =>
  cbind (get data "available_videos") (fun available_videos =>
  cbind (get available_videos "total_available") (fun total =>
  cbind (ToString total) (fun total_text =>
  Normal ("📤 STATUT YOUTUBE" +:+ nl +:+ nl
          +:+ "Statut: " +:+ either connected "✅ Connecté" "❌ Déconnecté" +:+ nl
          +:+ "Chaîne: " +:+ title_text +:+ nl
          +:+ "Abonnés: " +:+ subscribers_text +:+ nl
          +:+ "Vidéos disponibles: " +:+ total_text)))))))))).

(** [checkYouTubeStatus()]. *)
Definition checkYouTubeStatus : M jsval :=
  try_catch
    (let! fetching := fetch "/api/youtube/status" None in
     let! response := await fetching in
     let! parsing := json response in
     let! data := await parsing in
     let! success := lift (get data "success") in
     if negb (truthy success)
     then let! error := lift (reported_error data) in throw error
     else
       let! message := lift (youtube_status_message data) in
       alert message)
    (fun error => alert ("❌ Erreur: " +:+ exn_message error)) ;;;
  ret VUndefined.

(** [uploadCurrentSignToYouTube()]. *)
Definition uploadCurrentSignToYouTube : M jsval :=
  let! signSelect := getElementById "video-sign" in
  let! sign := read_value signSelect in
  if negb (truthy (VStr sign)) then
    alert "Veuillez sélectionner un signe astrologique." ;;; ret VUndefined
  else
  let! confirmed := confirm ("Uploader la vidéo de " +:+ table_text signNames sign
                               +:+ " sur YouTube en mode PRIVÉ ?") in
  if negb confirmed then ret VUndefined else
  let! resultDiv := getElementById "video-result" in
  let! response := makeApiRequest ("/api/youtube/upload_sign/" +:+ sign)
                     (post_json (VObj [("privacy", VStr "private")]))
                     "video-loading" "video-result" in
  (if truthy response then
     let! title := lift (get response "title") in
     let! title_text := lift (ToString title) in
     alert ("✅ Upload réussi !" +:+ nl +:+ nl +:+ "Titre: " +:+ title_text +:+ nl
              +:+ "Consultez YouTube Studio pour publier la vidéo.") ;;;
     let! title' := lift (get response "title") in
     let! title_text' := lift (ToString title') in
     let! video_url := lift (get response "video_url") in
     let! url_text := lift (ToString video_url) in
     assign resultDiv "innerHTML"
       (set_innerHTML
          ("<div class=" +:+ dq +:+ "horoscope-result" +:+ dq +:+ ">"
           +:+ indent 12 +:+ "<h3 style=" +:+ dq +:+ "color: #00ff41;" +:+ dq
             +:+ ">✅ Vidéo uploadée !</h3>"
           +:+ indent 12 +:+ "<p><strong>Titre :</strong> " +:+ title_text' +:+ "</p>"
           +:+ indent 12 +:+ "<p><a href=" +:+ dq +:+ url_text +:+ dq +:+ " target=" +:+ dq
             +:+ "_blank" +:+ dq +:+ ">Voir sur YouTube</a></p>"
           +:+ indent 8 +:+ "</div>"))
   else ret tt) ;;;
  ret VUndefined.

(** [uploadCurrentSignToTikTok()]; the request has no body. *)
Definition uploadCurrentSignToTikTok : M jsval :=
  let! signSelect := getElementById "video-sign" in
  let! sign := read_value signSelect in
  if negb (truthy (VStr sign)) then
    alert "Veuillez sélectionner un signe astrologique." ;;; ret VUndefined
  else
  let! confirmed := confirm ("Uploader la vidéo de " +:+ table_text signNames sign
                               +:+ " sur TikTok ?") in
  if negb confirmed then ret VUndefined else
  let! resultDiv := getElementById "video-result" in
  let! response := makeApiRequest ("/api/tiktok/upload_sign/" +:+ sign)
                     (Some (Request "POST" [("Content-Type", "application/json")] None))
                     "video-loading" "video-result" in
  (if truthy response then
     let! title := lift (get response "title") in
     let! title_text := lift (ToString title) in
     alert ("✅ Upload TikTok réussi !" +:+ nl +:+ "Titre: " +:+ title_text) ;;;
     let! title' := lift (get response "title") in
     let! title_text' := lift (ToString title') in
     assign resultDiv "innerHTML"
       (set_innerHTML
          ("<div class=" +:+ dq +:+ "horoscope-result" +:+ dq +:+ ">"
           +:+ indent 12 +:+ "<h3 style=" +:+ dq +:+ "color: #00ff41;" +:+ dq
             +:+ ">✅ Vidéo uploadée sur TikTok !</h3>"
           +:+ indent 12 +:+ "<p><strong>Titre :</strong> " +:+ title_text' +:+ "</p>"
           +:+ indent 8 +:+ "</div>"))
   else ret tt) ;;;
  ret VUndefined.

End Script.

(** * The vocabulary of the statements *)

(** ** Runs, journals and frames *)

Definition stamp (t : nat) (evs : list event) : list (nat * event) := map (pair t) evs.

(** The journal entry of a write to [id], if the page has that element. *)
Definition written (page : gmap string element) (id : string) (f : element -> element)
    : list event :=
  match page !! id with
  | Some e => [Write id (f e)]
  | None => []
  end.

(** The effects that running [m] from [w] adds to the journal. *)
Definition effects {A} (m : M A) (w : world) : list (nat * event) :=
  drop (length (journal w)) (journal (snd (m w))).

(** The suspension points among some effects: when the function was
    parked, and the page that other tasks found. *)
Definition suspensions (evs : list (nat * event)) : list (nat * gmap string element) :=
  omap (fun entry => match snd entry with
                     | Suspended page => Some (fst entry, page)
                     | _ => None
                     end) evs.

Definition indicator_active (loadingId : string) (page : gmap string element) : Prop :=
  exists el, page !! loadingId = Some el /\ "active" ∈ classList el.

Definition target_blank (resultId : string) (page : gmap string element) : Prop :=
  exists el, page !! resultId = Some el /\ content el = [].

(** [m] keeps [appState] and [localStorage] as they are, and neither adds
    an element to the page nor removes one. *)
Definition keeps_stores {A} (m : M A) : Prop :=
  forall w,
    appState (snd (m w)) = appState w
    /\ localStorage (snd (m w)) = localStorage w
    /\ forall id, document (snd (m w)) !! id = None <-> document w !! id = None.

(** ** The envelope: [makeApiRequest] *)

(** How the [try] block of [makeApiRequest] completes, given the reply of
    the backend. *)
Definition envelope_completion (r : reply) : completion jsval :=
  cbind (outcome r) (fun apiResponse =>
  cbind (json_result apiResponse) (fun data =>
  cbind (rejected_by_envelope apiResponse data) (fun failed =>
  if (failed : bool)
  then cbind (envelope_error apiResponse data) (fun error => Throw error)
  else Normal data))).

(** The instant, counted from the call, at which the first [await] resumes,
    and the one at which the returned promise settles. *)
Definition envelope_resumes (r : reply) : nat :=
  match outcome r with
  | Normal _ => Nat.max (latency r) floor
  | Throw _ => latency r
  end.

Definition envelope_duration (r : reply) : nat :=
  match outcome r with
  | Normal apiResponse => (Nat.max (latency r) floor + json_latency apiResponse)%nat
  | Throw _ => latency r
  end.

(** The page while the request is in flight, and once the promise has
    settled. *)
Definition page_in_flight (loadingId resultId : string) (page : gmap string element)
    : gmap string element :=
  alter (set_innerHTML EmptyString) resultId (alter (classList_add "active") loadingId page).

Definition page_reported (resultId : string) (verdict : completion jsval)
    (page : gmap string element) : gmap string element :=
  match verdict with
  | Normal _ => page
  | Throw error => alter (set_innerHTML (error_markup (exn_message error))) resultId page
  end.

Definition page_settled (loadingId resultId : string) (verdict : completion jsval)
    (page : gmap string element) : gmap string element :=
  alter (classList_remove "active") loadingId
    (page_reported resultId verdict (page_in_flight loadingId resultId page)).

(** The effects of one call, in program order. *)
Definition envelope_journal (endpoint : string) (options : option request)
    (loadingId resultId : string) (r : reply) (t0 : nat) (page : gmap string element)
    : list (nat * event) :=
  let verdict := envelope_completion r in
  let flying := page_in_flight loadingId resultId page in
  stamp t0 ([SetTimeout floor; Fetch endpoint options]
            ++ written page loadingId (classList_add "active")
            ++ written (alter (classList_add "active") loadingId page) resultId
                 (set_innerHTML EmptyString)
            ++ [Suspended flying])
  ++ match outcome r with
     | Normal _ => [((t0 + envelope_resumes r)%nat, Suspended flying)]
     | Throw _ => []
     end
  ++ stamp (t0 + envelope_duration r)
       (match verdict with
        | Normal _ => []
        | Throw error =>
            ConsoleError ("Erreur API pour " +:+ endpoint +:+ ":") error
              :: written flying resultId (set_innerHTML (error_markup (exn_message error)))
        end
        ++ written (page_reported resultId verdict flying) loadingId (classList_remove "active")).

(** The response is confirmed successful: the status is ok and the payload
    has a truthy [success]. *)
Definition confirmed_success (r : reply) : option jsval :=
  match outcome r with
  | Normal apiResponse =>
      match json_result apiResponse with
      | Normal data =>
          match get data "success" with
          | Normal success => if ok apiResponse && truthy success then Some data else None
          | Throw _ => None
          end
      | Throw _ => None
      end
  | Throw _ => None
  end.

(** The success rule in the words of the specification:
    [responseOk AND payload.success === true]. *)
Definition strictly_successful (apiResponse : response) (data : jsval) : bool :=
  ok apiResponse
  && match get data "success" with
     | Normal success => strict_eq success (VBool true)
     | Throw _ => false
     end.

(** The ordering in the words of the specification: whenever the journal
    has a [Fetch], an earlier entry has made the indicator active. *)
Definition active_before_dispatch (loadingId : string) (evs : list (nat * event)) : Prop :=
  forall i t endpoint options,
    evs !! i = Some (t, Fetch endpoint options) ->
    exists k t' el, (k < i)%nat /\ evs !! k = Some (t', Write loadingId el)
                    /\ "active" ∈ classList el.

(** ** The models: [loadAvailableModels] *)

(** How the test at the head of the [try] block comes out, given the reply
    of the backend: [Normal true] when the models are taken up, anything
    else when the refresh fails before having changed anything. *)
Definition models_verdict (StringToNumber : string -> option Z) (r : reply)
    : completion bool :=
  cbind (outcome r) (fun response =>
  cbind (json_result response) (fun data =>
  models_received StringToNumber data)).

(** [localStorage.getItem('selectedModel') || appState.selectedModel]. *)
Definition persisted_or_previous (w : world) : jsval :=
  match localStorage w !! "selectedModel" with
  | Some s => if truthy (VStr s) then VStr s else selectedModel (appState w)
  | None => selectedModel (appState w)
  end.

(** The [try] block of [loadAvailableModels] ran to its end from [w],
    leaving [w']. *)
Definition refresh_succeeds (StringToNumber : string -> option Z) (env : environment)
    (w w' : world) : Prop :=
  refresh_models StringToNumber env
    (handle (document w) "model-status-dot")
    (handle (document w) "model-status-text")
    (handle (document w) "global-model-select") w = (Normal tt, w').

(** The names of the models of a list, as [m.name] reads them. *)
Definition named (models : list jsval) (name : jsval) : Prop :=
  exists m, m ∈ models /\ get m "name" = Normal name.

(** The saved name appears in the new list, as [===] finds it. *)
Definition appears (savedModel : jsval) (models : list jsval) : Prop :=
  exists name, named models name /\ strict_eq name savedModel = true.

(** A session of refreshes, one reply of the backend after the other. *)
Fixpoint refreshes (StringToNumber : string -> option Z) (envs : list environment)
    (w : world) : world :=
  match envs with
  | [] => w
  | env :: later =>
      refreshes StringToNumber later (snd (loadAvailableModels StringToNumber env w))
  end.

(** ** The batch workflows *)

Inductive batch_workflow : Type := VideoBatch | FullWorkflow | BatchUpload.

Definition launch (StringToNumber : string -> option Z) (env : environment)
    (b : batch_workflow) : M jsval :=
  match b with
  | VideoBatch => generateComfyUIBatchVideos StringToNumber env
  | FullWorkflow => generateFullMontage env
  | BatchUpload => uploadBatchToYouTube env
  end.

(** The question that each workflow puts to the user. *)
Definition question (b : batch_workflow) : string :=
  match b with
  | VideoBatch => "Lancer la génération en lot pour les 12 signes ?" +:+ nl
                    +:+ "Le processus peut prendre plus de 20 minutes."
  | FullWorkflow => "Lancer le workflow complet pour les 12 signes ?" +:+ nl
                      +:+ "Le processus peut prendre plus de 30 minutes."
  | BatchUpload => "Uploader TOUTES les vidéos disponibles sur YouTube en mode PRIVÉ ?"
  end.

(** [part] occurs in [whole], as a run of consecutive characters. *)
Definition occurs (part whole : string) : Prop :=
  exists before after, whole = before +:+ part +:+ after.

(** ** Sample pages, backends and users *)

(** A page with a spinner and a result target, at rest. *)
Definition video_page : gmap string element :=
  <["video-loading" := Element ["loading"] [] EmptyString]>
    (<["video-result" := Element [] [Markup "<p>hier</p>"] EmptyString]> ∅).

Definition at_rest : world := World video_page ∅ initialAppState 0 [].

(** The backend is down: the connection is refused after 10 ms. *)
Definition backend_down : environment :=
  Environment (fun _ _ => Reply 10 (Throw (TypeError "Failed to fetch"))) (fun _ => true).

(** The backend answers after [ms] milliseconds with [status] and [data]. *)
Definition backend_answers (ms : nat) (status : Z) (data : jsval) : environment :=
  Environment (fun _ _ => Reply ms (Normal (Response status 0 (Normal data)))) (fun _ => true).

(** A page with the model selector and its status line, at start-up, and a
    backend whose Ollama lists the given models. *)
Definition models_page : gmap string element :=
  <["model-status-dot" := Element ["status-dot"] [] EmptyString]>
    (<["model-status-text" := Element [] [TextNode "Connexion..."] EmptyString]>
       (<["global-model-select" := Element [] [] EmptyString]> ∅)).

Definition at_start : world := World models_page ∅ initialAppState 0 [].

Definition ollama_lists (names : list string) : environment :=
  backend_answers 40 200
    (VObj [("success", VBool true);
           ("models", VArr (map (fun name => VObj [("name", VStr name)]) names))]).

(** A [StringToNumber] for the samples, none of which converts a string. *)
Definition no_number : string -> option Z := fun _ => None.

(** The report of a batch of two, the second of which failed. *)
Definition two_results : jsval :=
  VObj [("success", VBool true);
        ("message", VStr "1/2");
        ("results",
         VArr [VObj [("sign", VStr "aries"); ("success", VBool true);
                     ("result", VObj [("file_size", VNum 1536)])];
               VObj [("sign", VStr "leo"); ("success", VBool false);
                     ("error", VStr "timeout")]])].

(** The backend sends that report after 900 ms; the user says no to every
    question, or yes. *)
Definition user_declines : environment :=
  Environment (fun _ _ => Reply 900 (Normal (Response 200 0 (Normal two_results))))
              (fun _ => false).

Definition user_confirms : environment :=
  Environment (fun _ _ => Reply 900 (Normal (Response 200 0 (Normal two_results))))
              (fun _ => true).

(** The video section, with its format selector. *)
Definition video_section : world :=
  World (<["video-format" := Element [] [] "youtube_short"]> video_page) ∅ initialAppState 0 [].

(** ** The rest of the script *)

(** The integers that a number of the language holds exactly, and prints
    digit by digit. *)
Definition safe_integer (n : Z) : Prop := Z.abs n < 2 ^ 53.

(** The requests among some effects, and the messages shown by [alert]. *)
Definition dispatched (evs : list (nat * event)) : list (string * option request) :=
  omap (fun entry => match snd entry with
                     | Fetch endpoint options => Some (endpoint, options)
                     | _ => None
                     end) evs.

Definition alerts (evs : list (nat * event)) : list string :=
  omap (fun entry => match snd entry with
                     | Alert text => Some text
                     | _ => None
                     end) evs.

(** Running [m] only adds to the journal, and what it adds holds at most
    [n] requests. *)
Definition asks (n : nat) {A} (m : M A) : Prop :=
  forall w, exists evs,
    journal (snd (m w)) = journal w ++ evs /\ (length (dispatched evs) <= n)%nat.

(** The flows that work on one sign. *)
Inductive sign_flow : Type :=
| IndividualHoroscope | VideoClip | SignMontage | SignToYouTube | SignToTikTok.

Definition start (StringToNumber parseInt : string -> option Z) (env : environment)
    (f : sign_flow) : M jsval :=
  match f with
  | IndividualHoroscope => generateIndividualHoroscope env
  | VideoClip => generateComfyUIVideo StringToNumber env parseInt
  | SignMontage => generateSingleSignMontage StringToNumber env
  | SignToYouTube => uploadCurrentSignToYouTube env
  | SignToTikTok => uploadCurrentSignToTikTok env
  end.

(** The selector that holds the sign, and the fields that a flow reads
    before it looks at the sign. *)
Definition sign_selector (f : sign_flow) : string :=
  match f with
  | IndividualHoroscope => "sign-select"
  | _ => "video-sign"
  end.

Definition fields_read_first (f : sign_flow) : list string :=
  match f with
  | IndividualHoroscope => ["sign-select"; "date-input"]
  | VideoClip => ["video-sign"; "video-format"; "custom-prompt"; "seed-input"]
  | _ => ["video-sign"]
  end.

(** What the user is told when no sign is selected. *)
Definition reminder (f : sign_flow) : string :=
  match f with
  | SignMontage => "Veuillez d'abord sélectionner un signe astrologique."
  | _ => "Veuillez sélectionner un signe astrologique."
  end.

(** The question that a flow puts before it dispatches, if it puts one. *)
Definition sign_question (f : sign_flow) (sign : string) : option string :=
  match f with
  | SignMontage =>
      Some ("Lancer le workflow complet pour " +:+ table_text signNames sign
              +:+ " ?" +:+ nl +:+ "Cela peut prendre quelques minutes.")
  | SignToYouTube =>
      Some ("Uploader la vidéo de " +:+ table_text signNames sign
              +:+ " sur YouTube en mode PRIVÉ ?")
  | SignToTikTok =>
      Some ("Uploader la vidéo de " +:+ table_text signNames sign +:+ " sur TikTok ?")
  | _ => None
  end.

(** The fields that a flow reads before it dispatches, and the endpoint
    that it addresses. *)
Definition fields_before_dispatch (f : sign_flow) : list string :=
  match f with
  | SignMontage => ["video-sign"; "video-format"]
  | _ => fields_read_first f
  end.

Definition sign_endpoint (f : sign_flow) (sign : string) : string :=
  match f with
  | IndividualHoroscope => "/api/generate_single_horoscope"
  | VideoClip => "/api/comfyui/generate_video"
  | SignMontage => "/api/workflow/complete_sign_generation"
  | SignToYouTube => "/api/youtube/upload_sign/" +:+ sign
  | SignToTikTok => "/api/tiktok/upload_sign/" +:+ sign
  end.

(** The [format] of the payloads among some requests. *)
Definition sent_formats (requests : list (string * option request)) : list jsval :=
  omap (fun sent => match snd sent with
                    | Some (Request _ _ (Some payload)) =>
                        match get payload "format" with
                        | Normal format => Some format
                        | Throw _ => None
                        end
                    | _ => None
                    end) requests.

(** The two status probes. *)
Inductive status_probe : Type := ComfyUI | YouTube.

Definition probe (env : environment) (p : status_probe) : M jsval :=
  match p with
  | ComfyUI => checkComfyUIStatus env
  | YouTube => checkYouTubeStatus env
  end.

Definition probe_endpoint (p : status_probe) : string :=
  match p with
  | ComfyUI => "/api/comfyui/status"
  | YouTube => "/api/youtube/status"
  end.

Definition probe_message (p : status_probe) (data : jsval) : completion string :=
  match p with
  | ComfyUI => comfyui_status_message data
  | YouTube => youtube_status_message data
  end.

(** How the [try] block of a probe completes: with the message to show, or
    with what was thrown. *)
Definition probe_completion (p : status_probe) (r : reply) : completion string :=
  cbind (outcome r) (fun response =>
  cbind (json_result response) (fun data =>
  cbind (get data "success") (fun success =>
  if negb (truthy success)
  then cbind (reported_error data) (fun error => Throw error)
  else probe_message p data))).

(** What [alert] shows at the end of a probe. *)
Definition probe_alert (p : status_probe) (r : reply) : string :=
  match probe_completion p r with
  | Normal message => message
  | Throw error => "❌ Erreur: " +:+ exn_message error
  end.

(** Every asynchronous function of the script that is modelled. *)
Inductive handler : Type :=
| LoadModels
| ChangeModel
| SystemHealth
| Probe (p : status_probe)
| Batch (b : batch_workflow)
| Sign (f : sign_flow)
| AstralContext.

Definition handle_event (StringToNumber parseInt : string -> option Z) (env : environment)
    (h : handler) : M jsval :=
  match h with
  | LoadModels => loadAvailableModels StringToNumber env
  | ChangeModel => changeModel
  | SystemHealth => checkSystemHealth env
  | Probe p => probe env p
  | Batch b => launch StringToNumber env b
  | Sign f => start StringToNumber parseInt env f
  | AstralContext => getAstralContext env
  end.

(** The flows that show the result with one of the helpers: the helper,
    applied to the payload, and the element that receives the markup. *)
Definition renderer (StringToNumber : string -> option Z) (h : handler)
    : option (jsval -> completion string) :=
  match h with
  | Sign IndividualHoroscope =>
      Some (fun response => cbind (get response "result") createHoroscopeResultHTML)
  | Sign VideoClip =>
      Some (fun response =>
              cbind (get response "result") (createComfyUIVideoResultHTML StringToNumber))
  | Batch VideoBatch => Some (createComfyUIBatchResultHTML StringToNumber)
  | AstralContext => Some astral_context_result
  | _ => None
  end.

Definition result_target (h : handler) : string :=
  match h with
  | Sign IndividualHoroscope => "individual-result"
  | AstralContext => "context-result"
  | _ => "video-result"
  end.

(** [m] leaves a field of the world as it is, whichever way it completes. *)
Definition preserves {X A} (field : world -> X) (m : M A) : Prop :=
  forall w, field (snd (m w)) = field w.

(** [appState.availableModels], and the ids of the elements of the page. *)
Definition listed (w : world) : jsval := availableModels (appState w).

Definition elements (w : world) : gset string := dom (document w).

(** The [<option>] that [loadAvailableModels] appends for one model. *)
Definition model_option (model : jsval) : completion node :=
  cbind (get model "name") (fun name =>
  cbind (ToString name) (fun option_value =>
  cbind (to_nullable_DOMString name) (fun option_text =>
  Normal (OptionNode option_value option_text)))).

(** [changeModel()], followed by its callback once the 1500 ms have
    passed; the callback holds the two elements of the status line as
    [changeModel] found them. *)
Definition changeModel_then_timeout : M unit :=
  let! statusDot := getElementById "model-status-dot" in
  let! statusText := getElementById "model-status-text" in
  changeModel ;;;
  elapse 1500 ;;;
  changeModel_timeout statusDot statusText.

(** The page once the models are listed, with [chosen] picked in the
    selector. *)
Definition models_listed (names : list string) (chosen : string) : world :=
  World (<["model-status-dot" := Element ["status-dot"; "connected"] [] EmptyString]>
           (<["model-status-text" := Element [] [TextNode "2 modèles"] EmptyString]>
              (<["global-model-select" :=
                   Element [] (map (fun name => OptionNode name name) names) chosen]> ∅)))
        ∅
        (AppState (VStr "a") (VArr (map (fun name => VObj [("name", VStr name)]) names)))
        0 [].

(** The element [id], if the page has it, is not [active]; and [m] leaves
    it so, whichever way it completes. *)
Definition inactive (id : string) (w : world) : Prop :=
  forall el, document w !! id = Some el -> "active" ∉ classList el.

Definition leaves_inactive (id : string) {A} (m : M A) : Prop :=
  forall w, inactive id w -> inactive id (snd (m w)).

(** The form of the video section, with [sign] selected and no format
    chosen. *)
Definition video_form (sign : string) : world :=
  World (<["video-sign" := Element [] [] sign]>
           (<["video-format" := Element [] [] EmptyString]>
              (<["custom-prompt" := Element [] [] EmptyString]>
                 (<["seed-input" := Element [] [] "42"]> video_page))))
        ∅ initialAppState 7 [].

(** The start-up page, without the selector of the models. *)
Definition selector_missing : world :=
  World (delete "global-model-select" models_page) ∅ initialAppState 0 [].

(** A clip reported as generated, without the path of the file. *)
Definition clip_without_path : jsval :=
  VObj [("success", VBool true);
        ("result", VObj [("sign", VStr "leo"); ("sign_name", VStr "Lion");
                         ("file_size", VNum 1536)])].

(** An astral context with one influential planet, and the form that asks
    for it, no date entered. *)
Definition mars : jsval :=
  VObj [("name", VStr "Mars"); ("state", VStr "direct"); ("influence", VStr "énergie")].

Definition astral_report : jsval :=
  VObj [("success", VBool true);
        ("result", VObj [("date", VStr "2025-03-20");
                         ("lunar_phase", VStr "Pleine lune");
                         ("season", VStr "Printemps");
                         ("seasonal_energy", VStr "renouveau");
                         ("influential_planets", VArr [mars])])].

Definition context_form : world :=
  World (<["context-date-input" := Element [] [] EmptyString]>
           (<["context-loading" := Element ["loading"] [] EmptyString]>
              (<["context-result" := Element [] [] EmptyString]> ∅)))
        ∅ initialAppState 0 [].

(** * Properties *)

(** ** One run of the script *)

Lemma update_run id f w :
  update id f w =
  (Normal tt,
   World (alter f id (document w)) (localStorage w) (appState w) (clock w)
         (journal w ++ stamp (clock w) (written (document w) id f))).
Proof.
  unfold update, written. destruct (document w !! id) as [e|] eqn:E; simpl.
  - do 2 f_equal. apply map_eq; intros k.
    rewrite lookup_insert, lookup_alter. case_decide; subst; [by rewrite E | done].
  - rewrite alter_id' by done. rewrite app_nil_r. by destruct w.
Qed.

Lemma handle_None page id : handle page id = None <-> page !! id = None.
Proof. unfold handle. destruct (page !! id); naive_solver. Qed.

(** A guarded write through a handle taken earlier is the write itself, as
    long as elements have neither appeared nor disappeared since. *)
Lemma when_present_run page id f w :
  (page !! id = None <-> document w !! id = None) ->
  when_present (handle page id) f w = update id f w.
Proof.
  intros Hdom. unfold when_present, handle.
  destruct (page !! id) eqn:E; [done|].
  unfold update. by rewrite (proj1 Hdom eq_refl).
Qed.

(** ** [makeApiRequest] *)

Lemma max_from t a b : (t `max` ((t + a) `max` (t + b)) = t + a `max` b)%nat.
Proof. lia. Qed.

Lemma max_later t a : (t `max` (t + a) = t + a)%nat.
Proof. lia. Qed.

Lemma stamp_app t evs evs' : stamp t (evs ++ evs') = stamp t evs ++ stamp t evs'.
Proof. apply map_app. Qed.

Lemma showError_guard target message :
  match target with
  | Some el => showError el message
  | None => ret tt
  end = when_present target (set_innerHTML (error_markup message)).
Proof. reflexivity. Qed.

Lemma makeApiRequest_run env endpoint options loadingId resultId w :
  let r := network env endpoint options in
  makeApiRequest env endpoint options loadingId resultId w =
  (Normal (match envelope_completion r with Normal data => data | Throw _ => VNull end),
   World (page_settled loadingId resultId (envelope_completion r) (document w))
         (localStorage w) (appState w) (clock w + envelope_duration r)
         (journal w ++ envelope_journal endpoint options loadingId resultId r (clock w)
                         (document w))).
Proof.
  intros r.
  unfold makeApiRequest, bind, getElementById, timer, fetch, now, record, ret. simpl. fold r.
  rewrite (when_present_run (document w) loadingId) by done. rewrite update_run. simpl.
  rewrite (when_present_run (document w) resultId)
    by (simpl; by rewrite lookup_alter_None).
  rewrite update_run. simpl.
  unfold try_finally, try_catch, bind, await, json, now, lift, ret, throw, record. simpl.
  unfold envelope_journal, envelope_completion, envelope_duration, envelope_resumes,
    page_settled, page_reported, page_in_flight.
  destruct (outcome r) as [apiResponse|e] eqn:Hout; simpl;
    [destruct (json_result apiResponse) as [data|e]; simpl;
     [destruct (rejected_by_envelope apiResponse data) as [[|]|e]; simpl;
      [destruct (envelope_error apiResponse data) as [e|e]; simpl| |] |] |];
    rewrite ?showError_guard;
    rewrite ?(when_present_run (document w) resultId)
      by (simpl; by rewrite !lookup_alter_None);
    rewrite ?update_run; simpl;
    rewrite ?(when_present_run (document w) loadingId)
      by (simpl; by rewrite !lookup_alter_None);
    rewrite ?update_run; simpl;
    rewrite ?max_from, ?max_later, ?stamp_app, ?Nat.add_assoc; simpl;
    rewrite <- ?app_assoc; simpl; reflexivity.
Qed.

Lemma makeApiRequest_effects env endpoint options loadingId resultId w :
  effects (makeApiRequest env endpoint options loadingId resultId) w =
  envelope_journal endpoint options loadingId resultId (network env endpoint options)
    (clock w) (document w).
Proof. unfold effects. rewrite makeApiRequest_run. simpl. apply drop_app_length. Qed.

Lemma suspensions_app evs evs' :
  suspensions (evs ++ evs') = suspensions evs ++ suspensions evs'.
Proof. apply omap_app. Qed.

Lemma suspensions_written t page id f : suspensions (stamp t (written page id f)) = [].
Proof. unfold written. by destruct (page !! id). Qed.

Lemma envelope_suspensions endpoint options loadingId resultId r t0 page :
  suspensions (envelope_journal endpoint options loadingId resultId r t0 page) =
  (t0, page_in_flight loadingId resultId page)
    :: match outcome r with
       | Normal _ => [((t0 + envelope_resumes r)%nat, page_in_flight loadingId resultId page)]
       | Throw _ => []
       end.
Proof.
  unfold envelope_journal.
  rewrite !stamp_app, !suspensions_app, !suspensions_written. simpl.
  assert (suspensions
            (stamp (t0 + envelope_duration r)
               match envelope_completion r with
               | Normal _ => []
               | Throw error =>
                   ConsoleError ("Erreur API pour " +:+ endpoint +:+ ":") error
                   :: written (page_in_flight loadingId resultId page) resultId
                        (set_innerHTML (error_markup (exn_message error)))
               end) = []) as ->.
  { destruct (envelope_completion r); [done|]. simpl.
    apply (suspensions_written (t0 + envelope_duration r)). }
  destruct (outcome r); by rewrite ?app_nil_r.
Qed.

(** Writes that leave the classes alone keep an element's classes, and
    writes never remove an element. *)
Lemma lookup_alter_classList (f : element -> element) k (m : gmap string element) j e :
  (forall x, classList (f x) = classList x) ->
  m !! j = Some e ->
  exists e', alter f k m !! j = Some e' /\ classList e' = classList e.
Proof.
  intros Hf Hj. rewrite lookup_alter. case_decide; subst; rewrite ?Hj; simpl; eauto.
Qed.

Lemma active_in_flight loadingId resultId page indicator :
  page !! loadingId = Some indicator ->
  indicator_active loadingId (page_in_flight loadingId resultId page).
Proof.
  intros Hl. unfold page_in_flight.
  destruct (lookup_alter_classList (set_innerHTML EmptyString) resultId
              (alter (classList_add "active") loadingId page) loadingId
              (classList_add "active" indicator)) as (el & Hel & Hcl); [done | |].
  { by rewrite lookup_alter_eq, Hl. }
  exists el. split; [done|]. rewrite Hcl. unfold classList_add. simpl.
  case_bool_decide; [done|]. set_solver.
Qed.

Lemma inactive_once_settled loadingId resultId verdict page indicator :
  page !! loadingId = Some indicator ->
  exists el, page_settled loadingId resultId verdict page !! loadingId = Some el
             /\ "active" ∉ classList el.
Proof.
  intros Hl. destruct (active_in_flight loadingId resultId page indicator Hl) as (el & Hel & _).
  assert (exists el', page_reported resultId verdict (page_in_flight loadingId resultId page)
                        !! loadingId = Some el') as [el' Hel'].
  { destruct verdict; simpl; [eauto|].
    edestruct (lookup_alter_classList
                 (set_innerHTML (error_markup (exn_message e))) resultId) as (x & Hx & _);
      [|exact Hel|]; eauto. }
  unfold page_settled. rewrite lookup_alter_eq, Hel'. simpl. eexists; split; [done|].
  unfold classList_remove. simpl. rewrite list_elem_of_filter. intros [Hne _]. by apply Hne.
Qed.

Lemma blank_in_flight loadingId resultId page target :
  page !! resultId = Some target ->
  target_blank resultId (page_in_flight loadingId resultId page).
Proof.
  intros Hr. unfold page_in_flight, target_blank. rewrite lookup_alter_eq.
  destruct (alter (classList_add "active") loadingId page !! resultId) as [x|] eqn:Hx.
  - simpl. eauto.
  - apply lookup_alter_None in Hx. congruence.
Qed.

Lemma envelope_completion_confirmed r :
  match envelope_completion r with Normal data => data | Throw _ => VNull end
  = default VNull (confirmed_success r).
Proof.
  unfold envelope_completion, confirmed_success, rejected_by_envelope.
  destruct (outcome r) as [apiResponse|]; simpl; [|done].
  destruct (json_result apiResponse) as [data|]; simpl; [|done].
  destruct (ok apiResponse); simpl.
  - destruct (get data "success") as [success|]; simpl; [|done].
    destruct (truthy success); simpl; [done|].
    by destruct (envelope_error apiResponse data).
  - destruct (envelope_error apiResponse data); simpl; by destruct (get data "success").
Qed.

Lemma makeApiRequest_clock env endpoint options loadingId resultId w :
  clock (snd (makeApiRequest env endpoint options loadingId resultId w)) =
  (clock w + envelope_duration (network env endpoint options))%nat.
Proof. by rewrite makeApiRequest_run. Qed.

(** When [fetch] is fulfilled the floor holds and costs nothing to a slow
    call: the call lasts as long as the later of response and timer, plus
    the reading of the body. *)
Lemma floor_when_fetch_fulfils r apiResponse :
  outcome r = Normal apiResponse ->
  (floor <= envelope_duration r)%nat
  /\ ((floor <= latency r)%nat ->
      envelope_duration r = (latency r + json_latency apiResponse)%nat).
Proof. unfold envelope_duration. intros ->. lia. Qed.

(** When [fetch] is rejected, [Promise.all] is rejected on the spot and the
    call lasts as long as the failed request, whatever the floor. *)
Lemma no_floor_when_fetch_rejects r e :
  outcome r = Throw e -> envelope_duration r = latency r.
Proof. unfold envelope_duration. by intros ->. Qed.

(** The floor at work when the backend answers: a call answered after
    120 ms lasts 500 ms, a call answered after 900 ms lasts 900 ms. *)
Example floor_on_a_fast_and_a_slow_answer :
  clock (snd (makeApiRequest (backend_answers 120 200 (VObj [("success", VBool true)]))
                "/api/get_astral_context" None "video-loading" "video-result" at_rest))
  = 500%nat
  /\ clock (snd (makeApiRequest (backend_answers 900 200 (VObj [("success", VBool true)]))
                   "/api/get_astral_context" None "video-loading" "video-result" at_rest))
     = 900%nat.
Proof. by rewrite !makeApiRequest_clock. Qed.

(** C1 (the minimum visible duration).  The floor is not kept on every
    call: with the backend down, [fetch] is rejected after 10 ms,
    [Promise.all] is rejected at once, and the call settles (with [null])
    10 ms after it began, the spinner being withdrawn at that instant,
    490 ms short of the floor. *)
Theorem floor_skipped_when_backend_down :
  let run := makeApiRequest backend_down "/api/comfyui/generate_batch" None
               "video-loading" "video-result" at_rest in
  fst run = Normal VNull
  /\ clock (snd run) = 10%nat
  /\ (clock (snd run) < floor)%nat
  /\ (10%nat, Write "video-loading" (Element ["loading"] [] EmptyString))
       ∈ journal (snd run).
Proof.
  vm_compute. split_and!; [done | done | lia |].
  do 7 apply list_elem_of_further. apply list_elem_of_here.
Qed.

(** C5 (payload or null, never an exception).  For every reply of the
    backend and every page, the promise of [makeApiRequest] is fulfilled,
    never rejected: with the parsed payload when the response is confirmed
    successful, with [null] on every other path (rejected [fetch],
    unreadable body, status not ok, falsy [success]).  The payload of a
    confirmed success is never [null] itself, so that the caller's test
    tells the two apart. *)
Theorem payload_or_null env endpoint options loadingId resultId w :
  fst (makeApiRequest env endpoint options loadingId resultId w)
  = Normal (match confirmed_success (network env endpoint options) with
            | Some data => data
            | None => VNull
            end)
  /\ confirmed_success (network env endpoint options) <> Some VNull.
Proof.
  split.
  - rewrite makeApiRequest_run. simpl. by rewrite envelope_completion_confirmed.
  - unfold confirmed_success.
    destruct (outcome _) as [apiResponse|]; [|done].
    destruct (json_result apiResponse) as [data|]; [|done].
    destruct data; simpl; try done; by destruct (_ && _).
Qed.

(** C2 (the indicator as a scoped acquisition).  With the loading element
    on the page, whatever the reply: the function is first parked at the
    very instant of the call, at every suspension the indicator is active,
    the promise is fulfilled, and in the world in which it is fulfilled the
    indicator is no longer active. *)
Theorem loading_indicator_scoped env endpoint options loadingId resultId w indicator :
  document w !! loadingId = Some indicator ->
  (exists page later,
      suspensions (effects (makeApiRequest env endpoint options loadingId resultId) w)
      = (clock w, page) :: later)
  /\ Forall (fun s => indicator_active loadingId (snd s))
       (suspensions (effects (makeApiRequest env endpoint options loadingId resultId) w))
  /\ (exists result,
        fst (makeApiRequest env endpoint options loadingId resultId w) = Normal result)
  /\ (exists el,
        document (snd (makeApiRequest env endpoint options loadingId resultId w)) !! loadingId
        = Some el /\ "active" ∉ classList el).
Proof.
  intros Hl. rewrite makeApiRequest_effects, envelope_suspensions, makeApiRequest_run. simpl.
  pose proof (active_in_flight loadingId resultId _ _ Hl) as Hactive.
  split_and!.
  - eauto.
  - destruct (outcome _); repeat constructor; done.
  - eauto.
  - by eapply inactive_once_settled.
Qed.

Lemma loading_indicator_scoped_witness :
  document at_rest !! "video-loading" = Some (Element ["loading"] [] EmptyString)
  /\ exists el,
       document (snd (makeApiRequest backend_down "/api/youtube/upload_batch" None
                        "video-loading" "video-result" at_rest)) !! "video-loading"
       = Some el /\ "active" ∉ classList el.
Proof.
  split; [reflexivity|].
  apply (loading_indicator_scoped backend_down "/api/youtube/upload_batch" None
           "video-loading" "video-result" at_rest (Element ["loading"] [] EmptyString)).
  reflexivity.
Defined.

(** C10 (the result target is wiped at once).  With the result target on
    the page, whatever the reply: its content is erased at the instant of
    the call, before the function is parked for the first time, and at
    every suspension, while the request is in flight, the target is
    blank. *)
Theorem result_target_wiped_at_once env endpoint options loadingId resultId w target :
  document w !! resultId = Some target ->
  (exists before page after blank,
      effects (makeApiRequest env endpoint options loadingId resultId) w
      = before ++ (clock w, Suspended page) :: after
      /\ suspensions before = []
      /\ (clock w, Write resultId blank) ∈ before
      /\ content blank = [])
  /\ Forall (fun s => target_blank resultId (snd s))
       (suspensions (effects (makeApiRequest env endpoint options loadingId resultId) w)).
Proof.
  intros Hr. rewrite makeApiRequest_effects. split.
  - unfold envelope_journal. rewrite !app_assoc, stamp_app, <- !app_assoc. simpl.
    assert (exists x, alter (classList_add "active") loadingId (document w) !! resultId = Some x)
      as [x Hx].
    { destruct (alter (classList_add "active") loadingId (document w) !! resultId) eqn:E;
        [eauto|]. apply lookup_alter_None in E. congruence. }
    eexists (_ :: _ :: stamp (clock w) (_ ++ _)), _, _, (set_innerHTML EmptyString x).
    split_and!; [reflexivity | | | done].
    + simpl. rewrite stamp_app, suspensions_app, !suspensions_written. done.
    + do 2 apply list_elem_of_further. rewrite stamp_app, elem_of_app. right.
      unfold written. rewrite Hx. simpl. apply list_elem_of_here.
  - rewrite envelope_suspensions.
    pose proof (blank_in_flight loadingId resultId _ _ Hr).
    destruct (outcome _); repeat constructor; done.
Qed.

Lemma result_target_wiped_at_once_witness :
  document at_rest !! "video-result" = Some (Element [] [Markup "<p>hier</p>"] EmptyString)
  /\ Forall (fun s => target_blank "video-result" (snd s))
       (suspensions (effects (makeApiRequest
                                (backend_answers 120 200 (VObj [("success", VBool true)]))
                                "/api/youtube/upload_batch" None
                                "video-loading" "video-result") at_rest)).
Proof.
  split; [reflexivity|].
  apply (result_target_wiped_at_once
           (backend_answers 120 200 (VObj [("success", VBool true)]))
           "/api/youtube/upload_batch" None "video-loading" "video-result" at_rest
           (Element [] [Markup "<p>hier</p>"] EmptyString)).
  reflexivity.
Defined.

Lemma rendered_message loadingId resultId error page target :
  page !! resultId = Some target ->
  exists el, page_settled loadingId resultId (Throw error) page !! resultId = Some el
             /\ content el = [Markup (error_markup (exn_message error))].
Proof.
  intros Hr. destruct (blank_in_flight loadingId resultId page target Hr) as (x & Hx & _).
  unfold page_settled, page_reported. rewrite lookup_alter.
  case_decide; subst; rewrite lookup_alter_eq, Hx; simpl; eauto.
Qed.

(** C3, as stated, fails: on a page at rest, with a backend that answers,
    the journal of one call has [fetch] as its second entry, and no entry
    before it has made the indicator active. *)
Lemma dispatch_precedes_activation :
  ~ active_before_dispatch "video-loading"
      (effects (makeApiRequest (backend_answers 120 200 (VObj [("success", VBool true)]))
                  "/api/comfyui/generate_batch" None "video-loading" "video-result")
         at_rest).
Proof.
  intros H.
  destruct (H 1%nat 0%nat "/api/comfyui/generate_batch" None) as (k & t' & el & Hk & Hw & _).
  { reflexivity. }
  assert (k = 0%nat) as -> by lia.
  vm_compute in Hw. discriminate Hw.
Qed.

(** C3, amended (dispatch, then activation, in one synchronous run).  With
    the loading element on the page, a call first arms the timer, then
    dispatches the request, then makes the indicator active, all three at
    the instant of the call and with no suspension in between; the function
    is parked only afterwards, and at every suspension the indicator is
    active. *)
Theorem indicator_active_right_after_dispatch
    env endpoint options loadingId resultId w indicator :
  document w !! loadingId = Some indicator ->
  exists rest,
    effects (makeApiRequest env endpoint options loadingId resultId) w
    = (clock w, SetTimeout floor)
        :: (clock w, Fetch endpoint options)
        :: (clock w, Write loadingId (classList_add "active" indicator))
        :: rest
    /\ "active" ∈ classList (classList_add "active" indicator)
    /\ suspensions rest <> []
    /\ Forall (fun s => indicator_active loadingId (snd s)) (suspensions rest).
Proof.
  intros Hl.
  pose proof (envelope_suspensions endpoint options loadingId resultId
                (network env endpoint options) (clock w) (document w)) as Hs.
  rewrite makeApiRequest_effects. unfold envelope_journal in *.
  unfold written at 1. unfold written at 1 in Hs. rewrite Hl in *. simpl.
  eexists. split; [reflexivity|].
  match goal with
  | |- context [suspensions ?rest] =>
      assert (suspensions rest
              = (clock w, page_in_flight loadingId resultId (document w))
                  :: match outcome (network env endpoint options) with
                     | Normal _ =>
                         [((clock w + envelope_resumes (network env endpoint options))%nat,
                           page_in_flight loadingId resultId (document w))]
                     | Throw _ => []
                     end) as -> by exact Hs
  end.
  split_and!; [| done |].
  - unfold classList_add. simpl. case_bool_decide; [done|]. set_solver.
  - pose proof (active_in_flight loadingId resultId _ _ Hl).
    destruct (outcome _); repeat constructor; done.
Qed.

Lemma indicator_active_right_after_dispatch_witness :
  document at_rest !! "video-loading" = Some (Element ["loading"] [] EmptyString)
  /\ exists rest,
       effects (makeApiRequest backend_down "/api/comfyui/generate_batch" None
                  "video-loading" "video-result") at_rest
       = (clock at_rest, SetTimeout floor)
           :: (clock at_rest, Fetch "/api/comfyui/generate_batch" None)
           :: (clock at_rest,
               Write "video-loading"
                 (classList_add "active" (Element ["loading"] [] EmptyString)))
           :: rest
       /\ "active" ∈ classList (classList_add "active" (Element ["loading"] [] EmptyString))
       /\ suspensions rest <> []
       /\ Forall (fun s => indicator_active "video-loading" (snd s)) (suspensions rest).
Proof.
  split; [reflexivity|].
  apply (indicator_active_right_after_dispatch backend_down "/api/comfyui/generate_batch"
           None "video-loading" "video-result" at_rest (Element ["loading"] [] EmptyString)).
  reflexivity.
Defined.

(** C4, as stated, fails: a payload whose [success] is [1] is truthy but not
    [true]; with an ok status the specification's rule calls it a failure,
    and [makeApiRequest] hands the payload back as a success, rendering no
    message. *)
Lemma truthy_success_is_accepted :
  let data := VObj [("success", VNum 1)] in
  strictly_successful (Response 200 0 (Normal data)) data = false
  /\ fst (makeApiRequest (backend_answers 120 200 data) "/api/generate_single_horoscope"
            None "video-loading" "video-result" at_rest) = Normal data
  /\ target_blank "video-result"
       (document (snd (makeApiRequest (backend_answers 120 200 data)
                         "/api/generate_single_horoscope" None
                         "video-loading" "video-result" at_rest))).
Proof.
  split_and!; [reflexivity | reflexivity |].
  eexists. split; reflexivity.
Qed.

(** C4, amended (the decision of the envelope).  For a response whose body
    parsed to a payload that is not [null]: the call is a success, and
    returns the payload, exactly when the status is ok and the payload's
    [success] is truthy ([true] or any other truthy value); otherwise it
    returns [null] and the message rendered in the result target is the
    payload's [error] converted to a string when that is truthy, else
    [Erreur HTTP] followed by the status code. *)
Theorem envelope_decision
    env endpoint options loadingId resultId w apiResponse data success error :
  outcome (network env endpoint options) = Normal apiResponse ->
  json_result apiResponse = Normal data ->
  get data "success" = Normal success ->
  get data "error" = Normal error ->
  if ok apiResponse && truthy success
  then fst (makeApiRequest env endpoint options loadingId resultId w) = Normal data
       /\ document (snd (makeApiRequest env endpoint options loadingId resultId w))
          = page_settled loadingId resultId (Normal data) (document w)
  else fst (makeApiRequest env endpoint options loadingId resultId w) = Normal VNull
       /\ forall message target,
            (if truthy error then ToString error = Normal message
             else message = "Erreur HTTP " +:+ pretty (status apiResponse)) ->
            document w !! resultId = Some target ->
            exists el,
              document (snd (makeApiRequest env endpoint options loadingId resultId w))
                !! resultId = Some el
              /\ content el = [Markup (error_markup message)].
Proof.
  intros Hout Hjson Hs He. rewrite makeApiRequest_run. simpl.
  assert (envelope_completion (network env endpoint options)
          = if ok apiResponse && truthy success then Normal data
            else cbind (envelope_error apiResponse data) (fun e => Throw e)) as ->.
  { unfold envelope_completion, rejected_by_envelope. rewrite Hout. simpl. rewrite Hjson. simpl.
    destruct (ok apiResponse); simpl; [|done]. rewrite Hs. simpl. by destruct (truthy success). }
  destruct (ok apiResponse && truthy success); [done|]. split.
  - by destruct (envelope_error apiResponse data).
  - intros message target Hm Ht. unfold envelope_error. rewrite He. simpl.
    assert ((if truthy error
             then cbind (ToString error) (fun msg => Normal (Error msg))
             else Normal (Error ("Erreur HTTP " +:+ pretty (status apiResponse))))
            = Normal (Error message)) as ->.
    { destruct (truthy error); [by rewrite Hm | by subst]. }
    simpl. apply (rendered_message loadingId resultId (Error message) _ _ Ht).
Qed.

Lemma envelope_decision_witness :
  let data := VObj [("success", VBool false); ("error", VStr "x")] in
  let apiResponse := Response 200 0 (Normal data) in
  let env := backend_answers 120 200 data in
  outcome (network env "/api/workflow/complete_sign_generation" None) = Normal apiResponse
  /\ json_result apiResponse = Normal data
  /\ get data "success" = Normal (VBool false)
  /\ get data "error" = Normal (VStr "x")
  /\ fst (makeApiRequest env "/api/workflow/complete_sign_generation" None
            "video-loading" "video-result" at_rest) = Normal VNull
  /\ exists el,
       document (snd (makeApiRequest env "/api/workflow/complete_sign_generation" None
                        "video-loading" "video-result" at_rest)) !! "video-result" = Some el
       /\ content el = [Markup (error_markup "x")].
Proof.
  intros data apiResponse env.
  pose proof (envelope_decision env "/api/workflow/complete_sign_generation" None
                "video-loading" "video-result" at_rest apiResponse data
                (VBool false) (VStr "x") eq_refl eq_refl eq_refl eq_refl) as H.
  simpl in H. destruct H as [Hnull Hshown].
  split_and!; [reflexivity | reflexivity | reflexivity | reflexivity | exact Hnull |].
  exact (Hshown "x" _ eq_refl eq_refl).
Defined.

(** ** Frames: what a piece of the script leaves alone *)

Create HintDb frame.

Lemma keeps_ret {A} (a : A) : keeps_stores (ret a).
Proof. by intros w. Qed.

Lemma keeps_throw {A} e : keeps_stores (@throw A e).
Proof. by intros w. Qed.

Lemma keeps_lift {A} (c : completion A) : keeps_stores (lift c).
Proof. by intros w. Qed.

Lemma keeps_bind {A B} (m : M A) (k : A -> M B) :
  keeps_stores m -> (forall a, keeps_stores (k a)) -> keeps_stores (bind m k).
Proof.
  intros Hm Hk w. unfold bind. specialize (Hm w).
  destruct (m w) as [[a|e] w1]; simpl in *; [|done].
  specialize (Hk a w1). destruct Hm as (Ha & Hl & Hd), Hk as (Ha' & Hl' & Hd').
  split_and!; [congruence..|]. intros id. by rewrite Hd', Hd.
Qed.

Lemma keeps_try_catch {A} (body : M A) handler :
  keeps_stores body -> (forall e, keeps_stores (handler e)) ->
  keeps_stores (try_catch body handler).
Proof.
  intros Hb Hh w. unfold try_catch. specialize (Hb w).
  destruct (body w) as [[a|e] w1]; simpl in *; [done|].
  specialize (Hh e w1). destruct Hb as (Ha & Hl & Hd), Hh as (Ha' & Hl' & Hd').
  split_and!; [congruence..|]. intros id. by rewrite Hd', Hd.
Qed.

Lemma keeps_try_finally {A} (body : M A) cleanup :
  keeps_stores body -> keeps_stores cleanup -> keeps_stores (try_finally body cleanup).
Proof.
  intros Hb Hc w. unfold try_finally. specialize (Hb w).
  destruct (body w) as [c w1]; simpl in *. specialize (Hc w1).
  destruct (cleanup w1) as [[[]|e] w2]; simpl in *;
    destruct Hb as (Ha & Hl & Hd), Hc as (Ha' & Hl' & Hd');
    (split_and!; [congruence..|]); intros id; by rewrite Hd', Hd.
Qed.

Lemma keeps_record ev : keeps_stores (record ev).
Proof. by intros w. Qed.

Lemma keeps_now : keeps_stores now.
Proof. by intros w. Qed.

Lemma keeps_await {A} (p : promise A) : keeps_stores (await p).
Proof. by intros w. Qed.

Lemma keeps_update id f : keeps_stores (update id f).
Proof.
  intros w. rewrite update_run. simpl. split_and!; [done..|].
  intros k. apply lookup_alter_None.
Qed.

Lemma keeps_when_present target f : keeps_stores (when_present target f).
Proof. destruct target; [apply keeps_update | apply keeps_ret]. Qed.

Lemma keeps_assign target property f : keeps_stores (assign target property f).
Proof. destruct target; [apply keeps_update | apply keeps_throw]. Qed.

Lemma keeps_invoke target method f : keeps_stores (invoke target method f).
Proof. destruct target; [apply keeps_update | apply keeps_throw]. Qed.

Lemma keeps_getElementById id : keeps_stores (getElementById id).
Proof. by intros w. Qed.

Lemma keeps_read_value target : keeps_stores (read_value target).
Proof. intros w. unfold read_value. by destruct target. Qed.

Lemma keeps_getItem_or key fallback : keeps_stores (getItem_or key fallback).
Proof. by intros w. Qed.

Lemma keeps_get_selectedModel : keeps_stores get_selectedModel.
Proof. by intros w. Qed.

#[local] Hint Resolve keeps_ret keeps_throw keeps_lift keeps_record keeps_now keeps_await
  keeps_update keeps_when_present keeps_assign keeps_invoke keeps_getElementById
  keeps_read_value
  keeps_getItem_or keeps_get_selectedModel : frame.
#[local] Hint Extern 2 (keeps_stores (bind _ _)) => apply keeps_bind; [|intros ?] : frame.
#[local] Hint Extern 2 (keeps_stores (try_catch _ _)) =>
  apply keeps_try_catch; [|intros ?] : frame.
#[local] Hint Extern 2 (keeps_stores (try_finally _ _)) => apply keeps_try_finally : frame.
#[local] Hint Extern 3 (keeps_stores (if ?b then _ else _)) => destruct b : frame.
#[local] Hint Extern 3 (keeps_stores (match ?x with Some _ => _ | None => _ end)) =>
  destruct x : frame.

Lemma keeps_fetch env endpoint options : keeps_stores (fetch env endpoint options).
Proof. unfold fetch. auto with frame. Qed.

Lemma keeps_json r : keeps_stores (json r).
Proof. unfold json. auto with frame. Qed.

Lemma keeps_timer delay : keeps_stores (timer delay).
Proof. unfold timer. auto with frame. Qed.

Lemma keeps_showError container message : keeps_stores (showError container message).
Proof. unfold showError. auto with frame. Qed.

Lemma keeps_confirm env text : keeps_stores (confirm env text).
Proof. unfold confirm. auto with frame. Qed.

Lemma keeps_alert text : keeps_stores (alert text).
Proof. unfold alert. auto with frame. Qed.

#[local] Hint Resolve keeps_fetch keeps_json keeps_timer keeps_showError keeps_confirm
  keeps_alert : frame.

Lemma keeps_makeApiRequest env endpoint options loadingId resultId :
  keeps_stores (makeApiRequest env endpoint options loadingId resultId).
Proof. unfold makeApiRequest. auto 20 with frame. Qed.

Lemma keeps_for_each {A} (f : A -> M unit) l :
  (forall x, keeps_stores (f x)) -> keeps_stores (for_each f l).
Proof. intros Hf. induction l; simpl; auto with frame. Qed.

Lemma keeps_add_model_option modelSelect model :
  keeps_stores (add_model_option modelSelect model).
Proof. unfold add_model_option. auto 10 with frame. Qed.

Lemma keeps_forEach what array (f : jsval -> M unit) :
  (forall x, keeps_stores (f x)) -> keeps_stores (forEach what array f).
Proof. intros Hf. destruct array; simpl; auto using keeps_for_each with frame. Qed.

#[local] Hint Resolve keeps_makeApiRequest keeps_for_each keeps_forEach
  keeps_add_model_option : frame.

(** ** [loadAvailableModels] *)

(** The three failures that the specification names do not pass the test. *)
Lemma named_failures S r :
  (exists e, outcome r = Throw e)
  \/ (exists response props,
        outcome r = Normal response
        /\ json_result response = Normal (VObj props)
        /\ (truthy (own_property props "success") = false
            \/ own_property props "models" = VArr [])) ->
  models_verdict S r <> Normal true.
Proof.
  unfold models_verdict, models_received.
  intros [[e ->] | (response & props & -> & Hjson & H)]; simpl; [done|].
  rewrite Hjson. simpl. destruct H as [-> | ->]; simpl; [done|].
  by destruct (truthy (own_property props "success")).
Qed.

Lemma refused_refresh_throws S env statusDot statusText modelSelect w :
  models_verdict S (network env "/api/ollama/models" None) <> Normal true ->
  exists e w1,
    refresh_models S env statusDot statusText modelSelect w = (Throw e, w1)
    /\ document w1 = document w /\ appState w1 = appState w
    /\ localStorage w1 = localStorage w.
Proof.
  unfold models_verdict, refresh_models, bind, fetch, await, json, now, record, ret, lift, throw.
  simpl. intros Hv.
  destruct (outcome _) as [response|e]; simpl in *; [|by eauto 10].
  destruct (json_result response) as [data|e]; simpl in *; [|by eauto 10].
  destruct (models_received S data) as [[|]|e]; simpl in *; [done | | by eauto 10].
  destruct (get data "error") as [error|e]; simpl; [|by eauto 10].
  destruct (truthy error); simpl; [|by eauto 10].
  destruct (ToString error); simpl; by eauto 10.
Qed.

Lemma refused_refresh_run S env w dot text :
  document w !! "model-status-dot" = Some dot ->
  document w !! "model-status-text" = Some text ->
  models_verdict S (network env "/api/ollama/models" None) <> Normal true ->
  exists t j,
    loadAvailableModels S env w
    = (Normal VUndefined,
       World (<["model-status-text" := set_textContent "Ollama offline" text]>
                (<["model-status-dot" := set_className ["status-dot"; "error"] dot]>
                   (document w)))
             (localStorage w) (appState w) t j).
Proof.
  intros Hdot Htext Hv.
  destruct (refused_refresh_throws S env
              (handle (document w) "model-status-dot")
              (handle (document w) "model-status-text")
              (handle (document w) "global-model-select") w Hv)
    as (e & [page1 storage1 app1 t1 j1] & Hrun & Hdoc & Happ & Hsto).
  simpl in *. subst.
  unfold loadAvailableModels, bind, getElementById, try_catch. simpl. rewrite Hrun.
  unfold handle. rewrite Hdot, Htext.
  unfold record, assign, ret. simpl. rewrite !update_run. simpl.
  do 2 eexists. do 2 f_equal.
  apply map_eq. intros id.
  rewrite !lookup_alter, !lookup_insert.
  repeat case_decide; subst; simpl; rewrite ?Hdot, ?Htext; done.
Qed.

(** C7 (a failed refresh).  With the two status elements on the page, when
    the reply does not pass the test at the head of the [try] block (the
    request failed, the body is not JSON, [success] is falsy, or [models] is
    missing or empty), [loadAvailableModels] is fulfilled and does not
    throw; [appState] (selected model and known models) and [localStorage]
    are as before; the status dot is given the classes [status-dot error],
    the status text reads [Ollama offline], and no other element of the page
    is touched. *)
Theorem failed_refresh_keeps_selection S env w dot text :
  document w !! "model-status-dot" = Some dot ->
  document w !! "model-status-text" = Some text ->
  models_verdict S (network env "/api/ollama/models" None) <> Normal true ->
  fst (loadAvailableModels S env w) = Normal VUndefined
  /\ appState (snd (loadAvailableModels S env w)) = appState w
  /\ localStorage (snd (loadAvailableModels S env w)) = localStorage w
  /\ document (snd (loadAvailableModels S env w))
     = <["model-status-text" := set_textContent "Ollama offline" text]>
         (<["model-status-dot" := set_className ["status-dot"; "error"] dot]> (document w)).
Proof.
  intros Hdot Htext Hv.
  destruct (refused_refresh_run S env w dot text Hdot Htext Hv) as (t & j & ->). done.
Qed.

Lemma bind_Normal {A B} (m : M A) (k : A -> M B) w b w' :
  bind m k w = (Normal b, w') ->
  exists a w1, m w = (Normal a, w1) /\ k a w1 = (Normal b, w').
Proof.
  unfold bind. destruct (m w) as [[a|e] w1]; [eauto | discriminate].
Qed.

(** From a run [H : m w = (c, w')], what [m] is known to leave alone. *)
Ltac frame_of H :=
  match type of H with
  | ?m ?w = (_, _) =>
      let K := fresh "K" in
      assert (K : keeps_stores m) by auto 20 with frame;
      specialize (K w); rewrite H in K; simpl in K;
      let Ka := fresh "Happ" in
      let Kl := fresh "Hsto" in
      let Kd := fresh "Hdom" in
      destruct K as (Ka & Kl & Kd)
  end.

Lemma lift_Normal {A} (c : completion A) w a w' :
  lift c w = (Normal a, w') -> c = Normal a /\ w' = w.
Proof. unfold lift. by intros [= -> ->]. Qed.

(** Finding a name among the models finds the name of one of them. *)
Lemma some_named_member savedModel models :
  some_named savedModel models = Normal true ->
  exists m name, m ∈ models /\ get m "name" = Normal name
                 /\ strict_eq name savedModel = true.
Proof.
  induction models as [|m rest IH]; simpl; [discriminate|].
  destruct (get m "name") as [name|] eqn:Hname; simpl; [|discriminate].
  destruct (strict_eq name savedModel) eqn:Heq.
  - intros _. exists m, name. split_and!; [left | done..].
  - intros H. destruct (IH H) as (m' & name' & Hin & Hn & He).
    exists m', name'. split_and!; [by right | done..].
Qed.

(** [===] holds between equal values only. *)
Lemma strict_eq_eq a b : strict_eq a b = true -> a = b.
Proof.
  destruct a, b; simpl; try discriminate; try done.
  - intros H. f_equal. by apply Bool.eqb_prop.
  - intros H. f_equal. by apply Z.eqb_eq.
  - intros H. f_equal. by apply String.eqb_eq.
Qed.

Lemma successful_refresh S env w w' :
  refresh_succeeds S env w w' ->
  exists response data models,
    outcome (network env "/api/ollama/models" None) = Normal response
    /\ json_result response = Normal data
    /\ get data "models" = Normal (VArr models)
    /\ availableModels (appState w') = VArr models
    /\ localStorage w' = localStorage w
    /\ match some_named (persisted_or_previous w) models with
       | Normal true => selectedModel (appState w') = persisted_or_previous w
       | Normal false => get (first models) "name" = Normal (selectedModel (appState w'))
                         /\ models <> []
       | Throw _ => False
       end.
Proof.
  unfold refresh_succeeds, refresh_models. intros H.
  apply bind_Normal in H as (fetching & w1 & Hfetch & H).
  apply bind_Normal in H as (response & w2 & Hawait & H).
  apply bind_Normal in H as (parsing & w3 & Hjson & H).
  apply bind_Normal in H as (data & w4 & Hdata & H).
  apply bind_Normal in H as (received & w5 & Hrec & H).
  unfold fetch, bind, record, now, ret in Hfetch. simpl in Hfetch.
  injection Hfetch as <- <-.
  unfold await in Hawait. simpl in Hawait. injection Hawait as Hout <-.
  unfold json, bind, now, ret in Hjson. simpl in Hjson. injection Hjson as <- <-.
  unfold await in Hdata. simpl in Hdata. injection Hdata as Hparsed <-.
  apply lift_Normal in Hrec as [Hrec ->].
  destruct received.
  2:{ apply bind_Normal in H as (error & w6 & _ & H).
      apply bind_Normal in H as (message & w7 & _ & H). discriminate H. }
  apply bind_Normal in H as (models & w6 & Hmodels & H).
  apply lift_Normal in Hmodels as [Hmodels ->].
  apply bind_Normal in H as ([] & w7 & Hset & H).
  unfold set_availableModels in Hset. simpl in Hset. injection Hset as <-.
  apply bind_Normal in H as ([] & w8 & Hclear & H).
  apply bind_Normal in H as ([] & w9 & Hloop & H).
  destruct models as [| | | | |l|]; try discriminate Hloop.
  apply bind_Normal in H as (previous & w10 & Hprev & H).
  apply bind_Normal in H as (savedModel & w11 & Hsaved & H).
  apply bind_Normal in H as (found & w12 & Hfound & H).
  apply bind_Normal in H as ([] & w13 & Hsel & H).
  assert (Hnonempty : l <> []).
  { intros ->. unfold models_received in Hrec.
    destruct (get data "success") as [success|]; simpl in Hrec; [|discriminate].
    destruct (truthy success); simpl in Hrec; [|discriminate].
    rewrite Hmodels in Hrec. simpl in Hrec. discriminate. }
  frame_of Hclear. frame_of Hloop.
  unfold get_selectedModel in Hprev. injection Hprev as <- <-.
  unfold getItem_or in Hsaved. injection Hsaved as Hsaved <-.
  assert (savedModel = persisted_or_previous w) as ->.
  { rewrite <- Hsaved. unfold persisted_or_previous. simpl.
    by rewrite Hsto0, Hsto, Happ0, Happ. }
  clear Hsaved. apply lift_Normal in Hfound as [Hfound ->].
  frame_of H.
  assert (localStorage w13 = localStorage w
          /\ availableModels (appState w13) = VArr l
          /\ if found then selectedModel (appState w13) = persisted_or_previous w
             else get (first l) "name" = Normal (selectedModel (appState w13)))
    as (Hsto13 & Havail & Hselected).
  { destruct found.
    - apply bind_Normal in Hsel as (v & w14 & Hv & Hsel).
      apply lift_Normal in Hv as [_ ->].
      apply bind_Normal in Hsel as ([] & w15 & Hassign & Hsel).
      frame_of Hassign.
      unfold set_selectedModel in Hsel. injection Hsel as <-. simpl.
      by rewrite Hsto2, Hsto0, Hsto, Happ2, Happ0, Happ.
    - apply bind_Normal in Hsel as (name & w14 & Hname & Hsel).
      apply lift_Normal in Hname as [Hname ->].
      apply bind_Normal in Hsel as ([] & w15 & Hset & Hsel).
      unfold set_selectedModel in Hset. injection Hset as <-.
      frame_of Hsel. simpl in *.
      by rewrite Hsto2, Hsto0, Hsto, Happ2, Happ0, Happ. }
  exists response, data, l. rewrite Happ1, Hsto1, Hfound.
  split_and!; [done..|].
  destruct found; [done|]. by split.
Qed.

Lemma some_named_absent savedModel models :
  some_named savedModel models = Normal false ->
  forall m, m ∈ models ->
    exists name, get m "name" = Normal name /\ strict_eq name savedModel = false.
Proof.
  induction models as [|m0 rest IH]; simpl; intros H m Hin.
  - by apply elem_of_nil in Hin.
  - destruct (get m0 "name") as [name|] eqn:Hname; simpl in H; [|discriminate].
    destruct (strict_eq name savedModel) eqn:Heq; [discriminate|].
    apply elem_of_cons in Hin as [-> | Hin]; [eauto | by apply IH].
Qed.

Lemma succeeded_refresh_is_fulfilled S env w w' :
  refresh_succeeds S env w w' -> loadAvailableModels S env w = (Normal VUndefined, w').
Proof.
  unfold refresh_succeeds, loadAvailableModels, bind, getElementById, try_catch. simpl.
  by intros ->.
Qed.

Lemma refused_refresh_keeps_appState S env w :
  models_verdict S (network env "/api/ollama/models" None) <> Normal true ->
  appState (snd (loadAvailableModels S env w)) = appState w.
Proof.
  intros Hv.
  destruct (refused_refresh_throws S env
              (handle (document w) "model-status-dot")
              (handle (document w) "model-status-text")
              (handle (document w) "global-model-select") w Hv)
    as (e & w1 & Hrun & _ & Happ & _).
  unfold loadAvailableModels, bind at 1 2 3 4, getElementById, try_catch. simpl. rewrite Hrun.
  match goal with
  | |- context [bind ?m ?k w1] =>
      assert (K : keeps_stores (bind m k)) by auto 20 with frame;
      destruct (K w1) as (Ha & _); destruct (bind m k w1) as [[[]|e'] w2]
  end; simpl in *; congruence.
Qed.

(** C6 (the active model after a refresh).  The script starts with the
    hard-coded model, and keeps it for as long as every refresh has failed
    the test at the head of the [try] block.  When a refresh runs to the end
    of its [try] block, the promise is fulfilled, the known models are those
    of the reply, and the active model is the name of one of them: the
    persisted name (or, without one, the model selected before) when it
    appears in the new list, the name of the first model of the list
    otherwise. *)
Theorem active_model_among_the_refreshed S :
  selectedModel initialAppState = VStr "llama3.1:8b-instruct-q8_0"
  /\ (forall envs w,
        appState w = initialAppState ->
        Forall (fun env =>
                  models_verdict S (network env "/api/ollama/models" None) <> Normal true)
               envs ->
        selectedModel (appState (refreshes S envs w)) = VStr "llama3.1:8b-instruct-q8_0")
  /\ (forall env w w',
        refresh_succeeds S env w w' ->
        loadAvailableModels S env w = (Normal VUndefined, w')
        /\ exists response data models,
             outcome (network env "/api/ollama/models" None) = Normal response
             /\ json_result response = Normal data
             /\ get data "models" = Normal (VArr models)
             /\ availableModels (appState w') = VArr models
             /\ named models (selectedModel (appState w'))
             /\ (appears (persisted_or_previous w) models ->
                 selectedModel (appState w') = persisted_or_previous w)
             /\ (~ appears (persisted_or_previous w) models ->
                 get (first models) "name" = Normal (selectedModel (appState w')))).
Proof.
  split_and!.
  - reflexivity.
  - intros envs. induction envs as [|env later IH]; intros w Hw Hall; simpl.
    + by rewrite Hw.
    + apply Forall_cons in Hall as [Hv Hall]. apply IH; [|done].
      by rewrite refused_refresh_keeps_appState.
  - intros env w w' Hrun. split; [by apply succeeded_refresh_is_fulfilled|].
    destruct (successful_refresh S env w w' Hrun)
      as (response & data & models & Hout & Hjson & Hmodels & Havail & _ & Hsel).
    exists response, data, models. split_and!; [done..| | |].
    + destruct (some_named (persisted_or_previous w) models) as [[|]|] eqn:Hsome; [| |done].
      * destruct (some_named_member _ _ Hsome) as (m & name & Hin & Hname & Heq).
        apply strict_eq_eq in Heq. subst name. rewrite Hsel. by exists m.
      * destruct Hsel as [Hfirst Hne]. exists (first models). split; [|done].
        destruct models; [done|]. left.
    + intros (name & (m & Hin & Hname) & Heq).
      destruct (some_named (persisted_or_previous w) models) as [[|]|] eqn:Hsome; [done| |done].
      destruct (some_named_absent _ _ Hsome m Hin) as (name' & Hname' & Hneq). congruence.
    + intros Hnot.
      destruct (some_named (persisted_or_previous w) models) as [[|]|] eqn:Hsome; [|tauto|done].
      destruct Hnot. destruct (some_named_member _ _ Hsome) as (m & name & Hin & Hname & Heq).
      exists name. split; [by exists m | done].
Qed.

Lemma active_model_among_the_refreshed_witness :
  let w' := snd (loadAvailableModels no_number (ollama_lists ["a"; "b"]) at_start) in
  refresh_succeeds no_number (ollama_lists ["a"; "b"]) at_start w'
  /\ selectedModel (appState w') = VStr "a"
  /\ exists response data models,
       outcome (network (ollama_lists ["a"; "b"]) "/api/ollama/models" None) = Normal response
       /\ json_result response = Normal data
       /\ get data "models" = Normal (VArr models)
       /\ availableModels (appState w') = VArr models
       /\ named models (selectedModel (appState w'))
       /\ (appears (persisted_or_previous at_start) models ->
           selectedModel (appState w') = persisted_or_previous at_start)
       /\ (~ appears (persisted_or_previous at_start) models ->
           get (first models) "name" = Normal (selectedModel (appState w'))).
Proof.
  intros w'.
  assert (Hrun : refresh_succeeds no_number (ollama_lists ["a"; "b"]) at_start w')
    by (vm_compute; reflexivity).
  split_and!; [exact Hrun | vm_compute; reflexivity |].
  exact (proj2 (proj2 (proj2 (active_model_among_the_refreshed no_number))
                  (ollama_lists ["a"; "b"]) at_start w' Hrun)).
Defined.

Lemma failed_refresh_keeps_selection_witness :
  document at_start !! "model-status-dot" = Some (Element ["status-dot"] [] EmptyString)
  /\ document at_start !! "model-status-text"
     = Some (Element [] [TextNode "Connexion..."] EmptyString)
  /\ models_verdict no_number (network backend_down "/api/ollama/models" None) <> Normal true
  /\ fst (loadAvailableModels no_number backend_down at_start) = Normal VUndefined
  /\ appState (snd (loadAvailableModels no_number backend_down at_start)) = appState at_start
  /\ localStorage (snd (loadAvailableModels no_number backend_down at_start))
     = localStorage at_start
  /\ document (snd (loadAvailableModels no_number backend_down at_start))
     = <["model-status-text" :=
           set_textContent "Ollama offline" (Element [] [TextNode "Connexion..."] EmptyString)]>
         (<["model-status-dot" :=
              set_className ["status-dot"; "error"] (Element ["status-dot"] [] EmptyString)]>
            (document at_start)).
Proof.
  assert (Hv : models_verdict no_number (network backend_down "/api/ollama/models" None)
               <> Normal true) by (vm_compute; discriminate).
  split_and!; [reflexivity | reflexivity | exact Hv | ..];
    apply (failed_refresh_keeps_selection no_number backend_down at_start
             (Element ["status-dot"] [] EmptyString)
             (Element [] [TextNode "Connexion..."] EmptyString)
             eq_refl eq_refl Hv).
Defined.

(** The scenario of the specification: with nothing persisted, a refresh
    that lists [a] and [b] makes [a] the active model; with [b] persisted,
    the same refresh resumes [b], and a refresh that lists [a] alone falls
    back to [a]. *)
Example refresh_scenario :
  let chose_b w := World (document w) (<["selectedModel" := "b"]> (localStorage w))
                         (appState w) (clock w) (journal w) in
  selectedModel (appState (refreshes no_number [ollama_lists ["a"; "b"]] at_start)) = VStr "a"
  /\ selectedModel
       (appState (refreshes no_number [ollama_lists ["a"; "b"]] (chose_b at_start))) = VStr "b"
  /\ selectedModel
       (appState (refreshes no_number [ollama_lists ["a"; "b"]; ollama_lists ["a"]]
                    (chose_b at_start))) = VStr "a".
Proof. vm_compute. done. Qed.

(** ** The batch workflows *)

Lemma declined_run S env b w :
  confirm_answer env (question b) = false ->
  launch S env b w
  = (Normal VUndefined,
     World (document w) (localStorage w) (appState w) (clock w)
           (journal w ++ [(clock w, Confirm (question b) false)])).
Proof.
  intros Hno.
  destruct b; simpl in *;
    unfold generateComfyUIBatchVideos, generateFullMontage, uploadBatchToYouTube,
      bind at 1, confirm, bind, record, ret;
    simpl; rewrite Hno; reflexivity.
Qed.

(** C8 (no batch without confirmation).  For each of the three batch
    workflows: when the user declines, the function returns at once,
    fulfilled with [undefined], having dispatched nothing and changed
    nothing (page, [appState], [localStorage] and clock are as before, and
    the only effect is the question itself); hence a request is dispatched
    only if the answer to the question was yes. *)
Theorem batch_needs_confirmation S env b w :
  (confirm_answer env (question b) = false ->
   launch S env b w
   = (Normal VUndefined,
      World (document w) (localStorage w) (appState w) (clock w)
            (journal w ++ [(clock w, Confirm (question b) false)])))
  /\ (forall t endpoint options,
        (t, Fetch endpoint options) ∈ effects (launch S env b) w ->
        confirm_answer env (question b) = true).
Proof.
  split; [apply declined_run|].
  intros t endpoint options Hin.
  destruct (confirm_answer env (question b)) eqn:Hanswer; [done|].
  unfold effects in Hin. rewrite (declined_run S env b w Hanswer) in Hin. simpl in Hin.
  rewrite drop_app_length in Hin.
  apply list_elem_of_singleton in Hin. discriminate Hin.
Qed.

Lemma batch_needs_confirmation_witness :
  confirm_answer user_declines (question VideoBatch) = false
  /\ launch no_number user_declines VideoBatch video_section
     = (Normal VUndefined,
        World (document video_section) (localStorage video_section) (appState video_section)
              (clock video_section)
              (journal video_section
                 ++ [(clock video_section, Confirm (question VideoBatch) false)]))
  /\ (0%nat, Fetch "/api/comfyui/generate_batch"
               (post_json (VObj [("format", VStr "youtube_short")])))
       ∈ effects (launch no_number user_confirms VideoBatch) video_section
  /\ confirm_answer user_confirms (question VideoBatch) = true.
Proof.
  assert (Hin : (0%nat, Fetch "/api/comfyui/generate_batch"
                          (post_json (VObj [("format", VStr "youtube_short")])))
                  ∈ effects (launch no_number user_confirms VideoBatch) video_section).
  { vm_compute. do 2 apply list_elem_of_further. apply list_elem_of_here. }
  split_and!; [reflexivity | | exact Hin |].
  - exact (proj1 (batch_needs_confirmation no_number user_declines VideoBatch video_section)
             eq_refl).
  - exact (proj2 (batch_needs_confirmation no_number user_confirms VideoBatch video_section)
             _ _ _ Hin).
Defined.

(** ** The batch renderers *)

Lemma append_assoc (a b c : string) : (a +:+ b) +:+ c = a +:+ (b +:+ c).
Proof. induction a as [|x a IH]; [done | exact (f_equal (String x) IH)]. Qed.

Lemma append_empty_r (a : string) : a +:+ EmptyString = a.
Proof. induction a as [|x a IH]; [done | exact (f_equal (String x) IH)]. Qed.

Lemma concat_cons_empty (x : string) (l : list string) :
  String.concat EmptyString (x :: l) = x +:+ String.concat EmptyString l.
Proof.
  destruct l as [|y l]; [|done]. simpl. by rewrite append_empty_r.
Qed.

(** Appending the entries one by one, as [+=] does, builds their
    concatenation in order. *)
Lemma fold_left_append (entries : list string) (acc : string) :
  fold_left String.append entries acc = acc +:+ String.concat EmptyString entries.
Proof.
  revert acc. induction entries as [|x l IH]; intros acc.
  - simpl. by rewrite append_empty_r.
  - rewrite concat_cons_empty. simpl fold_left. by rewrite IH, append_assoc.
Qed.

(** [array.map(f)] either throws at the first item on which [f] throws, or
    yields the images of the items, one for one and in order. *)
Lemma map_completion_Forall2 {A B} (f : A -> completion B) l ys :
  map_completion f l = Normal ys <-> Forall2 (fun x y => f x = Normal y) l ys.
Proof.
  revert ys. induction l as [|x l IH]; intros ys; simpl.
  - split; [intros [= <-]; constructor | intros H; by apply Forall2_nil_inv_l in H as ->].
  - destruct (f x) as [y|e] eqn:Hx; simpl.
    + destruct (map_completion f l) as [ys'|e] eqn:Hl; simpl.
      * split.
        -- intros [= <-]. constructor; [done | by apply IH].
        -- intros H. apply Forall2_cons_inv_l in H as (y' & k & Hy & Hk & ->).
           apply IH in Hk. congruence.
      * split; [done|].
        intros H. apply Forall2_cons_inv_l in H as (y' & k & Hy & Hk & ->).
        apply IH in Hk. discriminate.
    + split; [done|].
      intros H. apply Forall2_cons_inv_l in H as (y' & k & Hy & Hk & ->). congruence.
Qed.

Lemma occurs_here (part after : string) : occurs part (part +:+ after).
Proof. by exists EmptyString, after. Qed.

Lemma occurs_after (before part whole : string) :
  occurs part whole -> occurs part (before +:+ whole).
Proof.
  intros (b & a & ->). exists (before +:+ b), a. by rewrite append_assoc.
Qed.

Lemma occurs_before (after part whole : string) :
  occurs part whole -> occurs part (whole +:+ after).
Proof.
  intros (b & a & ->). exists b, (a +:+ after). by rewrite !append_assoc.
Qed.

(** What occurs in an entry occurs in the concatenation of the entries. *)
Lemma occurs_concat (part entry : string) (entries : list string) :
  entry ∈ entries -> occurs part entry ->
  occurs part (String.concat EmptyString entries).
Proof.
  intros Hin Hpart. induction entries as [|e l IH]; [by apply elem_of_nil in Hin|].
  rewrite concat_cons_empty. apply elem_of_cons in Hin as [<-|Hin].
  - by apply occurs_before.
  - by apply occurs_after, IH.
Qed.

(** Skips the pieces of a template that come before [piece]. *)
Ltac skip_to piece :=
  repeat lazymatch goal with
         | |- occurs _ (piece +:+ _) => fail
         | |- occurs _ (?before +:+ _) => apply (occurs_after before)
         end.

Ltac skip_the_rest :=
  lazymatch goal with
  | |- occurs _ (_ +:+ ?after) => apply (occurs_before after)
  end.

(** The entries that render the items are in the order of the items. *)
Lemma entry_of_item {A} (f : A -> completion string) items entries i item :
  Forall2 (fun x entry => f x = Normal entry) items entries ->
  items !! i = Some item ->
  exists entry, f item = Normal entry /\ entries !! i = Some entry /\ entry ∈ entries.
Proof.
  intros Hall Hi.
  destruct (Forall2_lookup_l _ _ _ _ _ Hall Hi) as (entry & Hentry & Hitem).
  exists entry. split_and!; [done..|]. by apply list_elem_of_lookup_2 in Hentry.
Qed.

(** C9 (the batch renderers keep every item).  For a payload that holds a
    list of items, each renderer produces its markup exactly when every
    item renders (and, for the ComfyUI batch, the message converts to a
    string), and the markup is then the frame written out below around the
    concatenation of one entry per item, in the order of the list: no item
    is dropped and none is moved.  The entry of an item is written out as
    well: it carries the French name of the sign and, for a failed item,
    the error message next to it, so that the name of every failed item
    occurs in the markup together with its error.  (That identical lists
    give identical markup needs no proof: the renderers read nothing but
    the payload.) *)
Theorem batch_rendering_keeps_every_item S :
  (forall data items html,
     get data "results" = Normal (VArr items) ->
     createComfyUIBatchResultHTML S data = Normal html <->
     exists entries text,
       Forall2 (fun res entry => batch_result_item S res = Normal entry) items entries
       /\ length entries = length items
       /\ cbind (get data "message") ToString = Normal text
       /\ html = nl +:+ "        <div class=" +:+ dq +:+ "horoscope-result" +:+ dq +:+ ">"
                 +:+ nl +:+ "            <h3 style=" +:+ dq +:+ "color: #00ff41;" +:+ dq
                 +:+ ">Batch ComfyUI Terminé !</h3>"
                 +:+ nl +:+ "            <p>" +:+ text +:+ "</p>"
                 +:+ nl +:+ "            <ul class=" +:+ dq +:+ "batch-results-list" +:+ dq +:+ ">"
                 +:+ String.concat EmptyString entries +:+ "</ul>"
                 +:+ nl +:+ "        </div>")
  /\ (forall response items html,
        get response "details" = Normal (VArr items) ->
        upload_results_html response = Normal html <->
        exists entries,
          Forall2 (fun res entry => upload_result_item res = Normal entry) items entries
          /\ length entries = length items
          /\ html = "<div class=" +:+ dq +:+ "horoscope-result" +:+ dq
                    +:+ "><h3>Résultats de l'Upload Batch</h3>"
                    +:+ String.concat EmptyString entries +:+ "</div>")
  /\ (forall res key name success,
        get res "sign" = Normal (VStr key) ->
        table_lookup signNames key = Some name ->
        get res "success" = Normal success ->
        if truthy success
        then upload_result_item res = Normal ("<p>✅ " +:+ name +:+ ": OK</p>")
             /\ forall result file_size size,
                  get res "result" = Normal result ->
                  get result "file_size" = Normal file_size ->
                  formatFileSize S file_size = Normal size ->
                  batch_result_item S res
                  = Normal ("<li class=" +:+ dq +:+ "success" +:+ dq +:+ ">"
                            +:+ nl +:+ "            <strong>" +:+ name +:+ ":</strong> "
                            +:+ nl +:+ "            " +:+ ("Réussi (" +:+ size +:+ ")")
                            +:+ nl +:+ "        </li>")
        else forall error reason,
               get res "error" = Normal error ->
               ToString error = Normal reason ->
               batch_result_item S res
               = Normal ("<li class=" +:+ dq +:+ "error" +:+ dq +:+ ">"
                         +:+ nl +:+ "            <strong>" +:+ name +:+ ":</strong> "
                         +:+ nl +:+ "            " +:+ "Échoué - " +:+ reason
                         +:+ nl +:+ "        </li>")
               /\ upload_result_item res = Normal ("<p>❌ " +:+ name +:+ ": " +:+ reason +:+ "</p>"))
  /\ (forall items i res key name success error reason,
        items !! i = Some res ->
        get res "sign" = Normal (VStr key) ->
        table_lookup signNames key = Some name ->
        get res "success" = Normal success ->
        truthy success = false ->
        get res "error" = Normal error ->
        ToString error = Normal reason ->
        (forall data html,
           get data "results" = Normal (VArr items) ->
           createComfyUIBatchResultHTML S data = Normal html ->
           occurs (name +:+ ":</strong> " +:+ nl +:+ "            " +:+ "Échoué - " +:+ reason)
             html)
        /\ (forall response html,
              get response "details" = Normal (VArr items) ->
              upload_results_html response = Normal html ->
              occurs ("❌ " +:+ name +:+ ": " +:+ reason) html)).
Proof.
  assert (Hbatch : forall data items html,
             get data "results" = Normal (VArr items) ->
             createComfyUIBatchResultHTML S data = Normal html <->
             exists entries text,
               Forall2 (fun res entry => batch_result_item S res = Normal entry) items entries
               /\ length entries = length items
               /\ cbind (get data "message") ToString = Normal text
               /\ html = batch_result_markup text (String.concat EmptyString entries)).
  { intros data items html Hres. unfold createComfyUIBatchResultHTML. rewrite Hres. simpl.
    split.
    + destruct (map_completion (batch_result_item S) items) as [entries|] eqn:Hmap;
        simpl; [|done].
      apply map_completion_Forall2 in Hmap.
      destruct (get data "message") as [message|]; simpl; [|done].
      destruct (ToString message) as [text|]; simpl; [|done].
      intros [= <-]. exists entries, text.
      split_and!; [done | by apply Forall2_length in Hmap | done..].
    + intros (entries & text & Hall & _ & Htext & ->).
      apply map_completion_Forall2 in Hall. rewrite Hall. simpl.
      destruct (get data "message") as [message|]; simpl in *; [|done].
      by rewrite Htext. }
  assert (Hupload : forall response items html,
             get response "details" = Normal (VArr items) ->
             upload_results_html response = Normal html <->
             exists entries,
               Forall2 (fun res entry => upload_result_item res = Normal entry) items entries
               /\ length entries = length items
               /\ html = upload_results_header +:+ String.concat EmptyString entries
                           +:+ "</div>").
  { intros response items html Hdet. unfold upload_results_html. rewrite Hdet.
    cbn [cbind elements_of]. split.
    + destruct (map_completion upload_result_item items) as [entries|] eqn:Hmap;
        cbn [cbind]; [|done].
      apply map_completion_Forall2 in Hmap.
      intros [= <-]. exists entries.
      split_and!; [done | by apply Forall2_length in Hmap |].
      by rewrite fold_left_append, append_assoc.
    + intros (entries & Hall & _ & ->).
      apply map_completion_Forall2 in Hall. rewrite Hall. cbn [cbind].
      by rewrite fold_left_append, append_assoc. }
  assert (Hfailed : forall res key name success error reason,
             get res "sign" = Normal (VStr key) ->
             table_lookup signNames key = Some name ->
             get res "success" = Normal success ->
             truthy success = false ->
             get res "error" = Normal error ->
             ToString error = Normal reason ->
             batch_result_item S res
             = Normal ("<li class=" +:+ dq +:+ "error" +:+ dq +:+ ">"
                       +:+ nl +:+ "            <strong>" +:+ name +:+ ":</strong> "
                       +:+ nl +:+ "            " +:+ "Échoué - " +:+ reason
                       +:+ nl +:+ "        </li>")
             /\ upload_result_item res
                = Normal ("<p>❌ " +:+ name +:+ ": " +:+ reason +:+ "</p>")).
  { intros res key name success error reason Hsign Hname Hsucc Hfalsy Herr Hreason.
    unfold batch_result_item, upload_result_item, signName.
    rewrite Hsucc, Hsign. cbn [cbind ToString]. rewrite Hname. cbn [cbind].
    rewrite Hfalsy, Herr. cbn [cbind]. by rewrite Hreason. }
  split_and!.
  - intros data items html Hres. rewrite (Hbatch data items html Hres).
    split; intros (entries & text & Hall & Hlen & Htext & ->); by exists entries, text.
  - intros response items html Hdet. rewrite (Hupload response items html Hdet).
    split; intros (entries & Hall & Hlen & ->); by exists entries.
  - intros res key name success Hsign Hname Hsucc.
    destruct (truthy success) eqn:Htruthy.
    + split.
      * unfold upload_result_item, signName.
        rewrite Hsucc, Hsign. cbn [cbind ToString]. rewrite Hname. cbn [cbind].
        by rewrite Htruthy.
      * intros result file_size size Hresult Hsize Hformat.
        unfold batch_result_item, signName.
        rewrite Hsucc, Hsign. cbn [cbind ToString]. rewrite Hname. cbn [cbind].
        rewrite Htruthy, Hresult. cbn [cbind]. rewrite Hsize. cbn [cbind].
        by rewrite Hformat.
    + intros error reason Herr Hreason. by apply (Hfailed res key name success error reason).
  - intros items i res key name success error reason Hi Hsign Hname Hsucc Hfalsy Herr Hreason.
    destruct (Hfailed res key name success error reason Hsign Hname Hsucc Hfalsy Herr Hreason)
      as [Hli Hp].
    split.
    + intros data html Hres Hhtml.
      apply (Hbatch data items html Hres) in Hhtml as (entries & text & Hall & _ & _ & ->).
      destruct (entry_of_item _ _ _ _ _ Hall Hi) as (entry & Hentry & _ & Hin).
      rewrite Hli in Hentry. injection Hentry as <-.
      unfold batch_result_markup.
      skip_to (String.concat EmptyString entries). skip_the_rest.
      apply (occurs_concat _ _ _ Hin).
      skip_to name.
      exists EmptyString, (nl +:+ "        </li>").
      by rewrite !append_assoc.
    + intros response html Hdet Hhtml.
      apply (Hupload response items html Hdet) in Hhtml as (entries & Hall & _ & ->).
      destruct (entry_of_item _ _ _ _ _ Hall Hi) as (entry & Hentry & _ & Hin).
      rewrite Hp in Hentry. injection Hentry as <-.
      skip_to (String.concat EmptyString entries). skip_the_rest.
      apply (occurs_concat _ _ _ Hin).
      apply (occurs_after "<p>").
      exists EmptyString, "</p>". by rewrite !append_assoc.
Qed.

Lemma batch_rendering_keeps_every_item_witness :
  let leo := VObj [("sign", VStr "leo"); ("success", VBool false); ("error", VStr "timeout")] in
  let aries := VObj [("sign", VStr "aries"); ("success", VBool true);
                     ("result", VObj [("file_size", VNum 1536)])] in
  get two_results "results" = Normal (VArr [aries; leo])
  /\ batch_result_item no_number leo
     = Normal ("<li class=" +:+ dq +:+ "error" +:+ dq +:+ ">"
               +:+ nl +:+ "            <strong>Lion:</strong> "
               +:+ nl +:+ "            Échoué - timeout"
               +:+ nl +:+ "        </li>")
  /\ batch_result_item no_number aries
     = Normal ("<li class=" +:+ dq +:+ "success" +:+ dq +:+ ">"
               +:+ nl +:+ "            <strong>Bélier:</strong> "
               +:+ nl +:+ "            Réussi (1.5 KB)"
               +:+ nl +:+ "        </li>")
  /\ (exists html, createComfyUIBatchResultHTML no_number two_results = Normal html
                   /\ occurs ("Lion" +:+ ":</strong> " +:+ nl +:+ "            "
                                +:+ "Échoué - " +:+ "timeout") html).
Proof.
  intros leo aries.
  pose proof (batch_rendering_keeps_every_item no_number) as (_ & _ & Hentry & Hoccurs).
  split_and!.
  - reflexivity.
  - exact (proj1 (Hentry leo "leo" "Lion" (VBool false) eq_refl eq_refl eq_refl
                    (VStr "timeout") "timeout" eq_refl eq_refl)).
  - exact (proj2 (Hentry aries "aries" "Bélier" (VBool true) eq_refl eq_refl eq_refl)
             (VObj [("file_size", VNum 1536)]) (VNum 1536) "1.5 KB"
             eq_refl eq_refl eq_refl).
  - destruct (createComfyUIBatchResultHTML no_number two_results) as [html|] eqn:Hhtml;
      [|vm_compute in Hhtml; discriminate Hhtml].
    exists html. split; [done|].
    exact (proj1 (Hoccurs [aries; leo] 1%nat leo "leo" "Lion" (VBool false) (VStr "timeout")
                    "timeout" eq_refl eq_refl eq_refl eq_refl eq_refl eq_refl eq_refl)
             two_results html eq_refl Hhtml).
Defined.

(** * Further properties *)

(** ** [formatFileSize] *)

(** X1 (sizes in bytes).  On a number of bytes that is an integer below
    2^53 in magnitude, [formatFileSize] never throws.  Below 1024 (negative
    numbers included) it prints the number itself, followed by [B]; from
    1024 on it prints a number of tenths of the unit, KB below 1048576 and
    MB from there on, that is at least 1.0, and that differs from the exact
    size by at most a twentieth of the unit; in KB it can reach 1024.0 and
    goes no further. *)
Theorem formatFileSize_of_a_size S n :
  safe_integer n ->
  exists text,
    formatFileSize S (VNum n) = Normal text
    /\ (if n <? 1024 then (text = pretty n +:+ " B")
        else exists tenths,
            text = (pretty (tenths / 10) +:+ "." +:+ pretty (tenths mod 10))
                     +:+ (if n <? 1048576 then " KB" else " MB")
            /\ 10 <= tenths
            /\ 0 <= tenths mod 10 <= 9
            /\ Z.abs (10 * n - (if n <? 1048576 then 1024 else 1048576) * tenths) * 2
               <= (if n <? 1048576 then 1024 else 1048576)
            /\ ((n <? 1048576) = true -> tenths <= 10240)).
Proof.
  intros _.
  unfold formatFileSize, less_than, ToNumber. cbn [cbind ToString].
  destruct (n <? 1024) eqn:Hsmall.
  - eexists. split; reflexivity.
  - apply Z.ltb_ge in Hsmall.
    destruct (n <? 1048576) eqn:Hmedium; eexists; (split; [reflexivity|]); unfold toFixed1.
    + apply Z.ltb_lt in Hmedium.
      exists ((20 * n + 1024) / (2 * 1024)). split; [reflexivity|].
      pose proof (Z.mul_div_le (20 * n + 1024) (2 * 1024) ltac:(lia)).
      pose proof (Z.mul_succ_div_gt (20 * n + 1024) (2 * 1024) ltac:(lia)).
      pose proof (Z.mod_pos_bound ((20 * n + 1024) / (2 * 1024)) 10 ltac:(lia)).
      split_and!; lia.
    + apply Z.ltb_ge in Hmedium.
      exists ((20 * n + 1048576) / (2 * 1048576)). split; [reflexivity|].
      pose proof (Z.mul_div_le (20 * n + 1048576) (2 * 1048576) ltac:(lia)).
      pose proof (Z.mul_succ_div_gt (20 * n + 1048576) (2 * 1048576) ltac:(lia)).
      pose proof (Z.mod_pos_bound ((20 * n + 1048576) / (2 * 1048576)) 10 ltac:(lia)).
      split_and!; lia.
Qed.

Lemma formatFileSize_of_a_size_witness :
  safe_integer 1048575
  /\ exists text tenths,
       formatFileSize no_number (VNum 1048575) = Normal text
       /\ text = (pretty (tenths / 10) +:+ "." +:+ pretty (tenths mod 10)) +:+ " KB"
       /\ tenths <= 10240.
Proof.
  assert (Hsafe : safe_integer 1048575) by reflexivity.
  split; [exact Hsafe|].
  destruct (formatFileSize_of_a_size no_number 1048575 Hsafe) as (text & Hrun & Hshape).
  change (exists tenths,
             text = (pretty (tenths / 10) +:+ "." +:+ pretty (tenths mod 10)) +:+ " KB"
             /\ 10 <= tenths
             /\ 0 <= tenths mod 10 <= 9
             /\ Z.abs (10 * 1048575 - 1024 * tenths) * 2 <= 1024
             /\ (true = true -> tenths <= 10240)) in Hshape.
  destruct Hshape as (tenths & Htext & _ & _ & _ & Hcap).
  exists text, tenths. split_and!; [exact Hrun | exact Htext | exact (Hcap eq_refl)].
Defined.

(** The last size printed in KB: one byte short of a MB reads 1024.0 KB. *)
Example formatFileSize_at_the_bounds :
  formatFileSize no_number (VNum 1023) = Normal "1023 B"
  /\ formatFileSize no_number (VNum 1024) = Normal "1.0 KB"
  /\ formatFileSize no_number (VNum 1048575) = Normal "1024.0 KB"
  /\ formatFileSize no_number (VNum 1048576) = Normal "1.0 MB".
Proof. vm_compute. done. Qed.

(** ** [makeApiRequest], continued *)

Lemma dispatched_app evs evs' : dispatched (evs ++ evs') = dispatched evs ++ dispatched evs'.
Proof. apply omap_app. Qed.

Lemma dispatched_written t page id f : dispatched (stamp t (written page id f)) = [].
Proof. unfold written. by destruct (page !! id). Qed.

Lemma envelope_dispatched endpoint options loadingId resultId r t0 page :
  dispatched (envelope_journal endpoint options loadingId resultId r t0 page)
  = [(endpoint, options)].
Proof.
  unfold envelope_journal.
  rewrite !stamp_app, !dispatched_app, !dispatched_written. simpl.
  assert (dispatched
            (stamp (t0 + envelope_duration r)
               match envelope_completion r with
               | Normal _ => []
               | Throw error =>
                   ConsoleError ("Erreur API pour " +:+ endpoint +:+ ":") error
                   :: written (page_in_flight loadingId resultId page) resultId
                        (set_innerHTML (error_markup (exn_message error)))
               end) = []) as ->.
  { destruct (envelope_completion r); [done|]. simpl.
    apply (dispatched_written (t0 + envelope_duration r)). }
  by destruct (outcome r).
Qed.

(** X2 (one request per call).  Whatever the reply, one call of
    [makeApiRequest] dispatches exactly one request, the one it was asked
    for: a failure is reported and never retried. *)
Theorem makeApiRequest_asks_once env endpoint options loadingId resultId w :
  dispatched (effects (makeApiRequest env endpoint options loadingId resultId) w)
  = [(endpoint, options)].
Proof. rewrite makeApiRequest_effects. apply envelope_dispatched. Qed.

(** X3 (the envelope is local).  Whatever the reply, [makeApiRequest]
    leaves [appState] and [localStorage] as they are, neither adds an
    element to the page nor removes one, and leaves every element other than
    its loading indicator and its result target untouched; an id that names
    no element is no obstacle, the writes to it are skipped. *)
Theorem makeApiRequest_is_local env endpoint options loadingId resultId w :
  appState (snd (makeApiRequest env endpoint options loadingId resultId w)) = appState w
  /\ localStorage (snd (makeApiRequest env endpoint options loadingId resultId w))
     = localStorage w
  /\ forall id,
       (document (snd (makeApiRequest env endpoint options loadingId resultId w)) !! id = None
        <-> document w !! id = None)
       /\ ((id <> loadingId /\ id <> resultId) \/ document w !! id = None ->
           document (snd (makeApiRequest env endpoint options loadingId resultId w)) !! id
           = document w !! id).
Proof.
  destruct (keeps_makeApiRequest env endpoint options loadingId resultId w)
    as (Happ & Hsto & Hdom).
  split_and!; [done..|]. intros id. split; [apply Hdom|].
  intros [[Hl Hr] | Hnone].
  - rewrite makeApiRequest_run. simpl. unfold page_settled, page_reported, page_in_flight.
    rewrite lookup_alter_ne by done.
    destruct (envelope_completion _); rewrite !lookup_alter_ne by done; done.
  - rewrite Hnone. by apply Hdom.
Qed.

Lemma makeApiRequest_is_local_witness :
  document (snd (makeApiRequest backend_down "/api/youtube/upload_batch" None
                   "video-loading" "video-result" video_section)) !! "video-format"
  = document video_section !! "video-format".
Proof.
  apply (proj2 (proj2 (proj2 (makeApiRequest_is_local backend_down "/api/youtube/upload_batch"
                                None "video-loading" "video-result" video_section))
                  "video-format")).
  left. split; discriminate.
Defined.

(** ** Requests: how many a piece of the script dispatches *)

Create HintDb requests.

Lemma asks_weaken {A} n n' (m : M A) : asks n m -> (n <= n')%nat -> asks n' m.
Proof. intros Hm Hle w. destruct (Hm w) as (evs & Hj & Hn). exists evs. split; [done|lia]. Qed.

(** A step that leaves the journal alone asks nothing. *)
Lemma asks_nothing {A} (m : M A) : (forall w, journal (snd (m w)) = journal w) -> asks 0 m.
Proof. intros Hm w. exists []. rewrite Hm, app_nil_r. by split. Qed.

Lemma asks_bind {A B} a b (m : M A) (k : A -> M B) :
  asks a m -> (forall x, asks b (k x)) -> asks (a + b) (bind m k).
Proof.
  intros Hm Hk w. unfold bind. destruct (Hm w) as (evs & Hj & Hn).
  destruct (m w) as [[x|e] w1]; simpl in *.
  - destruct (Hk x w1) as (evs' & Hj' & Hn'). exists (evs ++ evs').
    rewrite Hj', Hj, app_assoc, dispatched_app, length_app. split; [done|lia].
  - exists evs. split; [done|lia].
Qed.

Lemma asks_try_catch {A} a b (body : M A) handler :
  asks a body -> (forall e, asks b (handler e)) -> asks (a + b) (try_catch body handler).
Proof.
  intros Hb Hh w. unfold try_catch. destruct (Hb w) as (evs & Hj & Hn).
  destruct (body w) as [[x|e] w1]; simpl in *.
  - exists evs. split; [done|lia].
  - destruct (Hh e w1) as (evs' & Hj' & Hn'). exists (evs ++ evs').
    rewrite Hj', Hj, app_assoc, dispatched_app, length_app. split; [done|lia].
Qed.

Lemma asks_try_finally {A} a b (body : M A) cleanup :
  asks a body -> asks b cleanup -> asks (a + b) (try_finally body cleanup).
Proof.
  intros Hb Hc w. unfold try_finally. destruct (Hb w) as (evs & Hj & Hn).
  destruct (body w) as [c w1]; simpl in *.
  destruct (Hc w1) as (evs' & Hj' & Hn').
  destruct (cleanup w1) as [[[]|e] w2]; simpl in *; exists (evs ++ evs');
    rewrite Hj', Hj, app_assoc, dispatched_app, length_app; (split; [done|lia]).
Qed.

Lemma asks_record ev : (forall endpoint options, ev <> Fetch endpoint options) -> asks 0 (record ev).
Proof.
  intros Hev w. exists [(clock w, ev)]. split; [done|].
  destruct ev; simpl; try lia. by destruct (Hev endpoint options).
Qed.

Lemma asks_await {A} (p : promise A) : asks 0 (await p).
Proof. intros w. by exists [(clock w, Suspended (document w))]. Qed.

Lemma asks_update id f : asks 0 (update id f).
Proof.
  intros w. rewrite update_run. simpl. eexists. split; [done|].
  by rewrite dispatched_written.
Qed.

Lemma asks_fetch env endpoint options : asks 1 (fetch env endpoint options).
Proof. intros w. by exists [(clock w, Fetch endpoint options)]. Qed.

Lemma asks_makeApiRequest env endpoint options loadingId resultId :
  asks 1 (makeApiRequest env endpoint options loadingId resultId).
Proof.
  intros w. rewrite makeApiRequest_run. simpl. eexists. split; [done|].
  by rewrite envelope_dispatched.
Qed.

#[local] Hint Resolve asks_await asks_update : requests.
#[local] Hint Extern 1 (asks 0 (ret _)) => by apply asks_nothing : requests.
#[local] Hint Extern 1 (asks 0 (throw _)) => by apply asks_nothing : requests.
#[local] Hint Extern 1 (asks 0 (lift _)) => by apply asks_nothing : requests.
#[local] Hint Extern 1 (asks 0 now) => by apply asks_nothing : requests.
#[local] Hint Extern 1 (asks 0 (getElementById _)) => by apply asks_nothing : requests.
#[local] Hint Extern 1 (asks 0 (read_value _)) =>
  apply asks_nothing; intros ?; unfold read_value; by repeat case_match : requests.
#[local] Hint Extern 1 (asks 0 (getItem_or _ _)) => by apply asks_nothing : requests.
#[local] Hint Extern 1 (asks 0 get_selectedModel) => by apply asks_nothing : requests.
#[local] Hint Extern 1 (asks 0 (set_selectedModel _)) => by apply asks_nothing : requests.
#[local] Hint Extern 1 (asks 0 (set_availableModels _)) => by apply asks_nothing : requests.
#[local] Hint Extern 1 (asks 0 (setItem _ _)) => by apply asks_nothing : requests.
#[local] Hint Extern 1 (asks 0 models_count) => by apply asks_nothing : requests.
#[local] Hint Extern 1 (asks 0 (json _)) => by apply asks_nothing : requests.
#[local] Hint Extern 1 (asks 0 (record _)) =>
  apply asks_record; intros ??; discriminate : requests.
#[local] Hint Extern 1 (asks 0 (alert _)) =>
  apply asks_record; intros ??; discriminate : requests.
#[local] Hint Extern 2 (asks 0 (when_present ?t _)) =>
  destruct t; simpl : requests.
#[local] Hint Extern 2 (asks 0 (assign ?t _ _)) => destruct t; simpl : requests.
#[local] Hint Extern 2 (asks 0 (invoke ?t _ _)) => destruct t; simpl : requests.
#[local] Hint Extern 2 (asks 0 (bind _ _)) => apply (asks_bind 0 0); [|intros ?] : requests.
#[local] Hint Extern 3 (asks _ (if ?b then _ else _)) => destruct b : requests.

Lemma asks_confirm env text : asks 0 (confirm env text).
Proof. unfold confirm. auto with requests. Qed.

Lemma asks_timer delay : asks 0 (timer delay).
Proof. unfold timer. auto with requests. Qed.

Lemma asks_for_each {A} (f : A -> M unit) l :
  (forall x, asks 0 (f x)) -> asks 0 (for_each f l).
Proof. intros Hf. induction l; simpl; auto with requests. Qed.

Lemma asks_forEach what array (f : jsval -> M unit) :
  (forall x, asks 0 (f x)) -> asks 0 (forEach what array f).
Proof. intros Hf. destruct array; simpl; auto using asks_for_each with requests. Qed.

Lemma asks_add_model_option modelSelect model : asks 0 (add_model_option modelSelect model).
Proof. unfold add_model_option. auto 10 with requests. Qed.

#[local] Hint Resolve asks_confirm asks_timer asks_for_each asks_forEach
  asks_add_model_option : requests.

(** A piece that asks nothing, followed by one that asks once; one that
    asks once, followed by pieces that ask nothing. *)
Lemma asks_after {A B} (m : M A) (k : A -> M B) :
  asks 0 m -> (forall x, asks 1 (k x)) -> asks 1 (bind m k).
Proof. apply (asks_bind 0 1). Qed.

Lemma asks_before {A B} (m : M A) (k : A -> M B) :
  asks 1 m -> (forall x, asks 0 (k x)) -> asks 1 (bind m k).
Proof. apply (asks_bind 1 0). Qed.

Lemma asks_if_any {A} (m : M A) : asks 0 m -> asks 1 m.
Proof. intros H. apply (asks_weaken 0); [done|lia]. Qed.

(** Reads the goal [asks 1 m] off the shape of [m]. *)
Ltac ask_nothing := solve [auto 40 with requests].

Ltac ask_once :=
  lazymatch goal with
  | |- asks 0 _ => ask_nothing
  | |- asks 1 (makeApiRequest _ _ _ _ _) => apply asks_makeApiRequest
  | |- asks 1 (fetch _ _ _) => apply asks_fetch
  | |- asks 1 (bind _ _) =>
      first [ apply asks_after; [ask_nothing | intros ?; ask_once]
            | apply asks_before; [ask_once | intros ?; ask_nothing] ]
  | |- asks 1 (if ?b then _ else _) => destruct b; ask_once
  | |- asks 1 (try_catch _ _) =>
      apply (asks_try_catch 1 0); [ask_once | intros ?; ask_nothing]
  | |- asks 1 _ => apply asks_if_any; ask_nothing
  end.

Lemma asks_handler S P env h : asks 1 (handle_event S P env h).
Proof.
  destruct h as [| | |[]|[]|[]|]; simpl;
    unfold loadAvailableModels, refresh_models, changeModel, checkSystemHealth,
      getAstralContext,
      checkComfyUIStatus, checkYouTubeStatus, generateComfyUIBatchVideos,
      generateFullMontage, uploadBatchToYouTube, generateIndividualHoroscope,
      generateComfyUIVideo, generateSingleSignMontage, uploadCurrentSignToYouTube,
      uploadCurrentSignToTikTok;
    ask_once.
Qed.

(** X4 (one request per event).  Whatever the page, the replies and the
    answers of the user, one run of any of the fourteen asynchronous
    functions modelled dispatches at most one request: nothing is retried,
    and no flow chains a second request after the first. *)
Theorem one_request_per_event S P env h w :
  (length (dispatched (effects (handle_event S P env h) w)) <= 1)%nat.
Proof.
  destruct (asks_handler S P env h w) as (evs & Hj & Hn).
  unfold effects. by rewrite Hj, drop_app_length.
Qed.

(** ** Who writes the stores *)

Create HintDb storage.

Lemma preserves_bind {X A B} (field : world -> X) (m : M A) (k : A -> M B) :
  preserves field m -> (forall x, preserves field (k x)) -> preserves field (bind m k).
Proof.
  intros Hm Hk w. unfold bind. specialize (Hm w).
  destruct (m w) as [[x|e] w1]; simpl in *; [|done]. by rewrite Hk.
Qed.

Lemma preserves_try_catch {X A} (field : world -> X) (body : M A) handler :
  preserves field body -> (forall e, preserves field (handler e)) ->
  preserves field (try_catch body handler).
Proof.
  intros Hb Hh w. unfold try_catch. specialize (Hb w).
  destruct (body w) as [[x|e] w1]; simpl in *; [done|]. by rewrite Hh.
Qed.

Lemma stored_of_stores {A} (m : M A) : keeps_stores m -> preserves localStorage m.
Proof. intros H w. apply H. Qed.

Lemma listed_of_stores {A} (m : M A) : keeps_stores m -> preserves listed m.
Proof. intros H w. unfold listed. by destruct (H w) as (-> & _). Qed.

Lemma elements_of_stores {A} (m : M A) : keeps_stores m -> preserves elements m.
Proof.
  intros H w. destruct (H w) as (_ & _ & Hdom). unfold elements.
  apply set_eq. intros id. rewrite !elem_of_dom, <- !not_eq_None_Some. by rewrite Hdom.
Qed.

Lemma elements_set_selectedModel v : preserves elements (set_selectedModel v).
Proof. by intros w. Qed.

Lemma elements_set_availableModels v : preserves elements (set_availableModels v).
Proof. by intros w. Qed.

Lemma stored_set_selectedModel v : preserves localStorage (set_selectedModel v).
Proof. by intros w. Qed.

Lemma stored_set_availableModels v : preserves localStorage (set_availableModels v).
Proof. by intros w. Qed.

Lemma listed_set_selectedModel v : preserves listed (set_selectedModel v).
Proof. by intros w. Qed.

#[local] Hint Resolve stored_set_selectedModel stored_set_availableModels
  listed_set_selectedModel elements_set_selectedModel elements_set_availableModels : storage.
#[local] Hint Extern 2 (preserves _ (bind _ _)) =>
  apply preserves_bind; [|intros ?] : storage.
#[local] Hint Extern 2 (preserves _ (try_catch _ _)) =>
  apply preserves_try_catch; [|intros ?] : storage.
#[local] Hint Extern 3 (preserves _ (if ?b then _ else _)) => destruct b : storage.
#[local] Hint Extern 9 (preserves localStorage _) =>
  apply stored_of_stores; solve [auto 20 with frame] : storage.
#[local] Hint Extern 9 (preserves listed _) =>
  apply listed_of_stores; solve [auto 20 with frame] : storage.
#[local] Hint Extern 9 (preserves elements _) =>
  apply elements_of_stores; solve [auto 20 with frame] : storage.

Lemma keeps_checkSystemHealth env : keeps_stores (checkSystemHealth env).
Proof. unfold checkSystemHealth. auto 30 with frame. Qed.

Lemma keeps_probe env p : keeps_stores (probe env p).
Proof.
  destruct p; simpl; unfold checkComfyUIStatus, checkYouTubeStatus; auto 30 with frame.
Qed.

Lemma keeps_launch S env b : keeps_stores (launch S env b).
Proof.
  destruct b; simpl;
    unfold generateComfyUIBatchVideos, generateFullMontage, uploadBatchToYouTube;
    auto 40 with frame.
Qed.

Lemma keeps_start S P env f : keeps_stores (start S P env f).
Proof.
  destruct f; simpl;
    unfold generateIndividualHoroscope, generateComfyUIVideo, generateSingleSignMontage,
      uploadCurrentSignToYouTube, uploadCurrentSignToTikTok;
    auto 60 with frame.
Qed.

(** X5 (who writes the stores).  Of the asynchronous functions modelled,
    only [loadAvailableModels] and [changeModel] ever change the selected
    model and the list of models of [appState], and only [changeModel]
    writes [localStorage]: every other one leaves both as they are and
    neither adds nor removes an element, and [loadAvailableModels], whatever
    it lists and whatever it falls back to, persists nothing. *)
Theorem stores_have_two_writers S P env :
  (forall h, h <> LoadModels -> h <> ChangeModel -> keeps_stores (handle_event S P env h))
  /\ preserves localStorage (loadAvailableModels S env).
Proof.
  split.
  - intros [| | |p|b|f|] Hl Hc; simpl; try done.
    + apply keeps_checkSystemHealth.
    + apply keeps_probe.
    + apply keeps_launch.
    + apply keeps_start.
    + unfold getAstralContext. auto 40 with frame.
  - unfold loadAvailableModels, refresh_models. auto 60 with storage.
Qed.

Lemma stores_have_two_writers_witness :
  keeps_stores (handle_event no_number no_number backend_down (Probe YouTube)).
Proof.
  apply (proj1 (stores_have_two_writers no_number no_number backend_down) (Probe YouTube));
    discriminate.
Defined.

(** ** The health check and the status probes *)

Lemma alerts_app evs evs' : alerts (evs ++ evs') = alerts evs ++ alerts evs'.
Proof. apply omap_app. Qed.

Lemma strict_eq_refl_string s : strict_eq (VStr s) (VStr s) = true.
Proof. simpl. apply String.eqb_refl. Qed.

(** X6 (the health check).  [checkSystemHealth] never rejects: it dispatches
    one request to [/health] and is fulfilled with a boolean, which is
    [true] exactly when the request was answered, the body was parsed and
    its [status] is the string [healthy]; the HTTP status of the answer
    plays no part. *)
Theorem health_is_a_boolean env w :
  dispatched (effects (checkSystemHealth env) w) = [("/health", None)]
  /\ exists b,
       fst (checkSystemHealth env w) = Normal (VBool b)
       /\ (b = true <->
           exists response data,
             outcome (network env "/health" None) = Normal response
             /\ json_result response = Normal data
             /\ get data "status" = Normal (VStr "healthy")).
Proof.
  unfold effects, checkSystemHealth, try_catch, bind, fetch, record, now, ret, await, json,
    lift.
  simpl.
  destruct (network env "/health" None) as [lat [response|e]]; simpl.
  - destruct (json_result response) as [data|e] eqn:Hjson; simpl.
    + destruct (get data "status") as [health|e] eqn:Hhealth; simpl.
      * split; [by rewrite <- !app_assoc, drop_app_length|].
        exists (strict_eq health (VStr "healthy")). split; [done|]. split.
        -- intros H%strict_eq_eq. subst. by exists response, data.
        -- intros (? & ? & [= <-] & Hj & H). rewrite Hjson in Hj. injection Hj as <-.
           rewrite Hhealth in H. injection H as ->. apply strict_eq_refl_string.
      * split; [by rewrite <- !app_assoc, drop_app_length|].
        exists false. split; [done|]. split; [done|].
        intros (? & ? & [= <-] & Hj & H). rewrite Hjson in Hj. injection Hj as <-.
        congruence.
    + split; [by rewrite <- !app_assoc, drop_app_length|].
      exists false. split; [done|]. split; [done|].
      intros (? & ? & [= <-] & H & _). congruence.
  - split; [by rewrite <- !app_assoc, drop_app_length|].
    exists false. split; [done|]. split; [done|].
    intros (? & ? & H & _). discriminate.
Qed.

Lemma health_is_a_boolean_witness :
  fst (checkSystemHealth (backend_answers 30 503 (VObj [("status", VStr "healthy")])) at_rest)
  = Normal (VBool true).
Proof.
  destruct (proj2 (health_is_a_boolean
                     (backend_answers 30 503 (VObj [("status", VStr "healthy")])) at_rest))
    as (b & Hrun & Hiff).
  rewrite Hrun. do 2 f_equal. apply Hiff.
  eexists _, _. split_and!; reflexivity.
Defined.

Lemma probe_run env p w :
  exists evs t,
    probe env p w
    = (Normal VUndefined,
       World (document w) (localStorage w) (appState w) t
             (journal w ++ (clock w, Fetch (probe_endpoint p) None) :: evs
                ++ [(t, Alert (probe_alert p (network env (probe_endpoint p) None)))]))
    /\ dispatched evs = [] /\ alerts evs = [].
Proof.
  unfold probe_alert, probe_completion.
  destruct p; simpl;
    unfold checkComfyUIStatus, checkYouTubeStatus, try_catch, bind, fetch, record, now, ret,
      await, json, lift, throw, alert;
    simpl;
    match goal with |- context [network env ?ep None] =>
      destruct (network env ep None) as [lat [response|e]] end; simpl;
    try (eexists [_], _; split; [by rewrite <- !app_assoc|done]);
    (destruct (json_result response) as [data|e]; simpl;
     [|eexists [_; _], _; split; [by rewrite <- !app_assoc|done]]);
    (destruct (get data "success") as [success|e]; simpl;
     [|eexists [_; _], _; split; [by rewrite <- !app_assoc|done]]);
    destruct (truthy success); simpl.
  - destruct (comfyui_status_message data); simpl;
      eexists [_; _], _; (split; [by rewrite <- !app_assoc|done]).
  - destruct (reported_error data); simpl;
      eexists [_; _], _; (split; [by rewrite <- !app_assoc|done]).
  - destruct (youtube_status_message data); simpl;
      eexists [_; _], _; (split; [by rewrite <- !app_assoc|done]).
  - destruct (reported_error data); simpl;
      eexists [_; _], _; (split; [by rewrite <- !app_assoc|done]).
Qed.

(** X7 (a probe always reports, once).  [checkComfyUIStatus] and
    [checkYouTubeStatus] never reject and write nothing to the page:
    whatever the reply, they dispatch one request and end with exactly one
    [alert], which shows the summary when the [try] block gets to build it
    and the message of what was thrown otherwise. *)
Theorem probe_reports_once env p w :
  fst (probe env p w) = Normal VUndefined
  /\ document (snd (probe env p w)) = document w
  /\ dispatched (effects (probe env p) w) = [(probe_endpoint p, None)]
  /\ exists message,
       alerts (effects (probe env p) w) = [message]
       /\ match probe_completion p (network env (probe_endpoint p) None) with
          | Normal summary => message = summary
          | Throw error => message = "❌ Erreur: " +:+ exn_message error
          end.
Proof.
  destruct (probe_run env p w) as (evs & t & Hrun & Hd & Ha).
  unfold effects. rewrite Hrun. simpl. rewrite drop_app_length.
  split_and!; [done..| |].
  - change ((clock w, Fetch (probe_endpoint p) None) :: evs ++ ?l)
      with ([(clock w, Fetch (probe_endpoint p) None)] ++ evs ++ l).
    by rewrite !dispatched_app, Hd.
  - eexists. split.
    + change ((clock w, Fetch (probe_endpoint p) None) :: evs ++ ?l)
        with ([(clock w, Fetch (probe_endpoint p) None)] ++ evs ++ l).
      rewrite !alerts_app, Ha. reflexivity.
    + unfold probe_alert. by destruct (probe_completion _ _).
Qed.

(** X8 (what a probe reports on failure).  When the service answers with a
    falsy [success], the probe shows the [error] of the payload after the
    prefix, whatever the HTTP status; a payload without [error] leaves the
    reason empty (there is no fallback on the status, unlike in
    [makeApiRequest]). *)
Theorem probe_failure_reason env p w response data success error reason :
  outcome (network env (probe_endpoint p) None) = Normal response ->
  json_result response = Normal data ->
  get data "success" = Normal success ->
  truthy success = false ->
  get data "error" = Normal error ->
  match error with
  | VUndefined => reason = EmptyString
  | _ => ToString error = Normal reason
  end ->
  alerts (effects (probe env p) w) = ["❌ Erreur: " +:+ reason].
Proof.
  intros Hout Hjson Hsucc Hfalsy Herr Hreason.
  destruct (probe_run env p w) as (evs & t & Hrun & Hd & Ha).
  unfold effects. rewrite Hrun. simpl. rewrite drop_app_length.
  change ((clock w, Fetch (probe_endpoint p) None) :: evs ++ ?l)
    with ([(clock w, Fetch (probe_endpoint p) None)] ++ evs ++ l).
  rewrite !alerts_app, Ha. simpl.
  unfold probe_alert, probe_completion. rewrite Hout. simpl. rewrite Hjson. simpl.
  rewrite Hsucc. simpl. rewrite Hfalsy. simpl.
  unfold reported_error. rewrite Herr. simpl.
  destruct error; first [by subst | by rewrite Hreason].
Qed.

Lemma probe_failure_reason_witness :
  let data := VObj [("success", VBool false)] in
  let env := backend_answers 30 500 data in
  outcome (network env (probe_endpoint YouTube) None) = Normal (Response 500 0 (Normal data))
  /\ get data "success" = Normal (VBool false)
  /\ get data "error" = Normal VUndefined
  /\ alerts (effects (probe env YouTube) at_rest) = ["❌ Erreur: " +:+ EmptyString].
Proof.
  split_and!; [reflexivity..|].
  exact (probe_failure_reason (backend_answers 30 500 (VObj [("success", VBool false)]))
           YouTube at_rest (Response 500 0 (Normal (VObj [("success", VBool false)])))
           (VObj [("success", VBool false)]) (VBool false) VUndefined EmptyString
           eq_refl eq_refl eq_refl eq_refl eq_refl eq_refl).
Defined.

(** ** The flows that work on one sign *)

Ltac unfold_start :=
  unfold generateIndividualHoroscope, generateComfyUIVideo, generateSingleSignMontage,
    uploadCurrentSignToYouTube, uploadCurrentSignToTikTok.

Ltac read_page w :=
  repeat match goal with
         | |- context [document w !! ?id] =>
             let H := fresh "Hfield" in
             destruct (document w !! id) eqn:H; simpl
         end.

(** X9 (a sign is required).  In each of the five flows that work on one
    sign, when the selector holds no sign the user is reminded to pick one
    and the function returns at once: nothing is asked, nothing is
    dispatched, and the page, the stores and the clock are as before. *)
Theorem sign_is_required S P env f w selector :
  Forall (fun id => is_Some (document w !! id)) (fields_read_first f) ->
  document w !! sign_selector f = Some selector ->
  value selector = EmptyString ->
  start S P env f w
  = (Normal VUndefined,
     World (document w) (localStorage w) (appState w) (clock w)
           (journal w ++ [(clock w, Alert (reminder f))])).
Proof.
  intros Hall Hsel Hval.
  destruct f; simpl in *;
    repeat match goal with
           | H : Forall _ (_ :: _) |- _ => apply Forall_cons in H as [[? ?] H]
           end;
    unfold_start;
    unfold bind, getElementById, read_value, handle, alert, record, ret;
    simpl; rewrite Hsel; simpl; rewrite Hsel, Hval; simpl;
    repeat match goal with
           | H : document w !! _ = Some _ |- _ => rewrite H; simpl
           end;
    reflexivity.
Qed.

Lemma sign_is_required_witness :
  start no_number no_number user_confirms SignToYouTube
    (World (<["video-sign" := Element [] [] EmptyString]> video_page) ∅ initialAppState 7 [])
  = (Normal VUndefined,
     World (<["video-sign" := Element [] [] EmptyString]> video_page) ∅ initialAppState 7
           [(7%nat, Alert "Veuillez sélectionner un signe astrologique.")]).
Proof.
  assert (Hall : Forall (fun id => is_Some
                           ((<["video-sign" := Element [] [] EmptyString]> video_page) !! id))
                   (fields_read_first SignToYouTube)).
  { repeat constructor. by eexists. }
  exact (sign_is_required no_number no_number user_confirms SignToYouTube
           (World (<["video-sign" := Element [] [] EmptyString]> video_page) ∅
                  initialAppState 7 [])
           (Element [] [] EmptyString) Hall eq_refl eq_refl).
Defined.

(** X10 (a missing field rejects the flow).  The flows read the fields of
    their form without testing that the page has them: when one of the
    fields read before the sign is examined is missing, the returned
    promise is rejected with a [TypeError], even if no sign is selected,
    and nothing has been shown, asked or dispatched. *)
Theorem missing_field_rejects S P env f w id :
  id ∈ fields_read_first f ->
  document w !! id = None ->
  exists e, start S P env f w = (Throw e, w) /\ exn_name e = "TypeError".
Proof.
  intros Hin Hnone.
  destruct f; simpl in Hin;
    repeat (apply elem_of_cons in Hin as [->|Hin]);
    try (by apply elem_of_nil in Hin);
    simpl; unfold_start;
    unfold bind, getElementById, read_value, handle, alert, record, ret;
    simpl; rewrite ?Hnone; simpl; read_page w; rewrite ?Hnone; simpl;
    first [congruence | by eexists].
Qed.

Lemma missing_field_rejects_witness :
  "seed-input" ∈ fields_read_first VideoClip
  /\ document video_section !! "seed-input" = None
  /\ exists e,
       start no_number no_number user_confirms VideoClip video_section = (Throw e, video_section)
       /\ exn_name e = "TypeError".
Proof.
  assert (Hin : "seed-input" ∈ fields_read_first VideoClip).
  { simpl. do 3 apply list_elem_of_further. apply list_elem_of_here. }
  split_and!; [exact Hin | reflexivity |].
  exact (missing_field_rejects no_number no_number user_confirms VideoClip video_section
           "seed-input" Hin eq_refl).
Defined.

(** X11 (no upload or montage of a sign without confirmation).  In the
    three flows that put a question ([generateSingleSignMontage] and the two
    uploads of the current sign), when a sign is selected and the user
    declines, the function returns at once, fulfilled with [undefined]: the
    question is the only effect, nothing is dispatched and nothing
    changes. *)
Theorem sign_flow_needs_confirmation S P env f w selector q :
  document w !! "video-sign" = Some selector ->
  value selector <> EmptyString ->
  sign_question f (value selector) = Some q ->
  confirm_answer env q = false ->
  start S P env f w
  = (Normal VUndefined,
     World (document w) (localStorage w) (appState w) (clock w)
           (journal w ++ [(clock w, Confirm q false)])).
Proof.
  intros Hsel Hsign Hq Hno.
  assert (Htruthy : negb (String.eqb (value selector) EmptyString) = true).
  { apply negb_true_iff, String.eqb_neq, Hsign. }
  destruct f; simpl in Hq; try discriminate; injection Hq as <-;
    simpl; unfold_start;
    unfold bind, getElementById, read_value, handle, confirm, alert, record, ret;
    simpl; rewrite Hsel; simpl; rewrite Hsel; simpl; rewrite Htruthy; simpl;
    rewrite Hno; reflexivity.
Qed.

Lemma sign_flow_needs_confirmation_witness :
  let w := World (<["video-sign" := Element [] [] "leo"]> video_page) ∅ initialAppState 7 [] in
  sign_question SignToTikTok "leo" = Some "Uploader la vidéo de Lion sur TikTok ?"
  /\ start no_number no_number user_declines SignToTikTok w
     = (Normal VUndefined,
        World (document w) ∅ initialAppState 7
              [(7%nat, Confirm "Uploader la vidéo de Lion sur TikTok ?" false)]).
Proof.
  split; [reflexivity|].
  assert (Hsign : value (Element [] [] "leo") <> EmptyString) by (simpl; discriminate).
  exact (sign_flow_needs_confirmation no_number no_number user_declines SignToTikTok
           (World (<["video-sign" := Element [] [] "leo"]> video_page) ∅ initialAppState 7 [])
           (Element [] [] "leo") "Uploader la vidéo de Lion sur TikTok ?"
           eq_refl Hsign eq_refl eq_refl).
Defined.

Lemma bind_run {A B} (m : M A) (k : A -> M B) w a w1 :
  m w = (Normal a, w1) -> bind m k w = k a w1.
Proof. intros H. unfold bind. by rewrite H. Qed.

(** Once the request has left, what follows in a flow dispatches nothing
    more. *)
Lemma envelope_then_silent {B} env endpoint options loadingId resultId (k : jsval -> M B)
    w pre mid :
  (forall x, asks 0 (k x)) ->
  journal w = pre ++ mid ->
  dispatched mid = [] ->
  dispatched (drop (length pre)
                (journal (snd (bind (makeApiRequest env endpoint options loadingId resultId)
                                 k w))))
  = [(endpoint, options)].
Proof.
  intros Hk Hj Hmid. unfold bind. rewrite makeApiRequest_run. cbv zeta.
  match goal with |- context [k ?x ?w1] => destruct (Hk x w1) as (evs & Hj' & Hn) end.
  rewrite Hj'. simpl. rewrite Hj, <- !app_assoc, drop_app_length.
  rewrite !dispatched_app, Hmid, envelope_dispatched.
  destruct (dispatched evs); [done|simpl in Hn; lia].
Qed.

Ltac same_element :=
  repeat match goal with
         | H1 : ?l = Some ?a, H2 : ?l = Some ?b |- _ =>
             rewrite H1 in H2; injection H2 as ?; subst
         end.

Ltac look_up :=
  repeat match goal with
         | H : document _ !! _ = Some _ |- _ => rewrite H
         end.

Ltac run_step :=
  erewrite bind_run;
  [cbv beta
  |unfold getElementById, read_value, handle, confirm, bind, record, ret; simpl;
   look_up; simpl; look_up; reflexivity].

Ltac then_silent w :=
  eapply (envelope_then_silent _ _ _ _ _ _ _ (journal w));
  [intros ?; ask_nothing | first [reflexivity | symmetry; apply app_nil_r] | reflexivity].

(** X12 (a valid flow sends the selected sign).  In each of the five
    flows that work on one sign: when the fields of the form are on the
    page, a sign is selected and the user says yes to the question (if the
    flow puts one), exactly one request is dispatched; it is a [POST]
    announced as JSON, the two uploads name the sign in the address, as it
    was read from the selector, and the three generations carry it in the
    payload. *)
Theorem valid_sign_flow_dispatches S P env f w selector :
  Forall (fun id => is_Some (document w !! id)) (fields_before_dispatch f) ->
  document w !! sign_selector f = Some selector ->
  value selector <> EmptyString ->
  (forall q, sign_question f (value selector) = Some q -> confirm_answer env q = true) ->
  exists options,
    dispatched (effects (start S P env f) w) = [(sign_endpoint f (value selector), Some options)]
    /\ method options = "POST"
    /\ headers options = [("Content-Type", "application/json")]
    /\ match f with
       | SignToYouTube => body options = Some (VObj [("privacy", VStr "private")])
       | SignToTikTok => body options = None
       | _ => exists payload,
                body options = Some payload
                /\ get payload "sign" = Normal (VStr (value selector))
       end.
Proof.
  intros Hall Hsel Hsign Hyes.
  assert (Htruthy : truthy (VStr (value selector)) = true).
  { apply negb_true_iff, String.eqb_neq, Hsign. }
  destruct f; simpl in Hall, Hsel, Hyes;
    repeat match goal with
           | H : Forall _ (_ :: _) |- _ => apply Forall_cons in H as [[? ?] H]
           end;
    same_element;
    try (specialize (Hyes _ eq_refl));
    unfold effects; simpl start; unfold_start; unfold post_json; simpl sign_endpoint.
  - do 4 run_step. rewrite Htruthy. cbn [negb].
    eexists. split; [then_silent w|]. simpl. eauto.
  - do 8 run_step. rewrite Htruthy. cbn [negb]. run_step.
    eexists. split; [then_silent w|]. simpl. eauto.
  - do 2 run_step. rewrite Htruthy. cbn [negb]. run_step. rewrite Hyes. cbn [negb].
    do 3 run_step.
    eexists. split; [then_silent w|]. simpl. eauto.
  - do 2 run_step. rewrite Htruthy. cbn [negb]. run_step. rewrite Hyes. cbn [negb].
    run_step.
    eexists. split; [then_silent w|]. simpl. eauto.
  - do 2 run_step. rewrite Htruthy. cbn [negb]. run_step. rewrite Hyes. cbn [negb].
    run_step.
    eexists. split; [then_silent w|]. simpl. eauto.
Qed.

Lemma valid_sign_flow_dispatches_witness :
  exists options,
    dispatched (effects (start no_number no_number user_confirms SignToYouTube)
                  (video_form "leo"))
    = [("/api/youtube/upload_sign/leo", Some options)]
    /\ method options = "POST"
    /\ headers options = [("Content-Type", "application/json")]
    /\ body options = Some (VObj [("privacy", VStr "private")]).
Proof.
  assert (Hall : Forall (fun id => is_Some (document (video_form "leo") !! id))
                   (fields_before_dispatch SignToYouTube)).
  { repeat constructor. by eexists. }
  assert (Hsign : value (Element [] [] "leo") <> EmptyString) by (simpl; discriminate).
  exact (valid_sign_flow_dispatches no_number no_number user_confirms SignToYouTube
           (video_form "leo") (Element [] [] "leo") Hall eq_refl Hsign (fun _ _ => eq_refl)).
Defined.

(** X13 (what stands for a format that was not chosen).  The four flows
    that send the format of the video read it from the same selector, but
    treat an empty choice differently: [generateComfyUIVideo] and
    [generateComfyUIBatchVideos] send it as it is, empty if it is,
    [generateSingleSignMontage] sends [test] in its place and
    [generateFullMontage] sends [youtube_short]. *)
Theorem format_fallbacks S P env w selector fmt :
  document w !! "video-sign" = Some selector ->
  value selector <> EmptyString ->
  document w !! "video-format" = Some fmt ->
  is_Some (document w !! "custom-prompt") ->
  is_Some (document w !! "seed-input") ->
  (forall q, confirm_answer env q = true) ->
  let or_else fallback :=
    VStr (if String.eqb (value fmt) EmptyString then fallback else value fmt) in
  sent_formats (dispatched (effects (start S P env VideoClip) w)) = [VStr (value fmt)]
  /\ sent_formats (dispatched (effects (launch S env VideoBatch) w)) = [VStr (value fmt)]
  /\ sent_formats (dispatched (effects (start S P env SignMontage) w)) = [or_else "test"]
  /\ sent_formats (dispatched (effects (launch S env FullWorkflow) w))
     = [or_else "youtube_short"].
Proof.
  intros Hsel Hsign Hfmt [prompt Hprompt] [seed Hseed] Hyes or_else.
  assert (Htruthy : truthy (VStr (value selector)) = true).
  { apply negb_true_iff, String.eqb_neq, Hsign. }
  unfold effects. simpl start. simpl launch.
  unfold generateComfyUIVideo, generateComfyUIBatchVideos, generateSingleSignMontage,
    generateFullMontage, post_json.
  split_and!.
  - do 8 run_step. rewrite Htruthy. cbn [negb]. run_step.
    erewrite envelope_then_silent;
      [reflexivity | intros ?; ask_nothing | symmetry; apply app_nil_r | reflexivity].
  - run_step. rewrite Hyes. cbn [negb]. do 3 run_step.
    erewrite (envelope_then_silent _ _ _ _ _ _ _ (journal w));
      [reflexivity | intros ?; ask_nothing | reflexivity | reflexivity].
  - do 2 run_step. rewrite Htruthy. cbn [negb]. run_step. rewrite Hyes. cbn [negb].
    do 3 run_step.
    erewrite (envelope_then_silent _ _ _ _ _ _ _ (journal w));
      [reflexivity | intros ?; ask_nothing | reflexivity | reflexivity].
  - run_step. rewrite Hyes. cbn [negb]. do 3 run_step.
    erewrite (envelope_then_silent _ _ _ _ _ _ _ (journal w));
      [reflexivity | intros ?; ask_nothing | reflexivity | reflexivity].
Qed.

Lemma format_fallbacks_witness :
  sent_formats (dispatched (effects (start no_number no_number user_confirms VideoClip)
                              (video_form "leo"))) = [VStr EmptyString]
  /\ sent_formats (dispatched (effects (launch no_number user_confirms VideoBatch)
                                 (video_form "leo"))) = [VStr EmptyString]
  /\ sent_formats (dispatched (effects (start no_number no_number user_confirms SignMontage)
                                 (video_form "leo"))) = [VStr "test"]
  /\ sent_formats (dispatched (effects (launch no_number user_confirms FullWorkflow)
                                 (video_form "leo"))) = [VStr "youtube_short"].
Proof.
  assert (Hsign : value (Element [] [] "leo") <> EmptyString) by (simpl; discriminate).
  assert (Hprompt : is_Some (document (video_form "leo") !! "custom-prompt")) by by eexists.
  assert (Hseed : is_Some (document (video_form "leo") !! "seed-input")) by by eexists.
  exact (format_fallbacks no_number no_number user_confirms (video_form "leo")
           (Element [] [] "leo") (Element [] [] EmptyString)
           eq_refl Hsign eq_refl Hprompt Hseed (fun _ => eq_refl)).
Defined.

(** ** The choice of a model *)

Lemma changeModel_run w select dot text :
  document w !! "global-model-select" = Some select ->
  document w !! "model-status-dot" = Some dot ->
  document w !! "model-status-text" = Some text ->
  changeModel w
  = (Normal VUndefined,
     World (<["model-status-text" :=
                set_textContent ("Activé : " +:+ before_colon (value select)) text]>
              (<["model-status-dot" :=
                   set_className ["status-dot"; "connected"; "confirming"] dot]>
                 (document w)))
           (<["selectedModel" := value select]> (localStorage w))
           (AppState (VStr (value select)) (availableModels (appState w)))
           (clock w)
           (journal w
              ++ [(clock w, Write "model-status-dot"
                              (set_className ["status-dot"; "connected"; "confirming"] dot));
                  (clock w, Write "model-status-text"
                              (set_textContent ("Activé : " +:+ before_colon (value select))
                                 text));
                  (clock w, SetTimeout 1500)])).
Proof.
  intros Hselect Hdot Htext.
  unfold changeModel, bind, getElementById, read_value, handle, set_selectedModel, setItem,
    assign, update, record, ret.
  simpl. rewrite Hselect. simpl. rewrite Hselect, Hdot, Htext. simpl.
  rewrite Hdot. simpl. rewrite lookup_insert_ne by done. rewrite Htext. simpl.
  by rewrite <- !app_assoc.
Qed.

(** X14 (a choice survives a reload).  [changeModel] makes the model
    picked in the selector the active one and persists it; any later
    refresh that starts from that [localStorage] and lists a model of that
    name (after a reload, say, when [appState] is back to its default) makes
    it the active model again. *)
Theorem choice_survives_a_reload S env w select dot text :
  document w !! "global-model-select" = Some select ->
  document w !! "model-status-dot" = Some dot ->
  document w !! "model-status-text" = Some text ->
  value select <> EmptyString ->
  fst (changeModel w) = Normal VUndefined
  /\ selectedModel (appState (snd (changeModel w))) = VStr (value select)
  /\ localStorage (snd (changeModel w)) !! "selectedModel" = Some (value select)
  /\ forall later w' models,
       localStorage later = localStorage (snd (changeModel w)) ->
       refresh_succeeds S env later w' ->
       availableModels (appState w') = VArr models ->
       named models (VStr (value select)) ->
       selectedModel (appState w') = VStr (value select).
Proof.
  intros Hselect Hdot Htext Hchosen.
  rewrite (changeModel_run w select dot text Hselect Hdot Htext). simpl.
  split_and!; [done | done | apply lookup_insert_eq |].
  intros later w' models Hsto Hrefresh Havail (m & Hin & Hname).
  assert (Hsaved : persisted_or_previous later = VStr (value select)).
  { unfold persisted_or_previous. rewrite Hsto, lookup_insert_eq. simpl.
    by apply String.eqb_neq in Hchosen as ->. }
  destruct (successful_refresh S env later w' Hrefresh)
    as (response & data & models' & _ & _ & _ & Havail' & _ & Hfound).
  rewrite Havail in Havail'. injection Havail' as <-.
  rewrite Hsaved in Hfound.
  destruct (some_named (VStr (value select)) models) as [[]|] eqn:Hsome; [done| |done].
  destruct (some_named_absent _ _ Hsome m Hin) as (name & Hname' & Hneq).
  rewrite Hname in Hname'. injection Hname' as <-.
  by rewrite strict_eq_refl_string in Hneq.
Qed.

Lemma choice_survives_a_reload_witness :
  let w := models_listed ["a"; "b"] "b" in
  let reloaded := World models_page (<["selectedModel" := "b"]> ∅) initialAppState 0 [] in
  selectedModel (appState (snd (changeModel w))) = VStr "b"
  /\ localStorage reloaded = localStorage (snd (changeModel w))
  /\ selectedModel (appState reloaded) = VStr "llama3.1:8b-instruct-q8_0"
  /\ selectedModel
       (appState (snd (loadAvailableModels no_number (ollama_lists ["a"; "b"]) reloaded)))
     = VStr "b".
Proof.
  intros w reloaded.
  assert (Hchosen : value (Element [] (map (fun name => OptionNode name name) ["a"; "b"]) "b")
                    <> EmptyString) by (simpl; discriminate).
  assert (Hsto : localStorage reloaded = localStorage (snd (changeModel w)))
    by (vm_compute; reflexivity).
  assert (Hrun : refresh_succeeds no_number (ollama_lists ["a"; "b"]) reloaded
                   (snd (loadAvailableModels no_number (ollama_lists ["a"; "b"]) reloaded)))
    by (vm_compute; reflexivity).
  assert (Havail : availableModels
                     (appState (snd (loadAvailableModels no_number (ollama_lists ["a"; "b"])
                                       reloaded)))
                   = VArr [VObj [("name", VStr "a")]; VObj [("name", VStr "b")]])
    by (vm_compute; reflexivity).
  assert (Hnamed : named [VObj [("name", VStr "a")]; VObj [("name", VStr "b")]]
                     (VStr (value (Element [] (map (fun name => OptionNode name name)
                                                 ["a"; "b"]) "b")))).
  { exists (VObj [("name", VStr "b")]). split; [|reflexivity].
    apply list_elem_of_further, list_elem_of_here. }
  pose proof (choice_survives_a_reload no_number (ollama_lists ["a"; "b"]) w _ _ _
                eq_refl eq_refl eq_refl Hchosen)
    as (_ & Hactive & _ & Hlater).
  split_and!; [exact Hactive | exact Hsto | reflexivity |].
  exact (Hlater reloaded _ _ Hsto Hrun Havail Hnamed).
Defined.

Lemma nonempty_count (count : string) : String.eqb (count +:+ " modèles") EmptyString = false.
Proof. by destruct count. Qed.

Lemma changeModel_then_timeout_run w select dot text models :
  document w !! "global-model-select" = Some select ->
  document w !! "model-status-dot" = Some dot ->
  document w !! "model-status-text" = Some text ->
  availableModels (appState w) = VArr models ->
  exists j,
    changeModel_then_timeout w
    = (Normal tt,
       World (<["model-status-text" :=
                  set_textContent (pretty (Z.of_nat (length models)) +:+ " modèles")
                    (set_textContent ("Activé : " +:+ before_colon (value select)) text)]>
                (<["model-status-dot" :=
                     classList_remove "confirming"
                       (set_className ["status-dot"; "connected"; "confirming"] dot)]>
                   (document w)))
             (<["selectedModel" := value select]> (localStorage w))
             (AppState (VStr (value select)) (VArr models))
             (clock w + 1500) j).
Proof.
  intros Hselect Hdot Htext Hmodels.
  unfold changeModel_then_timeout.
  do 2 run_step.
  erewrite bind_run by (by apply changeModel_run). cbv beta.
  erewrite bind_run by reflexivity. cbv beta.
  unfold changeModel_timeout, invoke, models_count, assign, update, bind. simpl.
  rewrite lookup_insert_ne by done. rewrite lookup_insert_eq. simpl.
  rewrite Hmodels. simpl.
  rewrite lookup_insert_ne by done. rewrite lookup_insert_eq. simpl.
  eexists. do 2 f_equal.
  apply map_eq. intros id.
  destruct (decide (id = "model-status-text")) as [->|Htxt].
  { by rewrite !lookup_insert_eq. }
  rewrite !(lookup_insert_ne _ "model-status-text") by done.
  destruct (decide (id = "model-status-dot")) as [->|Hd].
  { by rewrite !lookup_insert_eq. }
  by rewrite !lookup_insert_ne by done.
Qed.

(** X15 (the confirmation is transient).  After [changeModel] and the
    1500 ms of its timer, the status line reads as a successful refresh
    leaves it: the dot is [connected] and no longer [confirming], and the
    text counts the models that [appState] holds, whatever the line showed
    before the choice. *)
Theorem confirmation_is_transient w select dot text models :
  document w !! "global-model-select" = Some select ->
  document w !! "model-status-dot" = Some dot ->
  document w !! "model-status-text" = Some text ->
  availableModels (appState w) = VArr models ->
  fst (changeModel_then_timeout w) = Normal tt
  /\ clock (snd (changeModel_then_timeout w)) = (clock w + 1500)%nat
  /\ exists dot' text',
       document (snd (changeModel_then_timeout w)) !! "model-status-dot" = Some dot'
       /\ classList dot' = ["status-dot"; "connected"]
       /\ document (snd (changeModel_then_timeout w)) !! "model-status-text" = Some text'
       /\ content text' = [TextNode (pretty (Z.of_nat (length models)) +:+ " modèles")].
Proof.
  intros Hselect Hdot Htext Hmodels.
  destruct (changeModel_then_timeout_run w select dot text models Hselect Hdot Htext Hmodels)
    as (j & ->).
  simpl. split_and!; [done..|].
  eexists _, _. split_and!.
  - rewrite lookup_insert_ne by done. apply lookup_insert_eq.
  - reflexivity.
  - apply lookup_insert_eq.
  - simpl. by rewrite nonempty_count.
Qed.

Lemma confirmation_is_transient_witness :
  let w := models_listed ["a"; "b"] "b" in
  fst (changeModel_then_timeout w) = Normal tt
  /\ clock (snd (changeModel_then_timeout w)) = 1500%nat
  /\ exists dot' text',
       document (snd (changeModel_then_timeout w)) !! "model-status-dot" = Some dot'
       /\ classList dot' = ["status-dot"; "connected"]
       /\ document (snd (changeModel_then_timeout w)) !! "model-status-text" = Some text'
       /\ content text' = [TextNode "2 modèles"].
Proof.
  exact (confirmation_is_transient (models_listed ["a"; "b"] "b") _ _ _
           [VObj [("name", VStr "a")]; VObj [("name", VStr "b")]]
           eq_refl eq_refl eq_refl eq_refl).
Defined.

(** ** The selector of the models *)

Lemma model_option_inv m opt :
  model_option m = Normal opt ->
  exists name v t,
    get m "name" = Normal name /\ ToString name = Normal v
    /\ to_nullable_DOMString name = Normal t /\ opt = OptionNode v t.
Proof.
  unfold model_option.
  destruct (get m "name") as [name|] eqn:Hname; simpl; [|done].
  destruct (ToString name) as [v|] eqn:Hv; simpl; [|done].
  destruct (to_nullable_DOMString name) as [t|] eqn:Ht; simpl; [|done].
  intros [= <-]. by exists name, v, t.
Qed.

Lemma add_options_run id models : forall options w e,
  map_completion model_option models = Normal options ->
  document w !! id = Some e ->
  exists j,
    for_each (add_model_option (Some id)) models w
    = (Normal tt,
       World (<[id := Element (classList e) (content e ++ options) (value e)]> (document w))
             (localStorage w) (appState w) (clock w) j).
Proof.
  induction models as [|m rest IH]; intros options w e Hopts He; simpl in Hopts.
  - injection Hopts as <-. exists (journal w). simpl. unfold ret. f_equal.
    rewrite app_nil_r. destruct e, w; simpl in *. f_equal. by rewrite insert_id.
  - destruct (model_option m) as [opt|] eqn:Hm; simpl in Hopts; [|done].
    destruct (map_completion model_option rest) as [opts|] eqn:Hrest; simpl in Hopts; [|done].
    injection Hopts as <-.
    apply model_option_inv in Hm as (name & v & t & Hname & Hv & Ht & ->).
    simpl for_each. erewrite bind_run; cycle 1.
    { unfold add_model_option, bind, lift, invoke, update.
      rewrite Hname, Hv, Ht, He. reflexivity. }
    cbv beta.
    edestruct (IH opts) as [j Hj]; [done | | rewrite Hj].
    { simpl. apply lookup_insert_eq. }
    exists j. simpl. by rewrite insert_insert_eq, <- app_assoc.
Qed.

Lemma listed_names_are_read saved models options :
  map_completion model_option models = Normal options ->
  exists found, some_named saved models = Normal found.
Proof.
  revert options. induction models as [|m rest IH]; intros options Hopts; simpl in *.
  - by exists false.
  - destruct (model_option m) as [opt|] eqn:Hm; simpl in Hopts; [|done].
    destruct (map_completion model_option rest) as [opts|] eqn:Hrest; simpl in Hopts; [|done].
    apply model_option_inv in Hm as (name & v & t & Hname & _).
    rewrite Hname. simpl. destruct (strict_eq name saved); [by exists true|].
    by apply (IH opts).
Qed.

Lemma listed_name_is_an_option models options m classes shown :
  map_completion model_option models = Normal options ->
  m ∈ models ->
  exists name v,
    get m "name" = Normal name /\ ToString name = Normal v
    /\ v ∈ option_values (Element classes options shown).
Proof.
  intros Hopts Hin.
  apply map_completion_Forall2 in Hopts.
  apply list_elem_of_lookup in Hin as [i Hi].
  destruct (Forall2_lookup_l _ _ _ _ _ Hopts Hi) as (opt & Hopt & Hm).
  apply model_option_inv in Hm as (name & v & t & Hname & Hv & _ & ->).
  exists name, v. split_and!; [done..|].
  unfold option_values. simpl. apply list_elem_of_omap.
  exists (OptionNode v t). split; [|done]. by apply list_elem_of_lookup_2 in Hopt.
Qed.

Lemma listed_models_run S env w response data success models options select dot text :
  outcome (network env "/api/ollama/models" None) = Normal response ->
  json_result response = Normal data ->
  get data "success" = Normal success ->
  truthy success = true ->
  get data "models" = Normal (VArr models) ->
  models <> [] ->
  map_completion model_option models = Normal options ->
  document w !! "global-model-select" = Some select ->
  document w !! "model-status-dot" = Some dot ->
  document w !! "model-status-text" = Some text ->
  exists active shown t j,
    refresh_models S env (Some "model-status-dot") (Some "model-status-text")
      (Some "global-model-select") w
    = (Normal tt,
       World (<["model-status-text" :=
                  set_textContent (pretty (Z.of_nat (length models)) +:+ " modèles") text]>
                (<["model-status-dot" := set_className ["status-dot"; "connected"] dot]>
                   (<["global-model-select" := Element (classList select) options shown]>
                      (document w))))
             (localStorage w) (AppState active (VArr models)) t j)
    /\ ToString active = Normal shown.
Proof.
  intros Hout Hjson Hsucc Htruthy Hmodels Hnonempty Hopts Hselect Hdot Htext.
  assert (Hrec : models_received S data = Normal true).
  { unfold models_received. rewrite Hsucc. simpl. rewrite Htruthy. simpl.
    rewrite Hmodels. simpl. unfold greater_than. simpl.
    by destruct models. }
  unfold refresh_models.
  erewrite bind_run by reflexivity. cbv beta.
  erewrite bind_run by (unfold await; simpl; rewrite Hout; reflexivity). cbv beta.
  erewrite bind_run by reflexivity. cbv beta.
  erewrite bind_run by (unfold await; simpl; rewrite Hjson; reflexivity). cbv beta.
  erewrite bind_run by (unfold lift; rewrite Hrec; reflexivity). cbv beta iota.
  erewrite bind_run by (unfold lift; rewrite Hmodels; reflexivity). cbv beta.
  erewrite bind_run by reflexivity. cbv beta.
  erewrite bind_run by (unfold assign, update; simpl; rewrite Hselect; reflexivity). cbv beta.
  simpl forEach.
  match goal with
  | |- context [bind (for_each _ _) _ ?w9] =>
      destruct (add_options_run "global-model-select" models options w9
                  (set_innerHTML EmptyString select) Hopts (lookup_insert_eq _ _ _)) as [j9 Hj9]
  end.
  erewrite bind_run by exact Hj9. cbv beta. clear Hj9. simpl.
  rewrite insert_insert_eq.
  erewrite bind_run by reflexivity. cbv beta.
  erewrite bind_run by reflexivity. cbv beta. simpl.
  change (match localStorage w !! "selectedModel" with
          | Some s => if negb (String.eqb s EmptyString) then VStr s
                      else selectedModel (appState w)
          | None => selectedModel (appState w)
          end) with (persisted_or_previous w).
  destruct (listed_names_are_read (persisted_or_previous w) models options Hopts)
    as [found Hfound].
  erewrite bind_run by (unfold lift; rewrite Hfound; reflexivity). cbv beta.
  assert (exists m name v,
             m ∈ models /\ get m "name" = Normal name /\ ToString name = Normal v
             /\ v ∈ option_values (Element (classList select) options (value select))
             /\ if found then name = persisted_or_previous w else m = first models)
    as (m & name & v & Hin & Hname & Hv & Hoption & Hwhich).
  { destruct found.
    - destruct (some_named_member _ _ Hfound) as (m & name & Hin & Hname & Heq).
      apply strict_eq_eq in Heq.
      destruct (listed_name_is_an_option models options m (classList select) (value select)
                  Hopts Hin) as (name' & v & Hname' & Hv & Hoption).
      rewrite Hname in Hname'. injection Hname' as <-. by exists m, name, v.
    - destruct models as [|m rest]; [done|].
      destruct (listed_name_is_an_option (m :: rest) options m (classList select)
                  (value select) Hopts (list_elem_of_here _ _))
        as (name & v & Hname & Hv & Hoption).
      exists m, name, v. split_and!; [left | done..]. }
  exists name, v.
  assert (Hshown : set_value v (Element (classList select) options (value select))
                   = Element (classList select) options v).
  { unfold set_value. simpl. by rewrite bool_decide_eq_true_2. }
  destruct found; subst.
  - erewrite bind_run; cycle 1.
    { erewrite bind_run by (unfold lift; rewrite Hv; reflexivity). cbv beta.
      erewrite bind_run
        by (unfold update; simpl; rewrite lookup_insert_eq, Hshown, insert_insert_eq;
            reflexivity).
      reflexivity. }
    cbv beta.
    erewrite bind_run
      by (unfold update; simpl; rewrite lookup_insert_ne by done; rewrite Hdot; reflexivity).
    cbv beta.
    erewrite bind_run by reflexivity. cbv beta.
    erewrite bind_run by reflexivity. cbv beta.
    unfold update. simpl. rewrite lookup_insert_ne by done.
    rewrite lookup_insert_ne by done. rewrite Htext. eauto.
  - erewrite bind_run; cycle 1.
    { erewrite bind_run by (unfold lift; rewrite Hname; reflexivity). cbv beta.
      erewrite bind_run by reflexivity. cbv beta.
      erewrite bind_run by (unfold lift; rewrite Hv; reflexivity). cbv beta.
      unfold update. simpl. rewrite lookup_insert_eq, Hshown, insert_insert_eq.
      reflexivity. }
    cbv beta.
    erewrite bind_run
      by (unfold update; simpl; rewrite lookup_insert_ne by done; rewrite Hdot; reflexivity).
    cbv beta.
    erewrite bind_run by reflexivity. cbv beta.
    erewrite bind_run by reflexivity. cbv beta.
    unfold update. simpl. rewrite lookup_insert_ne by done.
    rewrite lookup_insert_ne by done. rewrite Htext. eauto.
Qed.

(** X16 (the models listed fill the selector).  When the backend answers,
    whatever the HTTP status, with a truthy [success] and a non-empty array
    of models whose names convert to strings, and the selector and the two
    elements of the status line are on the page, the refresh goes through:
    [appState] holds the array, the selector holds one option per model, in
    the order of the array and in place of the options it had, it shows the
    model that is now active, and the status line is [connected] with the
    number of models. *)
Theorem listed_models_fill_the_selector
    S env w response data success models options select dot text :
  outcome (network env "/api/ollama/models" None) = Normal response ->
  json_result response = Normal data ->
  get data "success" = Normal success ->
  truthy success = true ->
  get data "models" = Normal (VArr models) ->
  models <> [] ->
  map_completion model_option models = Normal options ->
  document w !! "global-model-select" = Some select ->
  document w !! "model-status-dot" = Some dot ->
  document w !! "model-status-text" = Some text ->
  fst (loadAvailableModels S env w) = Normal VUndefined
  /\ refresh_succeeds S env w (snd (loadAvailableModels S env w))
  /\ availableModels (appState (snd (loadAvailableModels S env w))) = VArr models
  /\ length options = length models
  /\ exists select' dot' text',
       document (snd (loadAvailableModels S env w)) !! "global-model-select" = Some select'
       /\ content select' = options
       /\ ToString (selectedModel (appState (snd (loadAvailableModels S env w))))
          = Normal (value select')
       /\ document (snd (loadAvailableModels S env w)) !! "model-status-dot" = Some dot'
       /\ classList dot' = ["status-dot"; "connected"]
       /\ document (snd (loadAvailableModels S env w)) !! "model-status-text" = Some text'
       /\ content text' = [TextNode (pretty (Z.of_nat (length models)) +:+ " modèles")].
Proof.
  intros Hout Hjson Hsucc Htruthy Hmodels Hnonempty Hopts Hselect Hdot Htext.
  destruct (listed_models_run S env w response data success models options select dot text
              Hout Hjson Hsucc Htruthy Hmodels Hnonempty Hopts Hselect Hdot Htext)
    as (active & shown & t & j & Hrun & Hshown).
  assert (Hload : loadAvailableModels S env w
                  = (Normal VUndefined,
                     snd (refresh_models S env (Some "model-status-dot")
                            (Some "model-status-text") (Some "global-model-select") w))).
  { unfold loadAvailableModels. do 3 run_step. unfold bind, try_catch.
    by rewrite Hrun. }
  rewrite Hload. simpl.
  split_and!.
  - done.
  - unfold refresh_succeeds, handle. rewrite Hselect, Hdot, Htext. by rewrite Hrun.
  - by rewrite Hrun.
  - apply map_completion_Forall2, Forall2_length in Hopts. done.
  - rewrite Hrun. simpl. eexists _, _, _. split_and!.
    + rewrite lookup_insert_ne by done. rewrite lookup_insert_ne by done.
      apply lookup_insert_eq.
    + done.
    + done.
    + rewrite lookup_insert_ne by done. apply lookup_insert_eq.
    + done.
    + apply lookup_insert_eq.
    + simpl. by rewrite nonempty_count.
Qed.

Lemma listed_models_fill_the_selector_witness :
  let w' := snd (loadAvailableModels no_number (ollama_lists ["a"; "b"]) at_start) in
  refresh_succeeds no_number (ollama_lists ["a"; "b"]) at_start w'
  /\ exists select' dot' text',
       document w' !! "global-model-select" = Some select'
       /\ content select' = [OptionNode "a" "a"; OptionNode "b" "b"]
       /\ ToString (selectedModel (appState w')) = Normal (value select')
       /\ document w' !! "model-status-dot" = Some dot'
       /\ classList dot' = ["status-dot"; "connected"]
       /\ document w' !! "model-status-text" = Some text'
       /\ content text' = [TextNode "2 modèles"].
Proof.
  pose proof (listed_models_fill_the_selector no_number (ollama_lists ["a"; "b"]) at_start
                _ _ _ [VObj [("name", VStr "a")]; VObj [("name", VStr "b")]]
                [OptionNode "a" "a"; OptionNode "b" "b"] _ _ _
                eq_refl eq_refl eq_refl eq_refl eq_refl ltac:(discriminate) eq_refl
                eq_refl eq_refl eq_refl)
    as (_ & Hrun & _ & _ & Hpage).
  exact (conj Hrun Hpage).
Defined.

Lemma accepted_models_run S env w response data statusDot statusText modelSelect :
  outcome (network env "/api/ollama/models" None) = Normal response ->
  json_result response = Normal data ->
  models_received S data = Normal true ->
  exists models rest w1,
    get data "models" = Normal models
    /\ refresh_models S env statusDot statusText modelSelect w = rest w1
    /\ preserves listed rest
    /\ listed w1 = models
    /\ document w1 = document w
    /\ selectedModel (appState w1) = selectedModel (appState w)
    /\ (modelSelect = None -> exists e, rest w1 = (Throw e, w1)).
Proof.
  intros Hout Hjson Hrec.
  assert (exists models, get data "models" = Normal models) as [models Hmodels].
  { unfold models_received in Hrec.
    destruct (get data "success") as [success|]; simpl in Hrec; [|done].
    destruct (truthy success); simpl in Hrec; [|done].
    destruct (get data "models") as [models|]; [by exists models | done]. }
  exists models. unfold refresh_models.
  erewrite bind_run by reflexivity. cbv beta.
  erewrite bind_run by (unfold await; simpl; rewrite Hout; reflexivity). cbv beta.
  erewrite bind_run by reflexivity. cbv beta.
  erewrite bind_run by (unfold await; simpl; rewrite Hjson; reflexivity). cbv beta.
  erewrite bind_run by (unfold lift; rewrite Hrec; reflexivity). cbv beta iota.
  erewrite bind_run by (unfold lift; rewrite Hmodels; reflexivity). cbv beta.
  erewrite bind_run by reflexivity. cbv beta.
  eexists _, _. split_and!; [done | reflexivity | | done..|].
  - auto 40 with storage.
  - intros ->. eexists. reflexivity.
Qed.

(** X17 (an accepted list is kept, even if the refresh then fails).  As
    soon as the payload passes the test on [success] and [models],
    [appState.availableModels] holds its models, whatever happens next.  In
    particular, on a page without the selector the refresh fails after that
    point: the status line reads offline and the active model is as before,
    while the list is the new one. *)
Theorem accepted_models_replace_the_list S env w response data :
  outcome (network env "/api/ollama/models" None) = Normal response ->
  json_result response = Normal data ->
  models_received S data = Normal true ->
  exists models,
    get data "models" = Normal models
    /\ listed (snd (loadAvailableModels S env w)) = models
    /\ forall dot text,
         document w !! "global-model-select" = None ->
         document w !! "model-status-dot" = Some dot ->
         document w !! "model-status-text" = Some text ->
         fst (loadAvailableModels S env w) = Normal VUndefined
         /\ selectedModel (appState (snd (loadAvailableModels S env w)))
            = selectedModel (appState w)
         /\ document (snd (loadAvailableModels S env w))
            = <["model-status-text" := set_textContent "Ollama offline" text]>
                (<["model-status-dot" := set_className ["status-dot"; "error"] dot]>
                   (document w)).
Proof.
  intros Hout Hjson Hrec.
  destruct (accepted_models_run S env w response data
              (handle (document w) "model-status-dot")
              (handle (document w) "model-status-text")
              (handle (document w) "global-model-select") Hout Hjson Hrec)
    as (models & rest & w1 & Hmodels & Hrun & Hrest & Hlisted & Hdoc & Hactive & Hthrow).
  exists models. split; [done|].
  assert (Hload : loadAvailableModels S env w
                  = bind (try_catch rest
                            (fun error =>
                               record (ConsoleError "Erreur chargement modèles:" error) ;;;
                               assign (handle (document w) "model-status-dot") "className"
                                 (set_className ["status-dot"; "error"]) ;;;
                               assign (handle (document w) "model-status-text") "textContent"
                                 (set_textContent "Ollama offline")))
                      (fun _ => ret VUndefined) w1).
  { unfold loadAvailableModels. do 3 (erewrite bind_run by reflexivity; cbv beta).
    unfold bind at 1 3. unfold try_catch at 1 2. by rewrite Hrun. }
  rewrite Hload. split.
  - rewrite <- Hlisted.
    assert (H : preserves listed
                  (bind (try_catch rest
                           (fun error =>
                              record (ConsoleError "Erreur chargement modèles:" error) ;;;
                              assign (handle (document w) "model-status-dot") "className"
                                (set_className ["status-dot"; "error"]) ;;;
                              assign (handle (document w) "model-status-text") "textContent"
                                (set_textContent "Ollama offline")))
                     (fun _ => ret VUndefined)))
      by auto 40 with storage.
    apply H.
  - intros dot text Hselect Hdot Htext.
    destruct (Hthrow (proj2 (handle_None _ _) Hselect)) as [e He].
    match goal with
    | |- fst (?run w1) = _ /\ _ =>
        assert (exists j,
                   run w1
                   = (Normal VUndefined,
                      World (<["model-status-text" := set_textContent "Ollama offline" text]>
                               (<["model-status-dot" :=
                                    set_className ["status-dot"; "error"] dot]>
                                  (document w)))
                            (localStorage w1) (appState w1) (clock w1) j)) as [j ->]
    end.
    { unfold bind at 1. unfold try_catch. rewrite He.
      unfold handle. rewrite Hdot, Htext.
      unfold bind, record, assign, update, ret. simpl.
      rewrite Hdoc, Hdot. simpl. rewrite lookup_insert_ne by done. rewrite Htext. simpl.
      by eexists. }
    done.
Qed.

Lemma accepted_models_replace_the_list_witness :
  let w' := snd (loadAvailableModels no_number (ollama_lists ["a"; "b"]) selector_missing) in
  listed w' = VArr [VObj [("name", VStr "a")]; VObj [("name", VStr "b")]]
  /\ selectedModel (appState w') = VStr "llama3.1:8b-instruct-q8_0"
  /\ document w' !! "model-status-text"
     = Some (Element [] [TextNode "Ollama offline"] EmptyString).
Proof.
  destruct (accepted_models_replace_the_list no_number (ollama_lists ["a"; "b"])
              selector_missing _ _ eq_refl eq_refl eq_refl)
    as (models & Hmodels & Hlisted & Hmissing).
  injection Hmodels as <-.
  destruct (Hmissing _ _ eq_refl eq_refl eq_refl) as (_ & Hactive & Hpage).
  split_and!; [exact Hlisted | exact Hactive |].
  simpl. rewrite Hpage. vm_compute. reflexivity.
Defined.

(** ** The result on the page *)

Lemma bind_throw {A B} (m : M A) (k : A -> M B) w e w1 :
  m w = (Throw e, w1) -> bind m k w = (Throw e, w1).
Proof. intros H. unfold bind. by rewrite H. Qed.

Lemma confirmed_success_inv r data :
  confirmed_success r = Some data ->
  envelope_completion r = Normal data /\ truthy data = true.
Proof.
  unfold confirmed_success, envelope_completion, rejected_by_envelope.
  destruct (outcome r) as [apiResponse|]; simpl; [|done].
  destruct (json_result apiResponse) as [payload|]; simpl; [|done].
  destruct (get payload "success") as [success|] eqn:Hsuccess; simpl; [|done].
  destruct (ok apiResponse); simpl; [|done].
  destruct (truthy success) eqn:Htruthy; simpl; [|done].
  intros [= ->]. split; [done|].
  destruct data; simpl in Hsuccess; try done; injection Hsuccess as <-; done.
Qed.

Ltac look_up_all :=
  repeat match goal with
         | H : document _ !! _ = _ |- _ => rewrite H
         end.

Ltac primitive :=
  unfold getElementById, read_value, handle, confirm, alert, bind, record, ret; simpl;
  look_up_all; simpl; look_up_all; reflexivity.

(** Runs the flow in [H : run = m w] up to its request, case by case. *)
Ltac run_to_request H :=
  lazymatch type of H with
  | _ = bind (makeApiRequest _ _ _ _ _) _ _ => idtac
  | _ = bind _ _ _ =>
      first [ erewrite bind_run in H by primitive
            | erewrite bind_throw in H by primitive ];
      cbv beta in H; run_to_request H
  | _ = (if negb (truthy (VStr ?s)) then _ else _) _ =>
      let E := fresh "Hsign" in
      destruct (truthy (VStr s)) eqn:E; cbn [negb] in H; run_to_request H
  | _ = (if negb ?b then _ else _) _ =>
      let E := fresh "Hanswer" in
      destruct b eqn:E; cbn [negb] in H; run_to_request H
  | _ => idtac
  end.

Lemma settled_target loadingId resultId verdict page target :
  loadingId <> resultId ->
  page !! resultId = Some target ->
  page_settled loadingId resultId (Normal verdict) page !! resultId
  = Some (set_innerHTML EmptyString target).
Proof.
  intros Hne Htarget. unfold page_settled, page_reported, page_in_flight.
  rewrite lookup_alter_ne by done. rewrite lookup_alter_eq.
  rewrite lookup_alter_ne by done. by rewrite Htarget.
Qed.

(** A flow that, once [makeApiRequest] has returned a payload, renders it
    and writes the markup to the result target. *)
Lemma shown_or_rejected env endpoint options loadingId resultId (k : jsval -> M jsval)
    render w w1 mid data target run sent :
  loadingId <> resultId ->
  run = bind (makeApiRequest env endpoint options loadingId resultId) k w1 ->
  document w1 = document w ->
  journal w1 = journal w ++ mid ->
  dispatched mid = [] ->
  (forall response, asks 0 (k response)) ->
  (forall response w2,
     truthy response = true ->
     is_Some (document w2 !! resultId) ->
     k response w2
     = bind (lift (render response))
         (fun html => bind (update resultId (set_innerHTML html)) (fun _ => ret VUndefined))
         w2) ->
  (forall response html, render response = Normal html -> String.eqb html EmptyString = false) ->
  dispatched (drop (length (journal w)) (journal (snd run))) = [sent] ->
  confirmed_success (network env (fst sent) (snd sent)) = Some data ->
  document w !! resultId = Some target ->
  match render data with
  | Normal html =>
      fst run = Normal VUndefined
      /\ exists el, document (snd run) !! resultId = Some el /\ content el = [Markup html]
  | Throw e => fst run = Throw e /\ target_blank resultId (document (snd run))
  end.
Proof.
  intros Hne -> Hdoc Hjournal Hmid Hsilent Hk Hnonempty Hsent Hsuccess Htarget.
  rewrite (envelope_then_silent env endpoint options loadingId resultId k w1 (journal w) mid
             Hsilent Hjournal Hmid) in Hsent.
  injection Hsent as <-. simpl in Hsuccess.
  apply confirmed_success_inv in Hsuccess as [Hverdict Htruthy].
  assert (Hsettled : page_settled loadingId resultId (Normal data) (document w1) !! resultId
                     = Some (set_innerHTML EmptyString target)).
  { apply settled_target; [done|]. by rewrite Hdoc. }
  assert (exists w2,
             bind (makeApiRequest env endpoint options loadingId resultId) k w1
             = bind (lift (render data))
                 (fun html => bind (update resultId (set_innerHTML html))
                                (fun _ => ret VUndefined)) w2
             /\ document w2 !! resultId = Some (set_innerHTML EmptyString target))
    as (w2 & -> & Hsettled2).
  { eexists. unfold bind at 1. rewrite makeApiRequest_run. cbv zeta. rewrite Hverdict.
    split; [apply Hk; [done|]; simpl; by rewrite Hsettled | exact Hsettled]. }
  unfold bind, lift. destruct (render data) as [html|e] eqn:Hrender.
  - unfold update. simpl. rewrite Hsettled2. simpl. split; [done|].
    eexists. split; [apply lookup_insert_eq|]. simpl.
    by rewrite (Hnonempty _ _ Hrender).
  - simpl. split; [done|]. eexists. split; [exact Hsettled2|done].
Qed.

Ltac unrolled H :=
  repeat match type of H with
         | cbind ?c _ = Normal _ =>
             let x := fresh "x" in destruct c as [x|]; cbn [cbind] in H; [|discriminate H]
         end.

Lemma rendered_nonempty S h render response html :
  renderer S h = Some render ->
  render response = Normal html ->
  String.eqb html EmptyString = false.
Proof.
  intros Hrender H.
  destruct h as [| | |p|[]|[]|]; try discriminate Hrender;
    injection Hrender as <-;
    unfold createHoroscopeResultHTML, createComfyUIVideoResultHTML,
      createComfyUIBatchResultHTML, astral_context_result in H;
    unrolled H; by injection H as <-.
Qed.

Ltac nothing_sent Hrun Hsent :=
  rewrite Hrun in Hsent; simpl in Hsent;
  rewrite ?drop_app_length, ?drop_all in Hsent; discriminate Hsent.

Ltac rendering_flow render Hrun Hsent Hsuccess Htarget Hnonempty w :=
  eapply (shown_or_rejected _ _ _ _ _ _ render w _ _ _ _ _ (_, _));
  [ | exact Hrun | reflexivity
  | first [reflexivity | symmetry; apply app_nil_r]
  | reflexivity
  | intros ?; cbv beta; ask_nothing
  | let Hpresent := fresh "Hpresent" in
    let Htruthy := fresh "Htruthy" in
    intros ? ? Htruthy [? Hpresent];
    unfold bind, lift, assign, getElementById, handle, ret;
    rewrite Htruthy, ?Hpresent; simpl;
    repeat match goal with
           | |- context [match ?c with Normal _ => _ | Throw _ => _ end] => destruct c; simpl
           end;
    reflexivity
  | exact Hnonempty | exact Hsent | exact Hsuccess | exact Htarget ];
  done.

(** X18 (the result is shown, or the flow rejects).  In the four flows
    modelled that only show the result ([generateIndividualHoroscope],
    [getAstralContext], [generateComfyUIVideo] and
    [generateComfyUIBatchVideos]): once the
    request is dispatched and confirmed successful, either the helper
    renders the payload, and its markup is what the result target holds when
    the flow is fulfilled, or it throws (a payload that lacks what the
    helper reads), and then the flow is rejected with that exception, which
    nothing catches, and the result target stays blank. *)
Theorem result_is_shown_or_the_flow_rejects
    S P env h w render endpoint options data target :
  renderer S h = Some render ->
  dispatched (effects (handle_event S P env h) w) = [(endpoint, options)] ->
  confirmed_success (network env endpoint options) = Some data ->
  document w !! result_target h = Some target ->
  match render data with
  | Normal html =>
      fst (handle_event S P env h w) = Normal VUndefined
      /\ exists el,
           document (snd (handle_event S P env h w)) !! result_target h = Some el
           /\ content el = [Markup html]
  | Throw e =>
      fst (handle_event S P env h w) = Throw e
      /\ target_blank (result_target h) (document (snd (handle_event S P env h w)))
  end.
Proof.
  intros Hrender Hsent Hsuccess Htarget.
  pose proof (rendered_nonempty S h render) as Hnonempty.
  specialize (fun response html => Hnonempty response html Hrender).
  unfold effects in Hsent.
  remember (handle_event S P env h w) as run eqn:Hrun.
  destruct h as [| | |p|[]|[]|]; try discriminate Hrender;
    injection Hrender as <-; simpl in Hrun, Htarget; simpl result_target.
  - unfold generateComfyUIBatchVideos in Hrun.
    destruct (document w !! "video-format") eqn:Hformat; run_to_request Hrun;
      try nothing_sent Hrun Hsent.
    rendering_flow (createComfyUIBatchResultHTML S) Hrun Hsent Hsuccess Htarget Hnonempty w.
  - unfold generateIndividualHoroscope in Hrun.
    destruct (document w !! "sign-select") eqn:Hsel;
      destruct (document w !! "date-input") eqn:Hdate;
      run_to_request Hrun; try nothing_sent Hrun Hsent.
    rendering_flow (fun response => cbind (get response "result") createHoroscopeResultHTML)
      Hrun Hsent Hsuccess Htarget Hnonempty w.
  - unfold generateComfyUIVideo in Hrun.
    destruct (document w !! "video-sign") eqn:Hsel;
      destruct (document w !! "video-format") eqn:Hformat;
      destruct (document w !! "custom-prompt") eqn:Hprompt;
      destruct (document w !! "seed-input") eqn:Hseed;
      run_to_request Hrun; try nothing_sent Hrun Hsent.
    rendering_flow (fun response =>
                      cbind (get response "result") (createComfyUIVideoResultHTML S))
      Hrun Hsent Hsuccess Htarget Hnonempty w.
  - unfold getAstralContext in Hrun.
    destruct (document w !! "context-date-input") eqn:Hdate;
      run_to_request Hrun; try nothing_sent Hrun Hsent.
    rendering_flow astral_context_result Hrun Hsent Hsuccess Htarget Hnonempty w.
Qed.

Lemma result_is_shown_or_the_flow_rejects_witness :
  let env := backend_answers 120 200 clip_without_path in
  let run := handle_event no_number no_number env (Sign VideoClip) (video_form "leo") in
  fst run = Throw (TypeError "Cannot read properties of undefined (reading 'split')")
  /\ target_blank "video-result" (document (snd run)).
Proof.
  assert (Hsent : dispatched (effects (handle_event no_number no_number
                                         (backend_answers 120 200 clip_without_path)
                                         (Sign VideoClip)) (video_form "leo"))
                  = [("/api/comfyui/generate_video",
                      post_json (VObj [("sign", VStr "leo"); ("format", VStr EmptyString);
                                       ("custom_prompt", VNull); ("seed", VNull)]))])
    by (vm_compute; reflexivity).
  exact (result_is_shown_or_the_flow_rejects no_number no_number
           (backend_answers 120 200 clip_without_path) (Sign VideoClip) (video_form "leo")
           _ _ _ clip_without_path (Element [] [Markup "<p>hier</p>"] EmptyString)
           eq_refl Hsent eq_refl eq_refl).
Defined.

Lemma montage_result_nonempty S sign response html :
  montage_result S sign response = Normal html -> String.eqb html EmptyString = false.
Proof.
  intros H. unfold montage_result in H. unrolled H. by injection H as <-.
Qed.

(** X19 (the montage needs its results).  [generateSingleSignMontage]
    reads [workflow_results] with an optional chaining, but dereferences
    what it yields: when the request is confirmed successful and the payload
    has no [workflow_results] (or [null]), the flow is rejected with a
    [TypeError] that nothing catches, and the result target stays blank. *)
Theorem montage_needs_its_results S P env w endpoint options data workflow_results target :
  dispatched (effects (start S P env SignMontage) w) = [(endpoint, options)] ->
  confirmed_success (network env endpoint options) = Some data ->
  get data "workflow_results" = Normal workflow_results ->
  workflow_results = VUndefined \/ workflow_results = VNull ->
  document w !! "video-result" = Some target ->
  fst (start S P env SignMontage w)
  = Throw (TypeError "Cannot read properties of undefined (reading 'video_path')")
  /\ target_blank "video-result" (document (snd (start S P env SignMontage w))).
Proof.
  intros Hsent Hsuccess Hresults Habsent Htarget.
  unfold effects in Hsent.
  remember (start S P env SignMontage w) as run eqn:Hrun.
  simpl in Hrun. unfold generateSingleSignMontage in Hrun.
  destruct (document w !! "video-sign") as [selector|] eqn:Hsel;
    destruct (document w !! "video-format") eqn:Hformat;
    run_to_request Hrun; try nothing_sent Hrun Hsent.
  assert (Hrendered : montage_result S (value selector) data
                      = Throw (TypeError
                                 "Cannot read properties of undefined (reading 'video_path')")).
  { unfold montage_result, synchronized_video. rewrite Hresults.
    by destruct Habsent as [-> | ->]. }
  assert (Hnonempty := montage_result_nonempty S (value selector)).
  epose proof (shown_or_rejected env _ _ _ _ _ (montage_result S (value selector)) w _ _
                 data target run (endpoint, options)) as Hflow.
  rewrite Hrendered in Hflow.
  eapply Hflow;
    [ | exact Hrun | reflexivity | reflexivity | reflexivity
    | intros ?; cbv beta; ask_nothing
    | intros ? ? Htruthy [? Hpresent];
      unfold bind, lift, assign, ret; rewrite Htruthy; simpl;
      match goal with
      | |- context [montage_result ?a ?b ?c] => destruct (montage_result a b c)
      end; reflexivity
    | exact Hnonempty | exact Hsent | exact Hsuccess | exact Htarget ];
    done.
Qed.

Lemma montage_needs_its_results_witness :
  let env := backend_answers 120 200 (VObj [("success", VBool true)]) in
  let run := start no_number no_number env SignMontage (video_form "leo") in
  fst run = Throw (TypeError "Cannot read properties of undefined (reading 'video_path')")
  /\ target_blank "video-result" (document (snd run)).
Proof.
  assert (Hsent : dispatched (effects (start no_number no_number
                                         (backend_answers 120 200
                                            (VObj [("success", VBool true)]))
                                         SignMontage) (video_form "leo"))
                  = [("/api/workflow/complete_sign_generation",
                      post_json (VObj [("sign", VStr "leo"); ("format", VStr "test");
                                       ("add_music", VBool true)]))])
    by (vm_compute; reflexivity).
  exact (montage_needs_its_results no_number no_number
           (backend_answers 120 200 (VObj [("success", VBool true)])) (video_form "leo")
           _ _ (VObj [("success", VBool true)]) VUndefined
           (Element [] [Markup "<p>hier</p>"] EmptyString)
           Hsent eq_refl eq_refl (or_introl eq_refl) eq_refl).
Defined.

(** ** The status line of the models *)

Lemma refresh_writes_the_status_line S env statusDot statusText modelSelect w w' :
  refresh_models S env statusDot statusText modelSelect w = (Normal tt, w') ->
  statusDot <> None /\ statusText <> None.
Proof.
  unfold refresh_models. intros H.
  apply bind_Normal in H as (fetching & w1 & _ & H).
  apply bind_Normal in H as (response & w2 & _ & H).
  apply bind_Normal in H as (parsing & w3 & _ & H).
  apply bind_Normal in H as (data & w4 & _ & H).
  apply bind_Normal in H as (received & w5 & _ & H).
  destruct received.
  2:{ apply bind_Normal in H as (error & w6 & _ & H).
      apply bind_Normal in H as (message & w7 & _ & H). discriminate H. }
  apply bind_Normal in H as (models & w6 & _ & H).
  apply bind_Normal in H as ([] & w7 & _ & H).
  apply bind_Normal in H as ([] & w8 & _ & H).
  apply bind_Normal in H as ([] & w9 & _ & H).
  apply bind_Normal in H as (previous & w10 & _ & H).
  apply bind_Normal in H as (savedModel & w11 & _ & H).
  apply bind_Normal in H as (found & w12 & _ & H).
  apply bind_Normal in H as ([] & w13 & _ & H).
  apply bind_Normal in H as ([] & w14 & Hdot & H).
  apply bind_Normal in H as (len & w15 & _ & H).
  apply bind_Normal in H as (count & w16 & _ & H).
  split.
  - by destruct statusDot.
  - by destruct statusText.
Qed.

(** X20 (the status line is required).  [loadAvailableModels] writes the
    status line in its [catch] block as well, without testing that the page
    has it: on a page without the status dot the returned promise is
    rejected, whatever the backend answers; with the dot but without the
    status text it is rejected as well, and the dot is left on [error], even
    if the models were received. *)
Theorem status_line_is_required S env w :
  (document w !! "model-status-dot" = None ->
   fst (loadAvailableModels S env w)
   = Throw (TypeError "Cannot set properties of null (setting 'className')"))
  /\ (forall dot,
        document w !! "model-status-dot" = Some dot ->
        document w !! "model-status-text" = None ->
        fst (loadAvailableModels S env w)
        = Throw (TypeError "Cannot set properties of null (setting 'textContent')")
        /\ exists dot',
             document (snd (loadAvailableModels S env w)) !! "model-status-dot" = Some dot'
             /\ classList dot' = ["status-dot"; "error"]).
Proof.
  split.
  - intros Hdot. unfold loadAvailableModels.
    do 3 (erewrite bind_run by reflexivity; cbv beta).
    rewrite (proj2 (handle_None _ _) Hdot).
    unfold bind at 1. unfold try_catch.
    destruct (refresh_models S env None _ _ w) as [[[]|e] w1] eqn:Hbody.
    + by destruct (refresh_writes_the_status_line _ _ _ _ _ _ _ Hbody) as [? _].
    + reflexivity.
  - intros dot Hdot Htext. unfold loadAvailableModels.
    do 3 (erewrite bind_run by reflexivity; cbv beta).
    rewrite (proj2 (handle_None _ _) Htext).
    assert (handle (document w) "model-status-dot" = Some "model-status-dot") as ->
      by (unfold handle; by rewrite Hdot).
    assert (Hsame : preserves elements
                      (refresh_models S env (Some "model-status-dot") None
                         (handle (document w) "global-model-select")))
      by (unfold refresh_models; auto 40 with storage).
    specialize (Hsame w). unfold elements in Hsame.
    match goal with
    | |- fst ?run = _ /\ _ =>
        assert (exists w2 dot',
                   run = (Throw (TypeError
                                   "Cannot set properties of null (setting 'textContent')"),
                          w2)
                   /\ document w2 !! "model-status-dot" = Some dot'
                   /\ classList dot' = ["status-dot"; "error"])
          as (w2 & dot' & -> & Hpage)
    end; [|by split; [|exists dot']].
    unfold bind, try_catch.
    destruct (refresh_models S env (Some "model-status-dot") None _ w) as [[[]|e] w1] eqn:Hbody.
    + by destruct (refresh_writes_the_status_line _ _ _ _ _ _ _ Hbody) as [_ ?].
    + simpl in Hsame.
      assert (is_Some (document w1 !! "model-status-dot")) as [dot1 Hdot1].
      { apply elem_of_dom. rewrite Hsame. apply elem_of_dom. by eexists. }
      unfold record, assign, update, throw. simpl. rewrite Hdot1. simpl.
      eexists _, _. split; [reflexivity|]. split; [apply lookup_insert_eq|done].
Qed.

Lemma status_line_is_required_witness :
  let dot_only := World (delete "model-status-text" models_page) ∅ initialAppState 0 [] in
  fst (loadAvailableModels no_number (ollama_lists ["a"]) at_rest)
  = Throw (TypeError "Cannot set properties of null (setting 'className')")
  /\ fst (loadAvailableModels no_number (ollama_lists ["a"]) dot_only)
     = Throw (TypeError "Cannot set properties of null (setting 'textContent')").
Proof.
  split.
  - exact (proj1 (status_line_is_required no_number (ollama_lists ["a"]) at_rest) eq_refl).
  - exact (proj1 (proj2 (status_line_is_required no_number (ollama_lists ["a"])
                           (World (delete "model-status-text" models_page) ∅
                                  initialAppState 0 []))
                    (Element ["status-dot"] [] EmptyString) eq_refl eq_refl)).
Defined.

(** ** The choice of a model, on a page that lacks an element *)

(** X21 (the choice is persisted first).  [changeModel] stores the choice
    in [appState] and in [localStorage] before it touches the status line:
    without the selector it is rejected and nothing changes, but without the
    status dot it is rejected after the choice has been made and persisted. *)
Theorem choice_is_persisted_first w :
  (document w !! "global-model-select" = None ->
   changeModel w
   = (Throw (TypeError "Cannot read properties of null (reading 'value')"), w))
  /\ (forall select,
        document w !! "global-model-select" = Some select ->
        document w !! "model-status-dot" = None ->
        fst (changeModel w)
        = Throw (TypeError "Cannot set properties of null (setting 'className')")
        /\ selectedModel (appState (snd (changeModel w))) = VStr (value select)
        /\ localStorage (snd (changeModel w)) !! "selectedModel" = Some (value select)
        /\ document (snd (changeModel w)) = document w).
Proof.
  split.
  - intros Hselect. unfold changeModel, bind, getElementById, read_value, handle.
    simpl. by rewrite Hselect.
  - intros select Hselect Hdot.
    assert (exists w1,
               changeModel w
               = (Throw (TypeError "Cannot set properties of null (setting 'className')"), w1)
               /\ selectedModel (appState w1) = VStr (value select)
               /\ localStorage w1 !! "selectedModel" = Some (value select)
               /\ document w1 = document w) as (w1 & -> & H); [|done].
    unfold changeModel, bind, getElementById, read_value, handle, set_selectedModel, setItem,
      assign, throw.
    simpl. rewrite Hselect. simpl. rewrite Hselect, Hdot. simpl.
    eexists. split; [reflexivity|]. simpl. split_and!; [done| |done].
    apply lookup_insert_eq.
Qed.

Lemma choice_is_persisted_first_witness :
  let w := World (<["global-model-select" := Element [] [] "b"]> ∅) ∅ initialAppState 0 [] in
  changeModel at_rest
  = (Throw (TypeError "Cannot read properties of null (reading 'value')"), at_rest)
  /\ fst (changeModel w)
     = Throw (TypeError "Cannot set properties of null (setting 'className')")
  /\ selectedModel (appState (snd (changeModel w))) = VStr "b"
  /\ localStorage (snd (changeModel w)) !! "selectedModel" = Some "b".
Proof.
  intros w.
  assert (Hselect : document w !! "global-model-select" = Some (Element [] [] "b"))
    by (vm_compute; reflexivity).
  assert (Hdot : document w !! "model-status-dot" = None) by (vm_compute; reflexivity).
  split.
  - exact (proj1 (choice_is_persisted_first at_rest) eq_refl).
  - destruct (proj2 (choice_is_persisted_first w) _ Hselect Hdot)
      as (Hthrown & Hactive & Hstored & _).
    exact (conj Hthrown (conj Hactive Hstored)).
Defined.

(** ** The horoscope and the astral context *)




(** X23 (the astral context lists every planet).  When the payload holds
    a list of influential planets, the markup of [getAstralContext] is
    produced exactly when every planet renders and the four fields of the
    context convert to strings; it is then the frame written out below
    around those fields and the concatenation of one entry per planet, in
    the order of the list.  The entry of a planet is written out as well,
    so that every planet of the list occurs in the markup with its name, its
    state and its influence. *)
Theorem astral_context_lists_every_planet response context items :
  get response "result" = Normal context ->
  get context "influential_planets" = Normal (VArr items) ->
  (forall html,
     astral_context_result response = Normal html <->
     exists entries date lunar_phase season seasonal_energy,
       Forall2 (fun p entry => planet_li p = Normal entry) items entries
       /\ length entries = length items
       /\ cbind (get context "date") ToString = Normal date
       /\ cbind (get context "lunar_phase") ToString = Normal lunar_phase
       /\ cbind (get context "season") ToString = Normal season
       /\ cbind (get context "seasonal_energy") ToString = Normal seasonal_energy
       /\ html = nl +:+ "            <div class=" +:+ dq +:+ "horoscope-result" +:+ dq +:+ ">"
                 +:+ nl +:+ "                <div class=" +:+ dq +:+ "horoscope-header" +:+ dq
                 +:+ ">"
                 +:+ nl +:+ "                    <div class=" +:+ dq +:+ "sign-icon" +:+ dq
                 +:+ ">🌌</div>"
                 +:+ nl +:+ "                    <div class=" +:+ dq +:+ "horoscope-meta" +:+ dq
                 +:+ "><h3>Contexte Astral du " +:+ date +:+ "</h3></div>"
                 +:+ nl +:+ "                </div>"
                 +:+ nl +:+ "                <div class=" +:+ dq +:+ "horoscope-text" +:+ dq
                 +:+ ">"
                 +:+ nl +:+ "                    <h4>🌙 Phase Lunaire</h4><p>" +:+ lunar_phase
                 +:+ "</p>"
                 +:+ nl +:+ "                    <h4>🍂 Saison</h4><p>" +:+ season +:+ " - "
                 +:+ seasonal_energy +:+ "</p>"
                 +:+ nl +:+ "                    <h4>🪐 Planètes Influentes</h4><ul>"
                 +:+ String.concat EmptyString entries +:+ "</ul>"
                 +:+ nl +:+ "                </div>"
                 +:+ nl +:+ "            </div>")
  /\ (forall i p name state influence name_text state_text influence_text,
        items !! i = Some p ->
        get p "name" = Normal name -> ToString name = Normal name_text ->
        get p "state" = Normal state -> ToString state = Normal state_text ->
        get p "influence" = Normal influence -> ToString influence = Normal influence_text ->
        planet_li p
        = Normal ("<li><strong>" +:+ name_text +:+ "</strong> (" +:+ state_text +:+ "): "
                  +:+ influence_text +:+ "</li>")
        /\ forall html,
             astral_context_result response = Normal html ->
             occurs ("<li><strong>" +:+ name_text +:+ "</strong> (" +:+ state_text +:+ "): "
                     +:+ influence_text +:+ "</li>") html).
Proof.
  intros Hresult Hplanets.
  assert (Hshape : forall html,
             astral_context_result response = Normal html <->
             exists entries date lunar_phase season seasonal_energy,
               Forall2 (fun p entry => planet_li p = Normal entry) items entries
               /\ length entries = length items
               /\ cbind (get context "date") ToString = Normal date
               /\ cbind (get context "lunar_phase") ToString = Normal lunar_phase
               /\ cbind (get context "season") ToString = Normal season
               /\ cbind (get context "seasonal_energy") ToString = Normal seasonal_energy
               /\ html = astral_context_markup date lunar_phase season seasonal_energy
                           (String.concat EmptyString entries)).
  { intros html. unfold astral_context_result.
    rewrite Hresult. cbn [cbind]. rewrite Hplanets. cbn [cbind elements_of]. split.
    - destruct (map_completion planet_li items) as [entries|] eqn:Hmap; cbn [cbind]; [|done].
      apply map_completion_Forall2 in Hmap.
      destruct (get context "date") as [date|]; cbn [cbind]; [|done].
      destruct (ToString date) as [date_text|]; cbn [cbind]; [|done].
      destruct (get context "lunar_phase") as [lunar|]; cbn [cbind]; [|done].
      destruct (ToString lunar) as [lunar_text|]; cbn [cbind]; [|done].
      destruct (get context "season") as [season|]; cbn [cbind]; [|done].
      destruct (ToString season) as [season_text|]; cbn [cbind]; [|done].
      destruct (get context "seasonal_energy") as [energy|]; cbn [cbind]; [|done].
      destruct (ToString energy) as [energy_text|]; cbn [cbind]; [|done].
      intros [= <-]. exists entries, date_text, lunar_text, season_text, energy_text.
      split_and!; [done | by apply Forall2_length in Hmap | done..].
    - intros (entries & date & lunar & season & energy & Hall & _ & Hd & Hl & Hs & He & ->).
      apply map_completion_Forall2 in Hall. rewrite Hall. cbn [cbind].
      destruct (get context "date") as [d|]; cbn [cbind] in *; [|done].
      rewrite Hd. cbn [cbind].
      destruct (get context "lunar_phase") as [l|]; cbn [cbind] in *; [|done].
      rewrite Hl. cbn [cbind].
      destruct (get context "season") as [s|]; cbn [cbind] in *; [|done].
      rewrite Hs. cbn [cbind].
      destruct (get context "seasonal_energy") as [e|]; cbn [cbind] in *; [|done].
      by rewrite He. }
  split.
  - intros html. rewrite (Hshape html).
    split; intros (entries & date & lunar & season & energy & Hall & Hlen & Hd & Hl & Hs & He
                   & ->);
      by exists entries, date, lunar, season, energy.
  - intros i p name state influence name_text state_text influence_text
      Hi Hname Hname_text Hstate Hstate_text Hinfluence Hinfluence_text.
    assert (Hli : planet_li p
                  = Normal ("<li><strong>" +:+ name_text +:+ "</strong> (" +:+ state_text
                            +:+ "): " +:+ influence_text +:+ "</li>")).
    { unfold planet_li. rewrite Hname. cbn [cbind]. rewrite Hname_text. cbn [cbind].
      rewrite Hstate. cbn [cbind]. rewrite Hstate_text. cbn [cbind].
      rewrite Hinfluence. cbn [cbind]. by rewrite Hinfluence_text. }
    split; [exact Hli|].
    intros html Hhtml.
    apply Hshape in Hhtml
      as (entries & date & lunar & season & energy & Hall & _ & _ & _ & _ & _ & ->).
    destruct (entry_of_item _ _ _ _ _ Hall Hi) as (entry & Hentry & _ & Hin).
    rewrite Hli in Hentry. injection Hentry as <-.
    unfold astral_context_markup.
    skip_to (String.concat EmptyString entries). skip_the_rest.
    apply (occurs_concat _ _ _ Hin).
    exists EmptyString, EmptyString. by rewrite append_empty_r.
Qed.

Lemma astral_context_lists_every_planet_witness :
  planet_li mars = Normal "<li><strong>Mars</strong> (direct): énergie</li>"
  /\ exists html,
       astral_context_result astral_report = Normal html
       /\ occurs ("<li><strong>" +:+ "Mars" +:+ "</strong> (" +:+ "direct" +:+ "): "
                  +:+ "énergie" +:+ "</li>") html.
Proof.
  destruct (proj2 (astral_context_lists_every_planet astral_report
                     (VObj [("date", VStr "2025-03-20");
                            ("lunar_phase", VStr "Pleine lune");
                            ("season", VStr "Printemps");
                            ("seasonal_energy", VStr "renouveau");
                            ("influential_planets", VArr [mars])])
                     [mars] eq_refl eq_refl)
              0%nat mars (VStr "Mars") (VStr "direct") (VStr "énergie")
              "Mars" "direct" "énergie"
              eq_refl eq_refl eq_refl eq_refl eq_refl eq_refl eq_refl) as [Hli Hoccurs].
  split; [exact Hli|].
  destruct (astral_context_result astral_report) as [html|] eqn:Hhtml;
    [|vm_compute in Hhtml; discriminate Hhtml].
  exists html. split; [done|]. by apply Hoccurs.
Defined.

(** X24 (a date is never validated).  [getAstralContext] asks nothing and
    checks nothing: as long as the page has the date field, one request is
    dispatched with whatever the field holds, the empty string included. *)
Theorem astral_context_sends_any_date env w field :
  document w !! "context-date-input" = Some field ->
  dispatched (effects (getAstralContext env) w)
  = [("/api/get_astral_context", post_json (VObj [("date", VStr (value field))]))].
Proof.
  intros Hfield. unfold effects, getAstralContext.
  do 3 run_step.
  erewrite envelope_then_silent;
    [reflexivity | intros ?; ask_nothing | symmetry; apply app_nil_r | reflexivity].
Qed.

Lemma astral_context_sends_any_date_witness :
  dispatched (effects (getAstralContext backend_down) context_form)
  = [("/api/get_astral_context", post_json (VObj [("date", VStr EmptyString)]))].
Proof.
  assert (Hfield : document context_form !! "context-date-input"
                   = Some (Element [] [] EmptyString)) by (vm_compute; reflexivity).
  exact (astral_context_sends_any_date backend_down context_form _ Hfield).
Defined.

(** ** No indicator is left active *)

Create HintDb indicators.

Lemma inactive_bind id {A B} (m : M A) (k : A -> M B) :
  leaves_inactive id m -> (forall x, leaves_inactive id (k x)) -> leaves_inactive id (bind m k).
Proof.
  intros Hm Hk w Hw. unfold bind. specialize (Hm w Hw).
  destruct (m w) as [[x|e] w1]; simpl in *; [|done]. by apply Hk.
Qed.

Lemma inactive_try_catch id {A} (body : M A) handler :
  leaves_inactive id body -> (forall e, leaves_inactive id (handler e)) ->
  leaves_inactive id (try_catch body handler).
Proof.
  intros Hb Hh w Hw. unfold try_catch. specialize (Hb w Hw).
  destruct (body w) as [[x|e] w1]; simpl in *; [done|]. by apply Hh.
Qed.

(** A step that leaves the page alone. *)
Lemma inactive_same_page id {A} (m : M A) :
  (forall w, document (snd (m w)) = document w) -> leaves_inactive id m.
Proof. intros Hm w Hw el. rewrite Hm. apply Hw. Qed.

(** A write that does not add the class. *)
Lemma inactive_update id target (f : element -> element) :
  (forall e, "active" ∉ classList e -> "active" ∉ classList (f e)) ->
  leaves_inactive id (update target f).
Proof.
  intros Hf w Hw el. rewrite update_run. simpl.
  destruct (decide (id = target)) as [->|Hne].
  - rewrite lookup_alter_eq. destruct (document w !! target) as [e|] eqn:He; [|done].
    intros [= <-]. apply Hf. by apply Hw.
  - rewrite lookup_alter_ne by done. apply Hw.
Qed.

Lemma inactive_makeApiRequest id env endpoint options loadingId resultId :
  leaves_inactive id (makeApiRequest env endpoint options loadingId resultId).
Proof.
  intros w Hw el. rewrite makeApiRequest_run. simpl.
  unfold page_settled, page_reported, page_in_flight.
  destruct (decide (id = loadingId)) as [->|Hne].
  - rewrite lookup_alter_eq.
    destruct (_ !! loadingId) as [e|]; [|done]. intros [= <-]. simpl.
    intros Hin. apply list_elem_of_filter in Hin as [Hin _]. by apply Hin.
  - rewrite lookup_alter_ne by done.
    assert (Hkept : forall (f : element -> element) (page : gmap string element),
               (forall e, classList (f e) = classList e) ->
               (forall e, page !! id = Some e -> "active" ∉ classList e) ->
               forall e, alter f resultId page !! id = Some e -> "active" ∉ classList e).
    { intros f page Hf Hpage e.
      destruct (decide (id = resultId)) as [->|Hr].
      - rewrite lookup_alter_eq. destruct (page !! resultId) as [e0|] eqn:He0; [|done].
        intros [= <-]. rewrite Hf. by apply Hpage.
      - rewrite lookup_alter_ne by done. apply Hpage. }
    assert (Hflight : forall e,
               alter (set_innerHTML EmptyString) resultId
                 (alter (classList_add "active") loadingId (document w)) !! id = Some e ->
               "active" ∉ classList e).
    { apply Hkept; [done|]. intros e. rewrite lookup_alter_ne by done. apply Hw. }
    destruct (envelope_completion _); [apply Hflight|].
    apply Hkept; [done | apply Hflight].
Qed.

#[local] Hint Resolve inactive_makeApiRequest : indicators.
#[local] Hint Extern 2 (leaves_inactive _ (bind _ _)) =>
  apply inactive_bind; [|intros ?] : indicators.
#[local] Hint Extern 2 (leaves_inactive _ (try_catch _ _)) =>
  apply inactive_try_catch; [|intros ?] : indicators.
#[local] Hint Extern 3 (leaves_inactive _ (if ?b then _ else _)) => destruct b : indicators.
#[local] Hint Extern 3 (leaves_inactive _ (assign ?t _ _)) =>
  destruct t; simpl : indicators.
#[local] Hint Extern 3 (leaves_inactive _ (invoke ?t _ _)) =>
  destruct t; simpl : indicators.
#[local] Hint Extern 3 (leaves_inactive _ (when_present ?t _)) =>
  destruct t; simpl : indicators.
Lemma inactive_update_content id target (f : element -> element) :
  (forall e, classList (f e) = classList e) -> leaves_inactive id (update target f).
Proof. intros Hf. apply inactive_update. intros e. by rewrite Hf. Qed.

Lemma inactive_set_className id target tokens :
  "active" ∉ tokens -> leaves_inactive id (update target (set_className tokens)).
Proof. intros Htokens. apply inactive_update. by intros e _. Qed.

Lemma inactive_classList_remove id target token :
  leaves_inactive id (update target (classList_remove token)).
Proof.
  apply inactive_update. intros e He Hin. simpl in Hin.
  by apply list_elem_of_filter in Hin as [_ Hin].
Qed.

Lemma inactive_read_value id target : leaves_inactive id (read_value target).
Proof.
  apply inactive_same_page. intros w. unfold read_value.
  destruct target; [by destruct (document w !! s)|done].
Qed.

#[local] Hint Resolve inactive_classList_remove inactive_read_value : indicators.
#[local] Hint Extern 4 (leaves_inactive _ (update _ (set_className _))) =>
  apply inactive_set_className;
  let Hin := fresh "Hin" in
  intros Hin;
  repeat (apply elem_of_cons in Hin as [Hin|Hin]; [discriminate Hin|]);
  by apply elem_of_nil in Hin : indicators.
#[local] Hint Extern 5 (leaves_inactive _ (update _ _)) =>
  by apply inactive_update_content : indicators.
#[local] Hint Extern 9 (leaves_inactive _ _) =>
  by apply inactive_same_page : indicators.

Lemma inactive_for_each id {A} (f : A -> M unit) l :
  (forall x, leaves_inactive id (f x)) -> leaves_inactive id (for_each f l).
Proof. intros Hf. induction l; simpl; auto with indicators. Qed.

Lemma inactive_forEach id what array (f : jsval -> M unit) :
  (forall x, leaves_inactive id (f x)) -> leaves_inactive id (forEach what array f).
Proof. intros Hf. destruct array; simpl; auto using inactive_for_each with indicators. Qed.

Lemma inactive_add_model_option id modelSelect model :
  leaves_inactive id (add_model_option modelSelect model).
Proof. unfold add_model_option. auto 10 with indicators. Qed.

#[local] Hint Resolve inactive_for_each inactive_forEach inactive_add_model_option
  : indicators.

(** X25 (no indicator is left active).  Whatever the page, the replies
    and the answers of the user, none of the asynchronous functions modelled
    leaves an element with the class [active] that did not have it when the
    function was called: when the function completes, fulfilled or
    rejected, every loading indicator that was at rest is at rest. *)
Theorem no_indicator_is_left_active S P env h id w :
  inactive id w -> inactive id (snd (handle_event S P env h w)).
Proof.
  revert w. change (leaves_inactive id (handle_event S P env h)).
  destruct h as [| | |[]|[]|[]|]; simpl;
    unfold loadAvailableModels, refresh_models, changeModel, checkSystemHealth,
      getAstralContext,
      checkComfyUIStatus, checkYouTubeStatus, generateComfyUIBatchVideos,
      generateFullMontage, uploadBatchToYouTube, generateIndividualHoroscope,
      generateComfyUIVideo, generateSingleSignMontage, uploadCurrentSignToYouTube,
      uploadCurrentSignToTikTok;
    auto 60 with indicators.
Qed.

Lemma no_indicator_is_left_active_witness :
  inactive "video-loading"
    (snd (handle_event no_number no_number backend_down (Batch BatchUpload) at_rest)).
Proof.
  apply no_indicator_is_left_active.
  intros el Hel.
  assert (Hfound : document at_rest !! "video-loading" = Some (Element ["loading"] [] EmptyString))
    by (vm_compute; reflexivity).
  rewrite Hfound in Hel. injection Hel as <-. simpl.
  intros Hin. apply list_elem_of_singleton in Hin. discriminate Hin.
Defined.
